(** * SceneManager: texture and material registries, state pushes, transforms

    A shallow embedding of [Source/SceneManager.cpp] (CS-330 scene manager)
    and the properties of its registry, teardown, lookup and state-push
    methods.

    The C++ object is a record; every method is a function on a [World]
    (the object together with the chronological list of calls it has issued
    to the image decoder and to OpenGL).  Out-of-bounds array accesses and
    null dereferences are undefined behaviour in C++ and end a run with
    [Undefined].  Loops carry fuel; each loop is proved to finish within the
    fuel its caller supplies. *)

From Stdlib Require Import ZArith Strings.Byte.
From stdpp Require Import base option list list_numbers gmap strings.

Local Open Scope Z_scope.

(** ** Machine integers *)

(** [GLuint] is an unsigned 32-bit integer, [int] a signed 32-bit one. *)
Definition GLuint_modulus : Z := 2 ^ 32.
Definition INT_MAX : Z := 2 ^ 31 - 1.

Definition to_GLuint (z : Z) : Z := z mod GLuint_modulus.

(** The conversion [int x = <GLuint>] (two's complement). *)
Definition int_of_GLuint (u : Z) : Z :=
  if u <=? INT_MAX then u else u - GLuint_modulus.

(** ** Outcomes of a run *)

Inductive outcome (A : Type) : Type :=
| Done (a : A)
| Undefined      (* out-of-bounds access, null dereference, signed overflow *)
| OutOfFuel.     (* a loop of the model ran out of fuel *)
Arguments Done {A} a.
Arguments Undefined {A}.
Arguments OutOfFuel {A}.

#[global] Instance outcome_ret : MRet outcome := @Done.
#[global] Instance outcome_bind : MBind outcome := λ A B f m,
  match m with
  | Done a => f a
  | Undefined => Undefined
  | OutOfFuel => OutOfFuel
  end.

Definition is_Done {A} (o : outcome A) : bool :=
  match o with Done _ => true | _ => false end.

(** [while (cond) body] *)
Fixpoint while {S : Type} (fuel : nat) (cond : S → bool)
    (body : S → outcome S) (s : S) : outcome S :=
  match fuel with
  | O => if cond s then OutOfFuel else Done s
  | Datatypes.S fuel' =>
      if cond s then body s ≫= while fuel' cond body else Done s
  end.

(** C arrays: [a[i]] as an rvalue and [a[i] = x]. *)
Definition array_get {A} (a : list A) (i : Z) : outcome A :=
  if 0 <=? i then
    match a !! Z.to_nat i with
    | Some x => Done x
    | None => Undefined
    end
  else Undefined.

Definition array_set {A} (a : list A) (i : Z) (x : A) : outcome (list A) :=
  if (0 <=? i) && (i <? Z.of_nat (length a))
  then Done (<[Z.to_nat i := x]> a)
  else Undefined.

(** [n++] on an [int]. *)
Definition int_incr (n : Z) : outcome Z :=
  if n <? INT_MAX then Done (n + 1) else Undefined.

(** [std::string::compare]: negative, zero or positive. *)
Definition string_compare (s t : string) : Z :=
  match String.compare s t with
  | Eq => 0
  | Lt => -1
  | Gt => 1
  end.

(** ** The GLM operations the scene manager calls

    GLM is a third-party library; its scalar type, its 4x4 matrices and the
    functions used in [SetTransformations] are an interface here. *)

Record vec2 (F : Type) := Vec2 { v2_x : F; v2_y : F }.
Record vec3 (F : Type) := Vec3 { v3_x : F; v3_y : F; v3_z : F }.
Record vec4 (F : Type) := Vec4 { v4_r : F; v4_g : F; v4_b : F; v4_a : F }.
Arguments Vec2 {F}.
Arguments Vec3 {F}.
Arguments Vec4 {F}.

Class GLM := {
  float : Type;
  mat4 : Type;
  float_0 : float;                               (* 0.0f *)
  float_1 : float;                               (* 1.0f *)
  glm_radians : float → float;                   (* glm::radians *)
  glm_scale : vec3 float → mat4;                 (* glm::scale(v) *)
  glm_rotate : float → vec3 float → mat4;        (* glm::rotate(angle, axis) *)
  glm_translate : vec3 float → mat4;             (* glm::translate(v) *)
  mat4_mul : mat4 → mat4 → mat4;                 (* operator* on glm::mat4 *)
}.

Declare Scope glm_scope.
Delimit Scope glm_scope with glm.
Infix "*" := mat4_mul (at level 40, left associativity) : glm_scope.

(** ** OpenGL and stb_image constants (values of the standard headers) *)

Definition GL_TEXTURE_2D : Z := 0x0DE1.
Definition GL_TEXTURE_WRAP_S : Z := 0x2802.
Definition GL_TEXTURE_WRAP_T : Z := 0x2803.
Definition GL_TEXTURE_MIN_FILTER : Z := 0x2801.
Definition GL_TEXTURE_MAG_FILTER : Z := 0x2800.
Definition GL_REPEAT : Z := 0x2901.
Definition GL_LINEAR : Z := 0x2601.
Definition GL_RGB : Z := 0x1907.
Definition GL_RGBA : Z := 0x1908.
Definition GL_RGB8 : Z := 0x8051.
Definition GL_RGBA8 : Z := 0x8058.
Definition GL_UNSIGNED_BYTE : Z := 0x1401.
Definition GL_TEXTURE0 : Z := 0x84C0.

(** What [stbi_load] hands back for a file it can decode. *)
Record Image := {
  width : Z;
  height : Z;
  colorChannels : Z;
  pixels : list byte;
}.

(** Calls issued to the image decoder and to OpenGL, in the order made.
    [glGenTextures] records the name the driver wrote back.
    [glDeleteTextures] is the release operation of OpenGL; no method of the
    source issues it. *)
Inductive event : Type :=
| stbi_set_flip_vertically_on_load (flag : bool)
| stbi_load (filename : string)
| stbi_image_free (image : Image)
| glGenTextures (n : Z) (name : Z)
| glDeleteTextures (n : Z) (name : Z)
| glBindTexture (target texture : Z)
| glActiveTexture (unit : Z)
| glTexParameteri (target pname param : Z)
| glTexImage2D (target level internalformat w h border format type : Z)
    (data : list byte)
| glGenerateMipmap (target : Z).

(** The surroundings of a run: which files decode to which image, and which
    texture name the driver hands out after a given history of calls. *)
Record Env := {
  decode : string → option Image;
  driver_name : list event → Z;
}.

Section SceneManager.
Context `{GLM}.

(** ** Data of the scene manager

    [SceneManager.h] is not part of the sources at hand; the records carry
    the fields the methods use. *)

(** [TEXTURE_INFO]: [ID] receives a [GLuint] from [glGenTextures]. *)
Record TEXTURE_INFO := {
  tex_ID : Z;
  tex_tag : string;
}.

Record OBJECT_MATERIAL := {
  diffuseColor : vec3 float;
  specularColor : vec3 float;
  shininess : float;
  mat_tag : string;
}.

(** Modelled from the spec: the number of entries of the array
    [m_textureIDs], declared in the absent [SceneManager.h] ("fixed-capacity
    (16)"; the comment of [BindGLTextures] says "There are up to 16
    slots"). *)
Definition MAX_TEXTURES : Z := 16.

(** Modelled from the spec: the Shader Interface ([ShaderManager], not part
    of the sources) "accepts named uniform values (scalars, vectors,
    matrices, sampler indices)", with "exactly one current value per named
    slot": a finite map from uniform names to the value last set. *)
Inductive uniform : Type :=
| IntValue (v : Z)
| FloatValue (v : float)
| Vec2Value (v : vec2 float)
| Vec3Value (v : vec3 float)
| Vec4Value (v : vec4 float)
| Mat4Value (m : mat4)
| Sampler2DValue (v : Z).

Definition ShaderManager : Type := gmap string uniform.

(** The members of the object.  [m_pShaderManager] is [None] for a null
    pointer, and otherwise holds the state of the shader manager pointed
    to.  [m_textureIDs] is a C array of [MAX_TEXTURES] entries. *)
Record SceneManager := {
  m_pShaderManager : option ShaderManager;
  m_textureIDs : list TEXTURE_INFO;
  m_loadedTextures : Z;
  m_objectMaterials : list OBJECT_MATERIAL;
}.

Record World := {
  scene : SceneManager;
  calls : list event;
}.

(** The uniform names of the anonymous namespace. *)
Definition g_ModelName : string := "model".
Definition g_ColorValueName : string := "objectColor".
Definition g_TextureValueName : string := "objectTexture".
Definition g_UseTextureName : string := "bUseTexture".
Definition g_UseLightingName : string := "bUseLighting".

(** ** Methods that change the world: state passing with undefined
    behaviour *)

Definition M (A : Type) : Type := World → outcome (A * World).

Definition ret_M {A} (a : A) : M A := λ w, Done (a, w).
Definition bind_M {A B} (m : M A) (k : A → M B) : M B :=
  λ w, '(a, w') ← m w; k a w'.

Notation "'let!' x ':=' m 'in' k" := (bind_M m (λ x, k))
  (at level 10, x name, m at level 100, k at level 200).
Notation "m ';;' k" := (bind_M m (λ _, k))
  (at level 100, k at level 200, right associativity).

Definition emit (e : event) : M unit :=
  λ w, Done (tt, {| scene := scene w; calls := calls w ++ [e] |}).

Definition get_scene : M SceneManager := λ w, Done (scene w, w).
Definition put_scene (sm : SceneManager) : M unit :=
  λ w, Done (tt, {| scene := sm; calls := calls w |}).
Definition lift {A} (o : outcome A) : M A := λ w, a ← o; mret (a, w).

(** [stbi_load(filename, &width, &height, &colorChannels, 0)] *)
Definition stbi_load_call (env : Env) (filename : string) : M (option Image) :=
  emit (stbi_load filename);;
  ret_M (decode env filename).

(** [glGenTextures(1, &x)]: the value written to [x]. *)
Definition glGenTextures_1 (env : Env) : M Z :=
  λ w, let name := to_GLuint (driver_name env (calls w)) in
       emit (glGenTextures 1 name) w ≫= λ '(_, w'), Done (name, w').

(** [m_textureIDs[i].field = ...] *)
Definition update_slot (i : Z) (f : TEXTURE_INFO → TEXTURE_INFO) : M unit :=
  let! sm := get_scene in
  let! e := lift (array_get (m_textureIDs sm) i) in
  let! a := lift (array_set (m_textureIDs sm) i (f e)) in
  put_scene {| m_pShaderManager := m_pShaderManager sm;
               m_textureIDs := a;
               m_loadedTextures := m_loadedTextures sm;
               m_objectMaterials := m_objectMaterials sm |}.

(** [for (int i = 0; i < bound; i++) body] *)
Definition for_int (fuel : nat) (bound : World → Z) (body : Z → M unit)
  : M unit :=
  λ w, '(_, w') ← while fuel
         (λ '(i, w), i <? bound w)
         (λ '(i, w), '(_, w') ← body i w; i' ← int_incr i; mret (i', w'))
         (0, w);
       mret (tt, w').

(** The constructor.  The array elements are default-initialised: the tag
    is the empty string and the [ID] is whatever the memory held. *)
Definition SceneManager_new (pShaderManager : option ShaderManager)
    (garbage : Z → Z) : SceneManager :=
  {| m_pShaderManager := pShaderManager;
     m_textureIDs :=
       (λ i, {| tex_ID := to_GLuint (garbage i); tex_tag := EmptyString |})
         <$> seqZ 0 MAX_TEXTURES;
     m_loadedTextures := 0;
     m_objectMaterials := [] |}.

Definition CreateGLTexture (env : Env) (filename : string) (tag : string)
  : M bool :=
  emit (stbi_set_flip_vertically_on_load true);;
  let! image := stbi_load_call env filename in
  match image with
  | Some img =>
      let! textureID := glGenTextures_1 env in
      emit (glBindTexture GL_TEXTURE_2D textureID);;
      emit (glTexParameteri GL_TEXTURE_2D GL_TEXTURE_WRAP_S GL_REPEAT);;
      emit (glTexParameteri GL_TEXTURE_2D GL_TEXTURE_WRAP_T GL_REPEAT);;
      emit (glTexParameteri GL_TEXTURE_2D GL_TEXTURE_MIN_FILTER GL_LINEAR);;
      emit (glTexParameteri GL_TEXTURE_2D GL_TEXTURE_MAG_FILTER GL_LINEAR);;
      (* the statements after the format test *)
      let registration : M bool :=
        emit (glGenerateMipmap GL_TEXTURE_2D);;
        emit (stbi_image_free img);;
        emit (glBindTexture GL_TEXTURE_2D 0);;
        let! sm := get_scene in
        update_slot (m_loadedTextures sm)
          (λ e, {| tex_ID := textureID; tex_tag := tex_tag e |});;
        update_slot (m_loadedTextures sm)
          (λ e, {| tex_ID := tex_ID e; tex_tag := tag |});;
        let! sm := get_scene in
        let! n := lift (int_incr (m_loadedTextures sm)) in
        put_scene {| m_pShaderManager := m_pShaderManager sm;
                     m_textureIDs := m_textureIDs sm;
                     m_loadedTextures := n;
                     m_objectMaterials := m_objectMaterials sm |};;
        ret_M true in
      if colorChannels img =? 3 then
        emit (glTexImage2D GL_TEXTURE_2D 0 GL_RGB8 (width img) (height img) 0
                GL_RGB GL_UNSIGNED_BYTE (pixels img));;
        registration
      else if colorChannels img =? 4 then
        emit (glTexImage2D GL_TEXTURE_2D 0 GL_RGBA8 (width img) (height img) 0
                GL_RGBA GL_UNSIGNED_BYTE (pixels img));;
        registration
      else
        ret_M false
  | None => ret_M false
  end.

Definition BindGLTextures : M unit :=
  λ w, for_int (Z.to_nat (m_loadedTextures (scene w)))
         (λ w, m_loadedTextures (scene w))
         (λ i,
            emit (glActiveTexture (GL_TEXTURE0 + i));;
            let! sm := get_scene in
            let! e := lift (array_get (m_textureIDs sm) i) in
            emit (glBindTexture GL_TEXTURE_2D (tex_ID e)))
         w.

Definition DestroyGLTextures (env : Env) : M unit :=
  λ w, for_int (Z.to_nat (m_loadedTextures (scene w)))
         (λ w, m_loadedTextures (scene w))
         (λ i,
            let! name := glGenTextures_1 env in
            update_slot i (λ e, {| tex_ID := name; tex_tag := tex_tag e |}))
         w.

(** ** Lookups: they read the object and change nothing *)

Definition FindTextureID (sm : SceneManager) (tag : string) : outcome Z :=
  '(textureID, index, bFound) ←
    while (Z.to_nat (m_loadedTextures sm))
      (λ '(textureID, index, bFound),
         (index <? m_loadedTextures sm) && negb bFound)
      (λ '(textureID, index, bFound),
         e ← array_get (m_textureIDs sm) index;
         if string_compare (tex_tag e) tag =? 0
         then mret (int_of_GLuint (tex_ID e), index, true)
         else index' ← int_incr index; mret (textureID, index', bFound))
      (-1, 0, false);
  mret textureID.

Definition FindTextureSlot (sm : SceneManager) (tag : string) : outcome Z :=
  '(textureSlot, index, bFound) ←
    while (Z.to_nat (m_loadedTextures sm))
      (λ '(textureSlot, index, bFound),
         (index <? m_loadedTextures sm) && negb bFound)
      (λ '(textureSlot, index, bFound),
         e ← array_get (m_textureIDs sm) index;
         if string_compare (tex_tag e) tag =? 0
         then mret (index, index, true)
         else index' ← int_incr index; mret (textureSlot, index', bFound))
      (-1, 0, false);
  mret textureSlot.

(** [material] is passed by reference: the second component of the result
    is its value on return. *)
Definition FindMaterial (sm : SceneManager) (tag : string)
    (material : OBJECT_MATERIAL) : outcome (bool * OBJECT_MATERIAL) :=
  if Z.of_nat (length (m_objectMaterials sm)) =? 0 then
    mret (false, material)
  else
    '(material', index, bFound) ←
      while (length (m_objectMaterials sm))
        (λ '(material, index, bFound),
           (index <? Z.of_nat (length (m_objectMaterials sm))) && negb bFound)
        (λ '(material, index, bFound),
           e ← array_get (m_objectMaterials sm) index;
           if string_compare (mat_tag e) tag =? 0
           then mret ({| diffuseColor := diffuseColor e;
                         specularColor := specularColor e;
                         shininess := shininess e;
                         mat_tag := mat_tag material |}, index, true)
           else index' ← int_incr index; mret (material, index', bFound))
        (material, 0, false);
    mret (true, material').

(** ** State pushes to the shader manager *)

(** [m_pShaderManager->setXValue(name, v)]; a null pointer is
    dereferenced when there is no shader manager. *)
Definition set_uniform (name : string) (v : uniform) : M unit :=
  let! sm := get_scene in
  match m_pShaderManager sm with
  | Some shader =>
      put_scene {| m_pShaderManager := Some (<[name := v]> shader);
                   m_textureIDs := m_textureIDs sm;
                   m_loadedTextures := m_loadedTextures sm;
                   m_objectMaterials := m_objectMaterials sm |}
  | None => lift Undefined
  end.

Definition setIntValue (name : string) (v : Z) := set_uniform name (IntValue v).
Definition setFloatValue (name : string) (v : float) :=
  set_uniform name (FloatValue v).
Definition setVec2Value (name : string) (v : vec2 float) :=
  set_uniform name (Vec2Value v).
Definition setVec3Value (name : string) (v : vec3 float) :=
  set_uniform name (Vec3Value v).
Definition setVec4Value (name : string) (v : vec4 float) :=
  set_uniform name (Vec4Value v).
Definition setMat4Value (name : string) (m : mat4) :=
  set_uniform name (Mat4Value m).
Definition setSampler2DValue (name : string) (v : Z) :=
  set_uniform name (Sampler2DValue v).

(** [if (NULL != m_pShaderManager) { body }] *)
Definition if_shader (body : M unit) : M unit :=
  let! sm := get_scene in
  match m_pShaderManager sm with
  | Some _ => body
  | None => ret_M tt
  end.

(** The matrix that [SetTransformations] stores in [modelView]. *)
Definition modelView (scaleXYZ : vec3 float)
    (XrotationDegrees YrotationDegrees ZrotationDegrees : float)
    (positionXYZ : vec3 float) : mat4 :=
  let scale := glm_scale scaleXYZ in
  let rotationX :=
    glm_rotate (glm_radians XrotationDegrees) (Vec3 float_1 float_0 float_0) in
  let rotationY :=
    glm_rotate (glm_radians YrotationDegrees) (Vec3 float_0 float_1 float_0) in
  let rotationZ :=
    glm_rotate (glm_radians ZrotationDegrees) (Vec3 float_0 float_0 float_1) in
  let translation := glm_translate positionXYZ in
  (translation * rotationZ * rotationY * rotationX * scale)%glm.

Definition SetTransformations (scaleXYZ : vec3 float)
    (XrotationDegrees YrotationDegrees ZrotationDegrees : float)
    (positionXYZ : vec3 float) : M unit :=
  if_shader
    (setMat4Value g_ModelName
       (modelView scaleXYZ XrotationDegrees YrotationDegrees ZrotationDegrees
          positionXYZ)).

Definition SetShaderColor
    (redColorValue greenColorValue blueColorValue alphaValue : float)
  : M unit :=
  let currentColor :=
    Vec4 redColorValue greenColorValue blueColorValue alphaValue in
  if_shader
    (setIntValue g_UseTextureName 0;;        (* false *)
     setVec4Value g_ColorValueName currentColor).

Definition SetShaderTexture (textureTag : string) : M unit :=
  if_shader
    (setIntValue g_UseTextureName 1;;        (* true *)
     let! sm := get_scene in
     let! textureID := lift (FindTextureSlot sm textureTag) in
     setSampler2DValue g_TextureValueName textureID).

Definition SetTextureUVScale (u v : float) : M unit :=
  if_shader (setVec2Value "UVscale" (Vec2 u v)).

(** [OBJECT_MATERIAL material;] is not initialised: [indeterminate] gives
    the values its colour and shininess members happen to hold; its tag is
    the empty string. *)
Definition SetShaderMaterial (indeterminate : OBJECT_MATERIAL)
    (materialTag : string) : M unit :=
  let! sm := get_scene in
  if Z.of_nat (length (m_objectMaterials sm)) >? 0 then
    let material := {| diffuseColor := diffuseColor indeterminate;
                       specularColor := specularColor indeterminate;
                       shininess := shininess indeterminate;
                       mat_tag := EmptyString |} in
    let! r := lift (FindMaterial sm materialTag material) in
    let bReturn := r.1 in
    let material := r.2 in
    if bReturn then
      setVec3Value "material.diffuseColor" (diffuseColor material);;
      setVec3Value "material.specularColor" (specularColor material);;
      setFloatValue "material.shininess" (shininess material)
    else ret_M tt
  else ret_M tt.

End SceneManager.

(** ** The term model of the GLM interface

    Every GLM operation is recorded as written: two matrices are equal here
    only when they were built by the same calls on the same arguments. *)

Inductive float_term : Type :=
| Lit (q : Z)                      (* a literal, in thousandths *)
| Radians (t : float_term).

Inductive mat4_term : Type :=
| Scale (v : vec3 float_term)
| Rotate (angle : float_term) (axis : vec3 float_term)
| Translate (v : vec3 float_term)
| Mul (a b : mat4_term).

#[global] Instance GLM_terms : GLM := {|
  float := float_term;
  mat4 := mat4_term;
  float_0 := Lit 0;
  float_1 := Lit 1000;
  glm_radians := Radians;
  glm_scale := Scale;
  glm_rotate := Rotate;
  glm_translate := Translate;
  mat4_mul := Mul;
|}.

(** ** Matrices acting on column vectors

    GLM's product of a matrix and a vector, [m * v] with [v] a column. *)

Class GLMVectors `{GLM} := {
  mat4_vec : mat4 → vec4 float → vec4 float;     (* operator*(mat4, vec4) *)
}.

(** The law that makes [*] on matrices the matrix product for column
    vectors: the product of two matrices acts as the right factor followed by
    the left one.  It holds of GLM in exact arithmetic. *)
Definition column_vectors `{GLMVectors} : Prop :=
  ∀ (a b : mat4) (v : vec4 float),
    mat4_vec (a * b)%glm v = mat4_vec a (mat4_vec b v).

(** ** Exact integer matrices

    An implementation of the interface in exact arithmetic: a matrix is its
    four columns, as in GLM; the entries are integers; angles are whole
    degrees, and the rotations are exact at the multiples of 90 about an axis
    of length 1. *)

Record imat4 : Type := IMat4 {
  col0 : vec4 Z; col1 : vec4 Z; col2 : vec4 Z; col3 : vec4 Z;
}.

Definition ivec_add (u v : vec4 Z) : vec4 Z :=
  let '(Vec4 ux uy uz uw) := u in
  let '(Vec4 vx vy vz vw) := v in
  Vec4 (ux + vx) (uy + vy) (uz + vz) (uw + vw).

Definition ivec_scale (v : vec4 Z) (k : Z) : vec4 Z :=
  let '(Vec4 x y z w) := v in Vec4 (x * k) (y * k) (z * k) (w * k).

(** [m * v]: the columns of [m] weighted by the components of [v]. *)
Definition imat4_vec (m : imat4) (v : vec4 Z) : vec4 Z :=
  let '(Vec4 x y z w) := v in
  ivec_add
    (ivec_add
       (ivec_add (ivec_scale (col0 m) x) (ivec_scale (col1 m) y))
       (ivec_scale (col2 m) z))
    (ivec_scale (col3 m) w).

(** [a * b]: column by column, [a] times the column of [b]. *)
Definition imat4_mul (a b : imat4) : imat4 :=
  IMat4 (imat4_vec a (col0 b)) (imat4_vec a (col1 b))
        (imat4_vec a (col2 b)) (imat4_vec a (col3 b)).

Definition iscale (v : vec3 Z) : imat4 :=
  let '(Vec3 x y z) := v in
  IMat4 (Vec4 x 0 0 0) (Vec4 0 y 0 0) (Vec4 0 0 z 0) (Vec4 0 0 0 1).

Definition itranslate (v : vec3 Z) : imat4 :=
  let '(Vec3 x y z) := v in
  IMat4 (Vec4 1 0 0 0) (Vec4 0 1 0 0) (Vec4 0 0 1 0) (Vec4 x y z 1).

Definition icos (degrees : Z) : Z :=
  match degrees `mod` 360 with 0 => 1 | 180 => -1 | _ => 0 end.

Definition isin (degrees : Z) : Z :=
  match degrees `mod` 360 with 90 => 1 | 270 => -1 | _ => 0 end.

Definition irotate (angle : Z) (axis : vec3 Z) : imat4 :=
  let c := icos angle in
  let s := isin angle in
  let '(Vec3 x y z) := axis in
  IMat4 (Vec4 (c + (1 - c) * x * x)
              ((1 - c) * x * y + s * z)
              ((1 - c) * x * z - s * y) 0)
        (Vec4 ((1 - c) * y * x - s * z)
              (c + (1 - c) * y * y)
              ((1 - c) * y * z + s * x) 0)
        (Vec4 ((1 - c) * z * x + s * y)
              ((1 - c) * z * y - s * x)
              (c + (1 - c) * z * z) 0)
        (Vec4 0 0 0 1).

Definition GLM_integers : GLM := {|
  float := Z;
  mat4 := imat4;
  float_0 := 0;
  float_1 := 1;
  glm_radians := λ degrees, degrees;
  glm_scale := iscale;
  glm_rotate := irotate;
  glm_translate := itranslate;
  mat4_mul := imat4_mul;
|}.

Definition GLMVectors_integers : @GLMVectors GLM_integers :=
  {| mat4_vec := imat4_vec : @mat4 GLM_integers → vec4 (@float GLM_integers)
                             → vec4 (@float GLM_integers) |}.

(** ** Vocabulary of the statements *)

Section Vocabulary.
Context `{GLM}.

(** The registry proper: the first [m_loadedTextures] entries of the array,
    in slot order. *)
Definition registered (sm : SceneManager) : list TEXTURE_INFO :=
  take (Z.to_nat (m_loadedTextures sm)) (m_textureIDs sm).

(** The first registered entry with the given tag, with its slot. *)
Definition first_texture (sm : SceneManager) (tag : string)
  : option (nat * TEXTURE_INFO) :=
  list_find (λ e, tex_tag e = tag) (registered sm).

Definition first_material (sm : SceneManager) (tag : string)
  : option (nat * OBJECT_MATERIAL) :=
  list_find (λ e, mat_tag e = tag) (m_objectMaterials sm).

(** What the constructor establishes and every method keeps. *)
Definition wf_scene (sm : SceneManager) : Prop :=
  0 ≤ m_loadedTextures sm ≤ MAX_TEXTURES ∧
  Z.of_nat (length (m_textureIDs sm)) = MAX_TEXTURES.

(** A file that [CreateGLTexture] accepts: it decodes, to 3 or 4 channels. *)
Definition loadable (env : Env) (filename : string) : bool :=
  match decode env filename with
  | Some img => (colorChannels img =? 3) || (colorChannels img =? 4)
  | None => false
  end.

(** A caller that loads a list of (file, tag) pairs in turn, as
    [PrepareScene] does with its seven textures; it collects the results. *)
Fixpoint load_all (env : Env) (loads : list (string * string))
  : M (list bool) :=
  match loads with
  | [] => ret_M []
  | (filename, tag) :: loads =>
      bind_M (CreateGLTexture env filename tag) (λ b,
      bind_M (load_all env loads) (λ bs, ret_M (b :: bs)))
  end.

(** The tags of the loads that succeed, in call order. *)
Definition loaded_tags (env : Env) (loads : list (string * string))
  : list string :=
  (filter (λ l, loadable env l.1 = true) loads).*2.

(** A newly constructed scene manager that has issued no call yet. *)
Definition new_world (pShaderManager : option ShaderManager)
    (garbage : Z → Z) : World :=
  {| scene := SceneManager_new pShaderManager garbage; calls := [] |}.

(** The calls by which texture [id] of slot [i] is bound to unit [i]. *)
Definition bind_calls (ids : list Z) : list event :=
  mjoin (imap (λ i id, [glActiveTexture (GL_TEXTURE0 + Z.of_nat i);
                        glBindTexture GL_TEXTURE_2D id]) ids).

(** The calls of a load that gets as far as the format test. *)
Definition decode_calls (filename : string) (id : Z) : list event :=
  [stbi_set_flip_vertically_on_load true; stbi_load filename;
   glGenTextures 1 id; glBindTexture GL_TEXTURE_2D id;
   glTexParameteri GL_TEXTURE_2D GL_TEXTURE_WRAP_S GL_REPEAT;
   glTexParameteri GL_TEXTURE_2D GL_TEXTURE_WRAP_T GL_REPEAT;
   glTexParameteri GL_TEXTURE_2D GL_TEXTURE_MIN_FILTER GL_LINEAR;
   glTexParameteri GL_TEXTURE_2D GL_TEXTURE_MAG_FILTER GL_LINEAR].

(** The name that [glGenTextures] writes during a load started in [w]. *)
Definition load_name (env : Env) (filename : string) (w : World) : Z :=
  to_GLuint (driver_name env
    (calls w ++ [stbi_set_flip_vertically_on_load true; stbi_load filename])).

(** The object after a successful load of [tag] with handle [id]. *)
Definition register (id : Z) (tag : string) (sm : SceneManager)
  : SceneManager :=
  {| m_pShaderManager := m_pShaderManager sm;
     m_textureIDs :=
       <[Z.to_nat (m_loadedTextures sm) := {| tex_ID := id; tex_tag := tag |}]>
         (m_textureIDs sm);
     m_loadedTextures := m_loadedTextures sm + 1;
     m_objectMaterials := m_objectMaterials sm |}.

End Vocabulary.

(** ** Concrete surroundings and objects, over the term model *)

(** A driver that hands out the names 1, 2, 3, ... *)
Fixpoint generated (history : list event) : Z :=
  match history with
  | [] => 0
  | glGenTextures _ _ :: history => 1 + generated history
  | _ :: history => generated history
  end.

Definition image_of (channels : Z) : Image :=
  {| width := 2; height := 2; colorChannels := channels;
     pixels := replicate (Z.to_nat (4 * channels)) "000"%byte |}.

(** One file is missing, one is grey-scale, one has an alpha channel; every
    other file is an RGB image. *)
Definition decode_demo (filename : string) : option Image :=
  if String.eqb filename "textures/missing.jpg" then None
  else if String.eqb filename "textures/gray.png" then Some (image_of 1)
  else if String.eqb filename "textures/alpha.png" then Some (image_of 4)
  else Some (image_of 3).

Definition env_demo : Env :=
  {| decode := decode_demo; driver_name := λ history, 1 + generated history |}.

(** A driver whose first name is the largest [GLuint]. *)
Definition env_last_name : Env :=
  {| decode := decode_demo;
     driver_name := λ history, GLuint_modulus - 1 - generated history |}.

(** The loads of [PrepareScene]. *)
Definition scene_textures : list (string * string) :=
  [("textures/wood.jpg", "wood"); ("textures/stone.jpg", "stone");
   ("textures/ceramic.jpg", "ceramic"); ("textures/table.jpg", "table");
   ("textures/bread1.jpg", "bread1"); ("textures/bread2.jpg", "bread2");
   ("textures/basket.jpg", "basket")].

Definition world_demo : World := new_world (Some ∅) (λ _, 0).

(** The world after one successful load of "wood" (handle 1, slot 0). *)
Definition world_wood : World :=
  match CreateGLTexture env_demo "textures/wood.jpg" "wood" world_demo with
  | Done (_, w) => w
  | _ => world_demo
  end.

(** The world after the loads of [PrepareScene], all of them accepted. *)
Definition world_scene : World :=
  match load_all env_demo scene_textures world_demo with
  | Done (_, w) => w
  | _ => world_demo
  end.

(** The world after one load of "wood" under [env_last_name]. *)
Definition world_last_name : World :=
  match CreateGLTexture env_last_name "textures/wood.jpg" "wood" world_demo with
  | Done (_, w) => w
  | _ => world_demo
  end.

Definition clay : OBJECT_MATERIAL :=
  {| diffuseColor := Vec3 (Lit 600) (Lit 300) (Lit 200);
     specularColor := Vec3 (Lit 100) (Lit 100) (Lit 100);
     shininess := Lit 8000;
     mat_tag := "clay" |}.

Definition stale : OBJECT_MATERIAL :=
  {| diffuseColor := Vec3 (Lit 11) (Lit 12) (Lit 13);
     specularColor := Vec3 (Lit 21) (Lit 22) (Lit 23);
     shininess := Lit 31;
     mat_tag := EmptyString |}.

(** A scene manager with the single material "clay". *)
Definition world_clay : World :=
  {| scene := {| m_pShaderManager := Some ∅;
                 m_textureIDs := m_textureIDs (scene world_demo);
                 m_loadedTextures := 0;
                 m_objectMaterials := [clay] |};
     calls := [] |}.

(** ** Further vocabulary and objects *)

(** The calls of a successful load after the format test: the upload in
    the format of the channel count, the mipmaps, the release of the decoded
    image and the unbinding. *)
Definition upload_calls (img : Image) : list event :=
  [glTexImage2D GL_TEXTURE_2D 0
     (if colorChannels img =? 3 then GL_RGB8 else GL_RGBA8)
     (width img) (height img) 0
     (if colorChannels img =? 3 then GL_RGB else GL_RGBA)
     GL_UNSIGNED_BYTE (pixels img);
   glGenerateMipmap GL_TEXTURE_2D;
   stbi_image_free img;
   glBindTexture GL_TEXTURE_2D 0].

Section FurtherVocabulary.
Context `{GLM}.

(** The answer of [FindTextureSlot], read off the registry: the slot of
    the first entry with the tag, or -1. *)
Definition slot_of (sm : SceneManager) (tag : string) : Z :=
  match first_texture sm tag with
  | Some (k, _) => Z.of_nat k
  | None => -1
  end.

(** The world with the uniforms of its shader manager replaced, and
    nothing else changed. *)
Definition set_shader (shader : ShaderManager) (w : World) : World :=
  {| scene := {| m_pShaderManager := Some shader;
                 m_textureIDs := m_textureIDs (scene w);
                 m_loadedTextures := m_loadedTextures (scene w);
                 m_objectMaterials := m_objectMaterials (scene w) |};
     calls := calls w |}.

End FurtherVocabulary.

(** The world after "wood" is loaded a second time, from another file. *)
Definition world_wood_twice : World :=
  match CreateGLTexture env_demo "textures/alpha.png" "wood" world_wood with
  | Done (_, w) => w
  | _ => world_wood
  end.

(** The world after "wood" and then "stone" are loaded. *)
Definition world_wood_stone : World :=
  match CreateGLTexture env_demo "textures/stone.jpg" "stone" world_wood with
  | Done (_, w) => w
  | _ => world_wood
  end.

(** The world after the grey-scale file is tried. *)
Definition world_gray_tried : World :=
  match CreateGLTexture env_demo "textures/gray.png" "gray" world_wood with
  | Done (_, w) => w
  | _ => world_wood
  end.

(** A scene manager with "clay" registered twice, the second time with
    another shininess, and the same without a shader manager. *)
Definition clay_dull : OBJECT_MATERIAL :=
  {| diffuseColor := Vec3 (Lit 600) (Lit 300) (Lit 200);
     specularColor := Vec3 (Lit 0) (Lit 0) (Lit 0);
     shininess := Lit 1000;
     mat_tag := "clay" |}.

Definition world_two_clays : World :=
  {| scene := {| m_pShaderManager := Some ∅;
                 m_textureIDs := m_textureIDs (scene world_demo);
                 m_loadedTextures := 0;
                 m_objectMaterials := [stale; clay; clay_dull] |};
     calls := [] |}.

Definition world_clay_no_shader : World :=
  {| scene := {| m_pShaderManager := None;
                 m_textureIDs := m_textureIDs (scene world_demo);
                 m_loadedTextures := 0;
                 m_objectMaterials := [clay] |};
     calls := [] |}.

(** ** The scene director: [PrepareScene] and [RenderScene] *)

From Stdlib Require Import QArith.
From Stdlib Require DecimalString.
Local Open Scope Z_scope.

(** Floating-point literals other than [0.0f] and [1.0f]: [float_lit q] is
    the [float] that the literal with the decimal value [q] denotes. *)
Class FloatLiterals `{GLM} := {
  float_lit : Q → float;
}.

(** [std::to_string] on an [int]. *)
Definition to_string (i : Z) : string :=
  DecimalString.NilZero.string_of_int (Z.to_int i).

Section SceneDirector.
Context `{FloatLiterals}.

(** A call on the [ShapeMeshes] object [m_basicMeshes] (a collaborator that
    is not part of the sources).  The arguments are the ones written at the
    call site; what an omitted argument defaults to is declared in the
    absent [ShapeMeshes.h]. *)
Inductive mesh_call : Type :=
| LoadPlaneMesh
| LoadCylinderMesh
| LoadConeMesh
| LoadTorusMesh
| LoadBoxMesh
| LoadTaperedCylinderMesh
| LoadExtraTorusMesh1 (thickness : float)
| LoadExtraTorusMesh2 (thickness : float)
| DrawPlaneMesh
| DrawCylinderMesh (args : list bool)
| DrawConeMesh
| DrawTorusMesh
| DrawExtraTorusMesh1
| DrawExtraTorusMesh2
| DrawTaperedCylinderMesh (args : list bool)
| DrawBoxMesh.

(** Modelled from the spec: "every draw call uses whatever was last
    pushed".  The mesh object is the chronological list of the calls made
    on it, each with the uniforms that were current when it was made
    ([None] when there is no shader manager). *)
Record Stage := {
  world : World;
  m_basicMeshes : list (mesh_call * option ShaderManager);
}.

Definition MS (A : Type) : Type := Stage → outcome (A * Stage).

Definition ret_MS {A} (a : A) : MS A := λ st, Done (a, st).
Definition bind_MS {A B} (m : MS A) (k : A → MS B) : MS B :=
  λ st, '(a, st') ← m st; k a st'.

(** A method of the object proper, run on the world of the stage. *)
Definition on_world {A} (m : M A) : MS A :=
  λ st, '(a, w') ← m (world st);
        mret (a, {| world := w'; m_basicMeshes := m_basicMeshes st |}).

(** [m_basicMeshes->call] *)
Definition mesh (call : mesh_call) : MS unit :=
  λ st, Done (tt, {| world := world st;
                     m_basicMeshes :=
                       m_basicMeshes st
                       ++ [(call, m_pShaderManager (scene (world st)))] |}).

Notation "m ';;' k" := (bind_MS m (λ _, k))
  (at level 100, k at level 200, right associativity).

(** [for (int i = start; i < bound; i++) body] *)
Definition for_int_from (fuel : nat) (start : Z) (bound : World → Z)
    (body : Z → M unit) : M unit :=
  λ w, '(_, w') ← while fuel
         (λ '(i, w), i <? bound w)
         (λ '(i, w), '(_, w') ← body i w; i' ← int_incr i; mret (i', w'))
         (start, w);
       mret (tt, w').

Definition PrepareScene (env : Env) : MS unit :=
  mesh LoadPlaneMesh;;
  mesh LoadCylinderMesh;;
  mesh LoadConeMesh;;
  mesh LoadTorusMesh;;
  mesh LoadBoxMesh;;
  mesh LoadTaperedCylinderMesh;;
  mesh (LoadExtraTorusMesh1 (float_lit 0.12));;
  mesh (LoadExtraTorusMesh2 (float_lit 0.22));;
  on_world (CreateGLTexture env "textures/wood.jpg" "wood");;
  on_world (CreateGLTexture env "textures/stone.jpg" "stone");;
  on_world (CreateGLTexture env "textures/ceramic.jpg" "ceramic");;
  on_world (CreateGLTexture env "textures/table.jpg" "table");;
  on_world (CreateGLTexture env "textures/bread1.jpg" "bread1");;
  on_world (CreateGLTexture env "textures/bread2.jpg" "bread2");;
  on_world (CreateGLTexture env "textures/basket.jpg" "basket");;
  on_world BindGLTextures.

Definition RenderScene : MS unit :=
  (* the lights *)
  on_world
    (if_shader
        (bind_M (setIntValue g_UseLightingName 1) (λ _,
         bind_M (setVec3Value "directionalLight.direction"
                   (Vec3 (float_lit (-0.35)) (float_lit (-1.0)) (float_lit (-0.25)))) (λ _,
         bind_M (setVec3Value "directionalLight.ambient"
                   (Vec3 (float_lit 0.20) (float_lit 0.18) (float_lit 0.14))) (λ _,
         bind_M (setVec3Value "directionalLight.diffuse"
                   (Vec3 (float_lit 0.90) (float_lit 0.78) (float_lit 0.62))) (λ _,
         bind_M (setVec3Value "directionalLight.specular"
                   (Vec3 (float_lit 0.90) (float_lit 0.90) (float_lit 0.90))) (λ _,
         bind_M (setIntValue "directionalLight.bActive" 1) (λ _,
         bind_M (for_int_from 4 1 (λ _, 5) (λ i,
                   let activeName :=
                     "pointLights[" +:+ to_string i +:+ "].bActive" in
                   setIntValue activeName 0)) (λ _,
         bind_M (setVec3Value "pointLights[0].position"
                   (Vec3 (float_lit 4.5) (float_lit 6.5) (float_lit 4.5))) (λ _,
         bind_M (setVec3Value "pointLights[0].ambient"
                   (Vec3 (float_lit 0.10) (float_lit 0.08) (float_lit 0.06))) (λ _,
         bind_M (setVec3Value "pointLights[0].diffuse"
                   (Vec3 (float_lit 0.85) (float_lit 0.55) (float_lit 0.30))) (λ _,
         bind_M (setVec3Value "pointLights[0].specular"
                   (Vec3 (float_lit 0.60) (float_lit 0.55) (float_lit 0.50))) (λ _,
         bind_M (setIntValue "pointLights[0].bActive" 1) (λ _,
         setIntValue "spotLight.bActive" 0))))))))))))));;
  (* table plane *)
  let scaleXYZ := Vec3 (float_lit 20.0) float_1 (float_lit 15.0) in
  let XrotationDegrees := float_0 in
  let YrotationDegrees := float_0 in
  let ZrotationDegrees := float_0 in
  let positionXYZ := Vec3 float_0 float_0 float_0 in
  on_world (SetTransformations scaleXYZ XrotationDegrees YrotationDegrees
              ZrotationDegrees positionXYZ);;
  on_world
    (if_shader
       (bind_M (setIntValue g_UseLightingName 1) (λ _,
        bind_M (setVec3Value "material.diffuseColor"
                  (Vec3 float_1 float_1 float_1)) (λ _,
        bind_M (setVec3Value "material.specularColor"
                  (Vec3 (float_lit 0.80) (float_lit 0.80) (float_lit 0.80))) (λ _,
        setFloatValue "material.shininess" (float_lit 64.0))))));;
  on_world (SetShaderTexture "table");;
  on_world (SetTextureUVScale (float_lit 4.0) (float_lit 4.0));;
  mesh DrawPlaneMesh;;
  (* jug main body cylinder *)
  on_world
    (if_shader
       (bind_M (setIntValue g_UseLightingName 1) (λ _,
        bind_M (setVec3Value "material.diffuseColor"
                  (Vec3 float_1 float_1 float_1)) (λ _,
        bind_M (setVec3Value "material.specularColor"
                  (Vec3 (float_lit 0.25) (float_lit 0.25) (float_lit 0.25))) (λ _,
        setFloatValue "material.shininess" (float_lit 16.0))))));;
  let scaleXYZ := Vec3 (float_lit 1.7) (float_lit 4.0) (float_lit 1.7) in
  let XrotationDegrees := float_0 in
  let YrotationDegrees := float_0 in
  let ZrotationDegrees := float_0 in
  let positionXYZ := Vec3 float_0 float_0 float_0 in
  on_world (SetTransformations scaleXYZ XrotationDegrees YrotationDegrees
              ZrotationDegrees positionXYZ);;
  on_world (SetShaderTexture "stone");;
  on_world (SetTextureUVScale float_1 float_1);;
  mesh (DrawCylinderMesh []);;
  (* jug upper main body cylinder *)
  let scaleXYZ := Vec3 float_1 (float_lit 2.0) (float_lit 1.7) in
  let XrotationDegrees := float_0 in
  let YrotationDegrees := float_0 in
  let ZrotationDegrees := float_0 in
  let positionXYZ := Vec3 float_0 (float_lit 3.5) float_0 in
  on_world (SetTransformations scaleXYZ XrotationDegrees YrotationDegrees
              ZrotationDegrees positionXYZ);;
  on_world (SetShaderTexture "stone");;
  on_world (SetTextureUVScale float_1 float_1);;
  mesh (DrawCylinderMesh []);;
  (* jug lip cone *)
  let scaleXYZ := Vec3 (float_lit 1.4) (float_lit 2.0) (float_lit 1.4) in
  let XrotationDegrees := float_lit 180.0 in
  let YrotationDegrees := float_0 in
  let ZrotationDegrees := float_0 in
  let positionXYZ := Vec3 float_0 (float_lit 6.0) float_0 in
  on_world (SetTransformations scaleXYZ XrotationDegrees YrotationDegrees
              ZrotationDegrees positionXYZ);;
  on_world (SetShaderTexture "stone");;
  on_world (SetTextureUVScale float_1 (float_lit 0.8));;
  mesh DrawConeMesh;;
  (* jug handle torus *)
  let scaleXYZ := Vec3 (float_lit 0.9) (float_lit 1.6) (float_lit 0.5) in
  let XrotationDegrees := float_0 in
  let YrotationDegrees := float_0 in
  let ZrotationDegrees := float_lit 90.0 in
  let positionXYZ := Vec3 (float_lit 1.8) (float_lit 4.0) float_0 in
  on_world (SetTransformations scaleXYZ XrotationDegrees YrotationDegrees
              ZrotationDegrees positionXYZ);;
  on_world (SetShaderTexture "stone");;
  on_world (SetTextureUVScale (float_lit 1.2) (float_lit 1.2));;
  mesh DrawTorusMesh;;
  (* plate base *)
  let scaleXYZ := Vec3 (float_lit 3.0) (float_lit 0.10) (float_lit 3.0) in
  let XrotationDegrees := float_0 in
  let YrotationDegrees := float_0 in
  let ZrotationDegrees := float_0 in
  let positionXYZ := Vec3 (float_lit 2.2) (float_lit 0.16) (float_lit 5.2) in
  on_world (SetTransformations scaleXYZ XrotationDegrees YrotationDegrees
              ZrotationDegrees positionXYZ);;
  on_world (SetShaderTexture "wood");;
  on_world (SetTextureUVScale float_1 float_1);;
  mesh (DrawCylinderMesh [true; true; true]);;
  (* plate rim *)
  let scaleXYZ := Vec3 (float_lit 3.05) (float_lit 3.0) (float_lit 3.0) in
  let XrotationDegrees := float_lit 90.0 in
  let YrotationDegrees := float_0 in
  let ZrotationDegrees := float_0 in
  let positionXYZ := Vec3 (float_lit 2.2) (float_lit 0.16) (float_lit 5.2) in
  on_world (SetTransformations scaleXYZ XrotationDegrees YrotationDegrees
              ZrotationDegrees positionXYZ);;
  on_world (SetShaderTexture "wood");;
  on_world (SetTextureUVScale float_1 float_1);;
  mesh DrawExtraTorusMesh1;;
  (* cup body *)
  let scaleXYZ := Vec3 (float_lit 1.15) (float_lit 1.05) (float_lit 1.15) in
  let XrotationDegrees := float_0 in
  let YrotationDegrees := float_0 in
  let ZrotationDegrees := float_lit 180.0 in
  let positionXYZ := Vec3 (float_lit 4.2) (float_lit 1.10) (float_lit (-2.2)) in
  on_world (SetTransformations scaleXYZ XrotationDegrees YrotationDegrees
              ZrotationDegrees positionXYZ);;
  on_world (SetShaderTexture "ceramic");;
  on_world (SetTextureUVScale (float_lit 2.0) (float_lit 2.0));;
  mesh (DrawTaperedCylinderMesh [true; false; true]);;
  (* cup rim *)
  let scaleXYZ := Vec3 (float_lit 0.96) (float_lit 0.96) (float_lit 0.96) in
  let XrotationDegrees := float_lit 90.0 in
  let YrotationDegrees := float_lit (-50.0) in
  let ZrotationDegrees := float_0 in
  let positionXYZ := Vec3 (float_lit 4.2) (float_lit 0.95) (float_lit (-2.2)) in
  on_world (SetTransformations scaleXYZ XrotationDegrees YrotationDegrees
              ZrotationDegrees positionXYZ);;
  on_world (SetShaderTexture "ceramic");;
  on_world (SetTextureUVScale (float_lit 2.0) (float_lit 2.0));;
  mesh DrawExtraTorusMesh2;;
  (* basket body *)
  let scaleXYZ := Vec3 (float_lit 2.2) (float_lit 1.05) (float_lit 2.2) in
  let XrotationDegrees := float_0 in
  let YrotationDegrees := float_0 in
  let ZrotationDegrees := float_0 in
  let positionXYZ := Vec3 (float_lit (-4.2)) (float_lit 0.10) (float_lit 1.2) in
  on_world (SetTransformations scaleXYZ XrotationDegrees YrotationDegrees
              ZrotationDegrees positionXYZ);;
  on_world (SetShaderTexture "basket");;
  on_world (SetTextureUVScale (float_lit 2.0) float_1);;
  mesh (DrawCylinderMesh [false; true; true]);;
  (* basket rim *)
  let scaleXYZ := Vec3 (float_lit 1.8) (float_lit 1.8) (float_lit 1.60) in
  let XrotationDegrees := float_lit 90.0 in
  let YrotationDegrees := float_lit (-50.0) in
  let ZrotationDegrees := float_0 in
  let positionXYZ := Vec3 (float_lit (-4.2)) (float_lit 1.15) (float_lit 1.2) in
  on_world (SetTransformations scaleXYZ XrotationDegrees YrotationDegrees
              ZrotationDegrees positionXYZ);;
  on_world (SetShaderTexture "basket");;
  on_world (SetTextureUVScale (float_lit 2.0) float_1);;
  mesh DrawExtraTorusMesh2;;
  (* bread piece 1 *)
  let scaleXYZ := Vec3 (float_lit 4.5) (float_lit 0.40) (float_lit 0.60) in
  let XrotationDegrees := float_lit 180.0 in
  let YrotationDegrees := float_lit (-25.0) in
  let ZrotationDegrees := float_lit 25.0 in
  let positionXYZ := Vec3 (float_lit (-4.05)) (float_lit 1.25) (float_lit 1.10) in
  on_world (SetTransformations scaleXYZ XrotationDegrees YrotationDegrees
              ZrotationDegrees positionXYZ);;
  on_world (SetShaderTexture "bread1");;
  on_world (SetTextureUVScale float_1 float_1);;
  mesh DrawBoxMesh;;
  (* bread piece 2 *)
  let scaleXYZ := Vec3 (float_lit 4.5) (float_lit 0.55) (float_lit 0.16) in
  let XrotationDegrees := float_lit (-62.0) in
  let YrotationDegrees := float_lit 20.0 in
  let ZrotationDegrees := float_lit 25.0 in
  let positionXYZ := Vec3 (float_lit (-4.30)) (float_lit 1.18) (float_lit 1.30) in
  on_world (SetTransformations scaleXYZ XrotationDegrees YrotationDegrees
              ZrotationDegrees positionXYZ);;
  on_world (SetShaderTexture "bread2");;
  on_world (SetTextureUVScale float_1 float_1);;
  mesh DrawBoxMesh.

End SceneDirector.

(** ** Vocabulary for frames *)

Section Frames.
Context `{FloatLiterals}.

(** A list of pushes applied to the uniforms, the oldest first. *)
Definition push_all (pushes : list (string * uniform))
    (shader : ShaderManager) : ShaderManager :=
  foldl (λ m p, <[p.1 := p.2]> m) shader pushes.

(** The value that the last push of [name] in the list carries. *)
Fixpoint last_push (name : string) (pushes : list (string * uniform))
  : option uniform :=
  match pushes with
  | [] => None
  | (n, v) :: pushes =>
      match last_push name pushes with
      | Some v' => Some v'
      | None => if String.eqb n name then Some v else None
      end
  end.

(** Every name of the first list occurs in the second. *)
Definition names_within (names names' : list string) : bool :=
  forallb (λ n, existsb (String.eqb n) names') names.

(** The stage [st], whose shader manager held [shader], after the pushes
    [pushes] and the mesh calls [draws], each made when a prefix of the
    pushes had been applied. *)
Definition staged (shader : ShaderManager) (st : Stage)
    (pushes : list (string * uniform))
    (draws : list (mesh_call * list (string * uniform))) : Stage :=
  {| world := set_shader (push_all pushes shader) (world st);
     m_basicMeshes :=
       m_basicMeshes st
       ++ ((λ d, (d.1, Some (push_all d.2 shader))) <$> draws) |}.

(** The objects of [RenderScene] in drawing order: the draw call of each
    and the tag of the texture selected for it. *)
Definition scene_objects : list (mesh_call * string) :=
  [(DrawPlaneMesh, "table");
   (DrawCylinderMesh [], "stone");
   (DrawCylinderMesh [], "stone");
   (DrawConeMesh, "stone");
   (DrawTorusMesh, "stone");
   (DrawCylinderMesh [true; true; true], "wood");
   (DrawExtraTorusMesh1, "wood");
   (DrawTaperedCylinderMesh [true; false; true], "ceramic");
   (DrawExtraTorusMesh2, "ceramic");
   (DrawCylinderMesh [false; true; true], "basket");
   (DrawExtraTorusMesh2, "basket");
   (DrawBoxMesh, "bread1");
   (DrawBoxMesh, "bread2")].

(** [m], run on the world [w0] with any uniforms, completes and has
    applied the pushes [new]. *)
Definition pushes_on (w0 : World) (m : M unit)
    (new : list (string * uniform)) : Prop :=
  ∀ shader, m (set_shader shader w0)
            = Done (tt, set_shader (push_all new shader) w0).

(** [m] takes the stage after ([pushes], [draws]) to the stage after
    ([pushes'], [draws']). *)
Definition runs_on (shader : ShaderManager) (st : Stage) (m : MS unit)
    (pushes : list (string * uniform))
    (draws : list (mesh_call * list (string * uniform)))
    (pushes' : list (string * uniform))
    (draws' : list (mesh_call * list (string * uniform))) : Prop :=
  m (staged shader st pushes draws) = Done (tt, staged shader st pushes' draws').

(** A new scene manager with its mesh object, before any call. *)
Definition new_stage (pShaderManager : option ShaderManager)
    (garbage : Z → Z) : Stage :=
  {| world := new_world pShaderManager garbage; m_basicMeshes := [] |}.

End Frames.

#[global] Instance FloatLiterals_terms : FloatLiterals := {|
  float_lit := λ q, Lit (Qnum q * 1000 / Z.pos (Qden q));
|}.

(** The stage of a scene manager that has loaded the seven textures. *)
Definition stage_scene : Stage :=
  {| world := world_scene; m_basicMeshes := [] |}.

(** The same stage after one call of [RenderScene]. *)
Definition stage_rendered : Stage :=
  match RenderScene stage_scene with
  | Done (_, st) => st
  | _ => stage_scene
  end.

Section DirectorVocabulary.
Context `{FloatLiterals}.

(** The mesh calls of [PrepareScene], in order. *)
Definition mesh_loads : list mesh_call :=
  [LoadPlaneMesh; LoadCylinderMesh; LoadConeMesh; LoadTorusMesh; LoadBoxMesh;
   LoadTaperedCylinderMesh; LoadExtraTorusMesh1 (float_lit 0.12);
   LoadExtraTorusMesh2 (float_lit 0.22)].

End DirectorVocabulary.

(** The stage of a new scene manager after one and after two runs of
    [PrepareScene], every file being accepted. *)
Definition stage_prepared : Stage :=
  match PrepareScene env_demo (new_stage (Some ∅) (λ _, 0)) with
  | Done (_, st) => st
  | _ => new_stage (Some ∅) (λ _, 0)
  end.

Definition stage_prepared_twice : Stage :=
  match PrepareScene env_demo stage_prepared with
  | Done (_, st) => st
  | _ => stage_prepared
  end.

(** ** Clients: sequences of method calls *)

Section Clients.
Context `{FloatLiterals}.

(** A call of a method that can change the object.  (The three lookups
    change nothing and are left out.) *)
Inductive method : Type :=
| CallCreateGLTexture (filename tag : string)
| CallBindGLTextures
| CallDestroyGLTextures
| CallSetTransformations (scaleXYZ : vec3 float)
    (XrotationDegrees YrotationDegrees ZrotationDegrees : float)
    (positionXYZ : vec3 float)
| CallSetShaderColor (r g b a : float)
| CallSetShaderTexture (textureTag : string)
| CallSetTextureUVScale (u v : float)
| CallSetShaderMaterial (indeterminate : OBJECT_MATERIAL) (materialTag : string)
| CallPrepareScene
| CallRenderScene.

Definition call (env : Env) (c : method) : MS unit :=
  match c with
  | CallCreateGLTexture filename tag =>
      on_world (bind_M (CreateGLTexture env filename tag) (λ _, ret_M tt))
  | CallBindGLTextures => on_world BindGLTextures
  | CallDestroyGLTextures => on_world (DestroyGLTextures env)
  | CallSetTransformations s x y z p => on_world (SetTransformations s x y z p)
  | CallSetShaderColor r g b a => on_world (SetShaderColor r g b a)
  | CallSetShaderTexture textureTag => on_world (SetShaderTexture textureTag)
  | CallSetTextureUVScale u v => on_world (SetTextureUVScale u v)
  | CallSetShaderMaterial indeterminate materialTag =>
      on_world (SetShaderMaterial indeterminate materialTag)
  | CallPrepareScene => PrepareScene env
  | CallRenderScene => RenderScene
  end.

Fixpoint call_all (env : Env) (cs : list method) : MS unit :=
  match cs with
  | [] => ret_MS tt
  | c :: cs => bind_MS (call env c) (λ _, call_all env cs)
  end.

(** What every method keeps between the stage before and the stage after:
    well-formedness, the materials, whether there is a shader manager, and
    the registry up to new entries at its end. *)
Definition kept (st st' : Stage) : Prop :=
  wf_scene (scene (world st')) ∧
  m_objectMaterials (scene (world st')) = m_objectMaterials (scene (world st)) ∧
  (m_pShaderManager (scene (world st')) = None
   ↔ m_pShaderManager (scene (world st)) = None) ∧
  (tex_tag <$> registered (scene (world st)))
    `prefix_of` (tex_tag <$> registered (scene (world st'))).

(** The number of registry slots that a call takes: one for each image that
    [CreateGLTexture] accepts. *)
Definition loads_of (env : Env) (c : method) : Z :=
  match c with
  | CallCreateGLTexture filename _ => if loadable env filename then 1 else 0
  | CallPrepareScene => Z.of_nat (length (loaded_tags env scene_textures))
  | _ => 0
  end.

Definition loads_of_all (env : Env) (cs : list method) : Z :=
  foldr (λ c n, loads_of env c + n) 0 cs.

End Clients.

(** A client that prepares the scene, tears the textures down, loads the
    wood image once more and binds. *)
Definition client_demo : list method :=
  [CallPrepareScene; CallDestroyGLTextures;
   CallCreateGLTexture "textures/wood.jpg" "wood"; CallBindGLTextures].

Definition stage_client : Stage :=
  match call_all env_demo client_demo (new_stage (Some ∅) (λ _, 0)) with
  | Done (_, st) => st
  | _ => new_stage (Some ∅) (λ _, 0)
  end.

(** A client that prepares the scene three times. *)
Definition client_greedy : list method :=
  [CallPrepareScene; CallPrepareScene; CallPrepareScene].

(** * Properties *)

(** ** Loops *)

(** A loop whose body keeps an invariant and lowers a measure that the fuel
    covers runs to completion. *)
Lemma while_rule {S : Type} (I : S → Prop) (measure : S → nat)
    (cond : S → bool) (body : S → outcome S) (fuel : nat) (s : S) :
  I s →
  (measure s ≤ fuel)%nat →
  (∀ s, I s → cond s = true →
        ∃ s', body s = Done s' ∧ I s' ∧ (measure s' < measure s)%nat) →
  ∃ s', while fuel cond body s = Done s' ∧ I s' ∧ cond s' = false.
Proof.
  intros HI Hfuel Hbody. revert s HI Hfuel.
  induction fuel as [|fuel IH]; intros s HI Hfuel; simpl.
  - destruct (cond s) eqn:Hc; [|by eauto].
    destruct (Hbody s HI Hc) as (s' & _ & _ & Hlt). lia.
  - destruct (cond s) eqn:Hc; [|by eauto].
    destruct (Hbody s HI Hc) as (s' & -> & HI' & Hlt). simpl.
    apply IH; [done | lia].
Qed.

Lemma array_get_Some {A} (a : list A) (i : Z) (x : A) :
  0 ≤ i → a !! Z.to_nat i = Some x → array_get a i = Done x.
Proof.
  intros Hi Hx. unfold array_get.
  destruct (Z.leb_spec 0 i); [by rewrite Hx | lia].
Qed.

Lemma array_get_cases {A} (a : list A) (i : Z) :
  (∃ x, array_get a i = Done x) ∨ array_get a i = Undefined.
Proof.
  unfold array_get. destruct (0 <=? i); [|by right].
  destruct (a !! Z.to_nat i); [left; eauto | by right].
Qed.

Lemma int_incr_Done (n : Z) : n < INT_MAX → int_incr n = Done (n + 1).
Proof. intros Hn. unfold int_incr. by destruct (Z.ltb_spec n INT_MAX); [|lia]. Qed.

Lemma string_compare_0 (s t : string) : (string_compare s t =? 0) = true ↔ s = t.
Proof.
  unfold string_compare. split.
  - intros Hc. apply String.compare_eq_iff.
    by destruct (String.compare s t).
  - intros ->. pose proof (String.compare_antisym t t) as Ha.
    by destruct (String.compare t t).
Qed.

(** The first-match scan shared by the three lookups: [pick] is what the
    loop stores on a match. *)
Lemma scan_first_match {A R : Type} (arr : list A) (n : Z) (test : A → bool)
    (pick : R → Z → A → R) (r0 : R) (fuel : nat) :
  0 ≤ n ≤ Z.of_nat (length arr) → n ≤ INT_MAX → (Z.to_nat n ≤ fuel)%nat →
  while fuel
    (λ '(r, index, bFound), (index <? n) && negb bFound)
    (λ '(r, index, bFound),
       e ← array_get arr index;
       if test e then mret (pick r index e, index, true)
       else index' ← int_incr index; mret (r, index', bFound))
    (r0, 0, false)
  = Done match list_find (λ e, test e = true) (take (Z.to_nat n) arr) with
         | Some (k, e) => (pick r0 (Z.of_nat k) e, Z.of_nat k, true)
         | None => (r0, n, false)
         end.
Proof.
  intros Hn Hmax Hfuel.
  set (l := take (Z.to_nat n) arr).
  set (I := λ s : R * Z * bool,
    let '(r, index, bFound) := s in
    0 ≤ index ≤ n ∧
    (∀ j e, (j < Z.to_nat index)%nat → l !! j = Some e → test e ≠ true) ∧
    if bFound
    then ∃ e, l !! Z.to_nat index = Some e ∧ test e = true ∧
              r = pick r0 index e
    else r = r0).
  match goal with
  | |- while ?f ?c ?b ?s = _ =>
      destruct (while_rule I
        (λ '(_, index, bFound),
           if bFound : bool then 0%nat else Z.to_nat (n - index)) c b f s)
        as ([[r index] bFound] & -> & (Hidx & Hbefore & Hend) & Hcond)
  end.
  - split; [lia|]. split; [|done]. intros j e Hj. simpl in Hj. lia.
  - simpl. lia.
  - intros [[r index] bFound] (Hidx & Hbefore & Hend) Hcond.
    apply andb_true_iff in Hcond as [Hlt Hnf].
    apply Z.ltb_lt in Hlt. destruct bFound; [done|]. subst r.
    destruct (lookup_lt_is_Some_2 l (Z.to_nat index)) as [e He].
    { unfold l. rewrite length_take. lia. }
    assert (arr !! Z.to_nat index = Some e) as Harr.
    { unfold l in He. by apply lookup_take_Some in He as [? _]. }
    rewrite (array_get_Some _ _ e) by (done || lia). simpl.
    destruct (test e) eqn:Ht.
    + eexists. split; [done|]. split; [|lia].
      split; [lia|]. split; [done|]. eauto.
    + rewrite int_incr_Done by lia. simpl.
      eexists. split; [done|]. split; [|lia].
      split; [lia|]. split; [|done].
      intros j e' Hj Hl. destruct (decide (j = Z.to_nat index)) as [->|].
      * rewrite He in Hl. injection Hl as <-. congruence.
      * apply (Hbefore j e'); [lia | done].
  - f_equal. destruct bFound.
    + destruct Hend as (e & He & Ht & ->).
      assert (list_find (λ e, test e = true) l = Some (Z.to_nat index, e)) as ->.
      { apply list_find_Some. split_and!; [done..|].
        intros j y Hy Hj. by apply (Hbefore j). }
      by rewrite Z2Nat.id by lia.
    + subst r. simpl in Hcond. rewrite andb_true_r in Hcond.
      apply Z.ltb_ge in Hcond. assert (index = n) as -> by lia.
      assert (list_find (λ e, test e = true) l = None) as ->; [|done].
      apply list_find_None, Forall_forall. intros e He.
      apply list_elem_of_lookup in He as [j Hj].
      apply (Hbefore j); [|done].
      apply lookup_lt_Some in Hj. unfold l in Hj. rewrite length_take in Hj. lia.
Qed.

(** ** The three lookups *)

Section Lookups.
Context `{GLM}.
Implicit Types (sm : SceneManager) (tag : string).

Lemma wf_scan_bounds sm :
  wf_scene sm →
  0 ≤ m_loadedTextures sm ≤ Z.of_nat (length (m_textureIDs sm)) ∧
  m_loadedTextures sm ≤ INT_MAX.
Proof. unfold wf_scene, MAX_TEXTURES, INT_MAX. lia. Qed.

(** [FindTextureID] ends, with the handle of the first entry that carries
    the tag (converted to [int]), or with -1 when there is none. *)
Lemma FindTextureID_first sm tag :
  wf_scene sm →
  FindTextureID sm tag =
  Done match first_texture sm tag with
       | Some (_, e) => int_of_GLuint (tex_ID e)
       | None => -1
       end.
Proof.
  intros [Hn Hmax]%wf_scan_bounds. unfold FindTextureID, first_texture.
  rewrite (scan_first_match (m_textureIDs sm) (m_loadedTextures sm)
             (λ e, string_compare (tex_tag e) tag =? 0)
             (λ _ _ e, int_of_GLuint (tex_ID e))) by (done || lia).
  rewrite (list_find_ext _ (λ e, tex_tag e = tag))
    by (intros e; apply string_compare_0).
  fold (registered sm). by destruct (list_find _ _) as [[k e]|].
Qed.

(** [FindTextureSlot] ends, with the slot of the first entry that carries
    the tag, or with -1 when there is none. *)
Lemma FindTextureSlot_first sm tag :
  wf_scene sm →
  FindTextureSlot sm tag =
  Done match first_texture sm tag with
       | Some (k, _) => Z.of_nat k
       | None => -1
       end.
Proof.
  intros [Hn Hmax]%wf_scan_bounds. unfold FindTextureSlot, first_texture.
  rewrite (scan_first_match (m_textureIDs sm) (m_loadedTextures sm)
             (λ e, string_compare (tex_tag e) tag =? 0)
             (λ _ index _, index)) by (done || lia).
  rewrite (list_find_ext _ (λ e, tex_tag e = tag))
    by (intros e; apply string_compare_0).
  fold (registered sm). by destruct (list_find _ _) as [[k e]|].
Qed.

(** [FindMaterial] on a registry that is not empty: the answer is [true]
    whatever the scan finds, and [material] receives the three values of the
    first match, if any. *)
Lemma FindMaterial_nonempty sm tag (material : OBJECT_MATERIAL) :
  m_objectMaterials sm ≠ [] →
  Z.of_nat (length (m_objectMaterials sm)) ≤ INT_MAX →
  FindMaterial sm tag material =
  Done (true,
        match first_material sm tag with
        | Some (_, e) => {| diffuseColor := diffuseColor e;
                            specularColor := specularColor e;
                            shininess := shininess e;
                            mat_tag := mat_tag material |}
        | None => material
        end).
Proof.
  intros Hne Hmax. unfold FindMaterial, first_material.
  destruct (Z.eqb_spec (Z.of_nat (length (m_objectMaterials sm))) 0) as [H0|_].
  { destruct (m_objectMaterials sm); [done | simpl in H0; lia]. }
  rewrite (scan_first_match (m_objectMaterials sm)
             (Z.of_nat (length (m_objectMaterials sm)))
             (λ e, string_compare (mat_tag e) tag =? 0)
             (λ material _ e, {| diffuseColor := diffuseColor e;
                                 specularColor := specularColor e;
                                 shininess := shininess e;
                                 mat_tag := mat_tag material |}))
    by lia.
  rewrite (list_find_ext _ (λ e, mat_tag e = tag))
    by (intros e; apply string_compare_0).
  rewrite Nat2Z.id, firstn_all.
  by destruct (list_find _ _) as [[k e]|].
Qed.

Lemma FindMaterial_empty sm tag (material : OBJECT_MATERIAL) :
  m_objectMaterials sm = [] →
  FindMaterial sm tag material = Done (false, material).
Proof. intros Hnil. unfold FindMaterial. by rewrite Hnil. Qed.

End Lookups.

(** ** Loading a texture *)

Section Loading.
Context `{GLM}.
Implicit Types (env : Env) (w : World) (sm : SceneManager).

Lemma CreateGLTexture_unreadable env filename tag w :
  decode env filename = None →
  CreateGLTexture env filename tag w =
  Done (false,
        {| scene := scene w;
           calls := calls w ++ [stbi_set_flip_vertically_on_load true;
                                stbi_load filename] |}).
Proof.
  intros Hdec. unfold CreateGLTexture, stbi_load_call, bind_M, emit, ret_M.
  simpl. rewrite Hdec. simpl. by rewrite <- app_assoc.
Qed.

Lemma CreateGLTexture_unsupported env filename tag w img :
  decode env filename = Some img →
  colorChannels img ≠ 3 → colorChannels img ≠ 4 →
  CreateGLTexture env filename tag w =
  Done (false,
        {| scene := scene w;
           calls := calls w ++
                    decode_calls filename (load_name env filename w) |}).
Proof.
  intros Hdec H3 H4.
  unfold CreateGLTexture, stbi_load_call, glGenTextures_1, bind_M, emit, ret_M.
  simpl. rewrite Hdec. simpl.
  destruct (Z.eqb_spec (colorChannels img) 3); [done|].
  destruct (Z.eqb_spec (colorChannels img) 4); [done|].
  unfold load_name, decode_calls. by rewrite <- !app_assoc.
Qed.

(** A supported image with a free slot: the record goes to slot
    [m_loadedTextures], which then grows by one. *)
Lemma CreateGLTexture_supported env filename tag w img :
  decode env filename = Some img →
  colorChannels img = 3 ∨ colorChannels img = 4 →
  0 ≤ m_loadedTextures (scene w) < Z.of_nat (length (m_textureIDs (scene w))) →
  m_loadedTextures (scene w) < INT_MAX →
  ∃ cs,
    CreateGLTexture env filename tag w =
    Done (true,
          {| scene := register (load_name env filename w) tag (scene w);
             calls := calls w ++ cs |}).
Proof.
  intros Hdec Hch Hn Hmax.
  destruct (lookup_lt_is_Some_2 (m_textureIDs (scene w))
              (Z.to_nat (m_loadedTextures (scene w)))) as [e He]; [lia|].
  unfold CreateGLTexture, stbi_load_call, glGenTextures_1, update_slot,
    get_scene, put_scene, lift, bind_M, emit, ret_M.
  simpl. rewrite Hdec. simpl.
  assert (∀ (a : list TEXTURE_INFO) x, length a = length (m_textureIDs (scene w)) →
            array_set a (m_loadedTextures (scene w)) x =
            Done (<[Z.to_nat (m_loadedTextures (scene w)) := x]> a)) as Hset.
  { intros a x Ha. unfold array_set. rewrite Ha.
    destruct (Z.leb_spec 0 (m_loadedTextures (scene w))); [|lia].
    by destruct (Z.ltb_spec (m_loadedTextures (scene w))
                   (Z.of_nat (length (m_textureIDs (scene w))))); [|lia]. }
  destruct Hch as [Hch|Hch]; rewrite Hch; simpl;
    rewrite (array_get_Some _ _ e) by (done || lia); simpl;
    rewrite Hset by done; simpl;
    rewrite (array_get_Some _ _ _ (proj1 Hn)
               (list_lookup_insert_eq _ _ _ (proj1 (lookup_lt_is_Some _ _) (mk_is_Some _ _ He))));
    simpl; rewrite Hset by (by rewrite length_insert); simpl;
    rewrite int_incr_Done by done; simpl;
    rewrite list_insert_insert_eq; unfold register, load_name;
    rewrite <- !app_assoc; simpl; eauto.
Qed.

(** A supported image and no free slot: the write is out of bounds. *)
Lemma CreateGLTexture_overflow env filename tag w img :
  decode env filename = Some img →
  colorChannels img = 3 ∨ colorChannels img = 4 →
  ¬ (0 ≤ m_loadedTextures (scene w) < Z.of_nat (length (m_textureIDs (scene w)))) →
  CreateGLTexture env filename tag w = Undefined.
Proof.
  intros Hdec Hch Hn.
  unfold CreateGLTexture, stbi_load_call, glGenTextures_1, update_slot,
    get_scene, put_scene, lift, bind_M, emit, ret_M.
  simpl. rewrite Hdec. simpl.
  assert (∀ x, array_set (m_textureIDs (scene w)) (m_loadedTextures (scene w)) x
               = Undefined) as Hset.
  { intros x. unfold array_set.
    destruct (Z.leb_spec 0 (m_loadedTextures (scene w))); [|done].
    by destruct (Z.ltb_spec (m_loadedTextures (scene w))
                   (Z.of_nat (length (m_textureIDs (scene w))))); [lia|]. }
  destruct Hch as [Hch|Hch]; rewrite Hch; simpl;
    destruct (array_get_cases (m_textureIDs (scene w))
                (m_loadedTextures (scene w))) as [[e ->]| ->];
    simpl; by rewrite ?Hset.
Qed.

End Loading.

Section LoadSequences.
Context `{GLM}.
Implicit Types (env : Env) (w : World) (sm : SceneManager).

(** The three ways a call of [CreateGLTexture] can go. *)
Lemma CreateGLTexture_cases env filename tag w :
  wf_scene (scene w) →
  if loadable env filename then
    if decide (m_loadedTextures (scene w) < MAX_TEXTURES) then
      ∃ cs, CreateGLTexture env filename tag w =
            Done (true,
                  {| scene := register (load_name env filename w) tag (scene w);
                     calls := calls w ++ cs |})
    else CreateGLTexture env filename tag w = Undefined
  else
    ∃ cs, CreateGLTexture env filename tag w =
          Done (false, {| scene := scene w; calls := calls w ++ cs |}).
Proof.
  intros [Hn Hlen]. unfold loadable.
  destruct (decode env filename) as [img|] eqn:Hdec.
  - destruct (Z.eqb_spec (colorChannels img) 3) as [H3|H3]; simpl.
    + case_decide.
      * apply (CreateGLTexture_supported _ _ _ _ img); auto;
          unfold INT_MAX, MAX_TEXTURES in *; lia.
      * apply (CreateGLTexture_overflow _ _ _ _ img); auto; lia.
    + destruct (Z.eqb_spec (colorChannels img) 4) as [H4|H4].
      * case_decide.
        -- apply (CreateGLTexture_supported _ _ _ _ img); auto;
             unfold INT_MAX, MAX_TEXTURES in *; lia.
        -- apply (CreateGLTexture_overflow _ _ _ _ img); auto; lia.
      * eexists. by apply (CreateGLTexture_unsupported _ _ _ _ img).
  - eexists. by apply CreateGLTexture_unreadable.
Qed.

Lemma register_wf id tag sm :
  wf_scene sm → m_loadedTextures sm < MAX_TEXTURES →
  wf_scene (register id tag sm).
Proof.
  intros [Hn Hlen] Hlt. unfold wf_scene, register. simpl.
  rewrite length_insert. lia.
Qed.

(** Registration appends to the registry and moves no earlier entry. *)
Lemma registered_register id tag sm :
  wf_scene sm → m_loadedTextures sm < MAX_TEXTURES →
  registered (register id tag sm) =
  registered sm ++ [{| tex_ID := id; tex_tag := tag |}].
Proof.
  intros [Hn Hlen] Hlt. unfold registered, register. simpl.
  replace (Z.to_nat (m_loadedTextures sm + 1))
    with (S (Z.to_nat (m_loadedTextures sm))) by lia.
  rewrite (take_S_r _ _ {| tex_ID := id; tex_tag := tag |})
    by (apply list_lookup_insert_eq; lia).
  by rewrite take_insert_ge by lia.
Qed.

Lemma loaded_tags_cons env filename tag loads :
  loaded_tags env ((filename, tag) :: loads) =
  if loadable env filename then tag :: loaded_tags env loads
  else loaded_tags env loads.
Proof.
  unfold loaded_tags. rewrite filter_cons. cbn [fst].
  by destruct (loadable env filename).
Qed.

(** A sequence of loads started in a well-formed world either fits the
    array, and then appends one entry per loadable file in call order
    (with some handles [ids]) and touches nothing else of the object, or
    writes past the end of the array. *)
Lemma load_all_from env loads w :
  wf_scene (scene w) →
  if decide (m_loadedTextures (scene w)
             + Z.of_nat (length (loaded_tags env loads)) ≤ MAX_TEXTURES)
  then
    ∃ w' ids,
      load_all env loads w = Done ((λ l, loadable env l.1) <$> loads, w') ∧
      wf_scene (scene w') ∧
      length ids = length (loaded_tags env loads) ∧
      Forall (λ id, 0 ≤ id < GLuint_modulus) ids ∧
      registered (scene w') =
        registered (scene w)
        ++ zip_with Build_TEXTURE_INFO ids (loaded_tags env loads) ∧
      m_pShaderManager (scene w') = m_pShaderManager (scene w) ∧
      m_objectMaterials (scene w') = m_objectMaterials (scene w)
  else load_all env loads w = Undefined.
Proof.
  revert w. induction loads as [|[filename tag] loads IH]; intros w Hwf.
  - simpl. rewrite decide_True by (destruct Hwf; lia).
    exists w, []. rewrite app_nil_r. by split_and!.
  - pose proof (CreateGLTexture_cases env filename tag w Hwf) as Hstep.
    rewrite loaded_tags_cons, fmap_cons.
    change (load_all env ((filename, tag) :: loads) w)
      with (bind_M (CreateGLTexture env filename tag) (λ b,
            bind_M (load_all env loads) (λ bs, ret_M (b :: bs))) w).
    unfold bind_M, ret_M. cbv beta. cbn [fst].
    destruct (loadable env filename) eqn:Hok.
    + destruct (decide (m_loadedTextures (scene w) < MAX_TEXTURES)) as [Hlt|Hge].
      * destruct Hstep as [cs Hstep]. rewrite Hstep. cbn [mbind outcome_bind].
        set (w1 := {| scene := register _ _ _; calls := _ |}).
        specialize (IH w1 (register_wf _ _ _ Hwf Hlt)).
        assert (m_loadedTextures (scene w1) = m_loadedTextures (scene w) + 1)
          as Hn1 by done.
        rewrite Hn1 in IH. rewrite length_cons.
        destruct (decide (_ + 1 + Z.of_nat (length _) ≤ MAX_TEXTURES))
          as [Hfit|Hfit].
        -- rewrite decide_True by lia.
           destruct IH as (w' & ids & Hrun & Hwf' & Hlen & Hids & Hreg & Hsh & Hmat).
           exists w', (load_name env filename w :: ids).
           rewrite Hrun. cbn [mbind outcome_bind].
           split_and!; [done | done | by rewrite !length_cons, Hlen | | | done | done].
           { constructor; [|done]. by apply Z.mod_pos_bound. }
           rewrite Hreg. subst w1. cbn [scene zip_with].
           rewrite registered_register by done. by rewrite <- app_assoc.
        -- rewrite decide_False by lia.
           by rewrite IH.
      * rewrite decide_False by (rewrite length_cons; lia). by rewrite Hstep.
    + destruct Hstep as [cs Hstep]. rewrite Hstep. cbn [mbind outcome_bind].
      set (w1 := {| scene := scene w; calls := _ |}).
      specialize (IH w1 Hwf). cbn [scene w1] in IH.
      case_decide.
      * destruct IH as (w' & ids & Hrun & Hwf' & Hlen & Hids & Hreg & Hsh & Hmat).
        exists w', ids. rewrite Hrun. by cbn.
      * by rewrite IH.
Qed.

Lemma new_world_wf pShaderManager garbage :
  wf_scene (scene (new_world pShaderManager garbage)).
Proof. by compute. Qed.

End LoadSequences.

(** ** Binding and teardown *)

Section BindAndTeardown.
Context `{GLM}.
Implicit Types (env : Env) (w : World) (sm : SceneManager).

(** The rule of the counting loop: an invariant indexed by the counter. *)
Lemma for_int_rule (I : Z → World → Prop) (n : Z) (fuel : nat)
    (bound : World → Z) (body : Z → M unit) w :
  0 ≤ n ≤ INT_MAX →
  (Z.to_nat n ≤ fuel)%nat →
  I 0 w →
  (∀ i w, I i w → bound w = n) →
  (∀ i w, 0 ≤ i < n → I i w → ∃ w', body i w = Done (tt, w') ∧ I (i + 1) w') →
  ∃ w', for_int fuel bound body w = Done (tt, w') ∧ I n w'.
Proof.
  intros Hn Hfuel H0 Hbound Hbody. unfold for_int.
  match goal with
  | |- ∃ _, while ?f ?c ?b ?s ≫= _ = _ ∧ _ =>
      destruct (while_rule (λ '(i, w), 0 ≤ i ≤ n ∧ I i w)
                  (λ '(i, _), Z.to_nat (n - i)) c b f s)
        as ([i w'] & -> & [Hi HI] & Hc)
  end.
  - split; [lia | done].
  - lia.
  - intros [i w1] [Hi HI] Hc. rewrite (Hbound _ _ HI) in Hc.
    apply Z.ltb_lt in Hc.
    destruct (Hbody i w1) as (w2 & -> & HI2); [lia | done |].
    cbn [mbind outcome_bind]. rewrite int_incr_Done by lia.
    eexists. split; [done|]. split; [split; [lia | done] | lia].
  - exists w'. split; [done|]. rewrite (Hbound _ _ HI) in Hc.
    apply Z.ltb_ge in Hc. by replace n with i by lia.
Qed.

Lemma bind_calls_snoc (ids : list Z) (id : Z) :
  bind_calls (ids ++ [id]) =
  bind_calls ids ++ [glActiveTexture (GL_TEXTURE0 + Z.of_nat (length ids));
                     glBindTexture GL_TEXTURE_2D id].
Proof.
  unfold bind_calls. rewrite imap_app, join_app. simpl.
  by rewrite Nat.add_0_r.
Qed.

Lemma length_bind_calls (ids : list Z) :
  length (bind_calls ids) = (2 * length ids)%nat.
Proof.
  induction ids as [|id ids IH] using rev_ind; [done|].
  rewrite bind_calls_snoc, !length_app, IH. simpl. lia.
Qed.

(** Entry [i] of the list is bound right after unit [i] is activated. *)
Lemma bind_calls_lookup (ids : list Z) (i : nat) (id : Z) :
  ids !! i = Some id →
  bind_calls ids !! (2 * i)%nat
    = Some (glActiveTexture (GL_TEXTURE0 + Z.of_nat i)) ∧
  bind_calls ids !! (2 * i + 1)%nat = Some (glBindTexture GL_TEXTURE_2D id).
Proof.
  induction ids as [|x ids IH] using rev_ind; [done|].
  intros Hi. rewrite bind_calls_snoc.
  destruct (decide (i < length ids)%nat) as [Hlt|Hge].
  - rewrite lookup_app_l in Hi by done.
    rewrite !lookup_app_l by (rewrite length_bind_calls; lia). auto.
  - pose proof (lookup_lt_Some _ _ _ Hi) as Hlen.
    rewrite length_app in Hlen. simpl in Hlen.
    assert (i = length ids) as -> by lia.
    rewrite lookup_app_r, Nat.sub_diag in Hi by done.
    injection Hi as ->.
    rewrite !lookup_app_r by (rewrite length_bind_calls; lia).
    rewrite length_bind_calls.
    replace (2 * length ids - 2 * length ids)%nat with 0%nat by lia.
    replace (2 * length ids + 1 - 2 * length ids)%nat with 1%nat by lia.
    done.
Qed.

(** [BindGLTextures] changes nothing in the object and issues, slot by
    slot, the activation of unit [GL_TEXTURE0 + slot] followed by the
    binding of the handle stored in that slot. *)
Lemma BindGLTextures_calls w :
  wf_scene (scene w) →
  BindGLTextures w =
  Done (tt, {| scene := scene w;
               calls := calls w
                        ++ bind_calls (tex_ID <$> registered (scene w)) |}).
Proof.
  intros [Hn Hlen]. unfold BindGLTextures.
  destruct (for_int_rule
    (λ i w', scene w' = scene w ∧
             calls w' = calls w ++ bind_calls
               (tex_ID <$> take (Z.to_nat i) (m_textureIDs (scene w))))
    (m_loadedTextures (scene w))
    (Z.to_nat (m_loadedTextures (scene w)))
    (λ w, m_loadedTextures (scene w))
    (λ i, bind_M (emit (glActiveTexture (GL_TEXTURE0 + i))) (λ _,
          bind_M get_scene (λ sm,
          bind_M (lift (array_get (m_textureIDs sm) i)) (λ e,
          emit (glBindTexture GL_TEXTURE_2D (tex_ID e)))))) w)
    as (w' & -> & Hsc & Hcalls).
  - unfold INT_MAX, MAX_TEXTURES in *. lia.
  - done.
  - split; [done|]. simpl. by rewrite app_nil_r.
  - by intros i w1 [-> _].
  - intros i w1 Hi [Hsc Hcalls].
    destruct (lookup_lt_is_Some_2 (m_textureIDs (scene w)) (Z.to_nat i))
      as [e He]; [lia|].
    unfold bind_M, emit, get_scene, lift. cbn. rewrite Hsc.
    rewrite (array_get_Some _ _ e) by (done || lia). cbn.
    eexists. split; [done|]. cbn. split; [done|].
    replace (Z.to_nat (i + 1)) with (S (Z.to_nat i)) by lia.
    rewrite (take_S_r _ _ e), fmap_app by done.
    change (tex_ID <$> [e]) with [tex_ID e]. rewrite bind_calls_snoc.
    rewrite Hcalls, length_fmap, length_take, <- !app_assoc. cbn.
    do 4 f_equal. lia.
  - destruct w' as [sm' cs']. simpl in *. by subst.
Qed.

(** [DestroyGLTextures] issues one [glGenTextures] per registered entry
    and nothing else; each entry keeps its tag and has its handle
    overwritten with the name the driver generated. *)
Lemma DestroyGLTextures_calls env w :
  wf_scene (scene w) →
  ∃ w' names,
    DestroyGLTextures env w = Done (tt, w') ∧
    calls w' = calls w ++ (glGenTextures 1 <$> names) ∧
    length names = Z.to_nat (m_loadedTextures (scene w)) ∧
    m_loadedTextures (scene w') = m_loadedTextures (scene w) ∧
    tex_ID <$> registered (scene w') = names ∧
    tex_tag <$> registered (scene w') = tex_tag <$> registered (scene w).
Proof.
  intros [Hn Hlen]. unfold DestroyGLTextures.
  destruct (for_int_rule
    (λ i w',
       m_loadedTextures (scene w') = m_loadedTextures (scene w) ∧
       tex_tag <$> m_textureIDs (scene w') = tex_tag <$> m_textureIDs (scene w) ∧
       ∃ names,
         length names = Z.to_nat i ∧
         calls w' = calls w ++ (glGenTextures 1 <$> names) ∧
         tex_ID <$> take (Z.to_nat i) (m_textureIDs (scene w')) = names)
    (m_loadedTextures (scene w))
    (Z.to_nat (m_loadedTextures (scene w)))
    (λ w, m_loadedTextures (scene w))
    (λ i, bind_M (glGenTextures_1 env) (λ name,
          update_slot i (λ e, {| tex_ID := name; tex_tag := tex_tag e |}))) w)
    as (w' & -> & Hcount & Htags & names & Hnames & Hcalls & Hids).
  - unfold INT_MAX, MAX_TEXTURES in *. lia.
  - done.
  - split; [done|]. split; [done|]. exists []. simpl. by rewrite app_nil_r.
  - by intros i w1 [-> _].
  - intros i w1 Hi (Hcount & Htags & names & Hnames & Hcalls & Hids).
    assert (length (m_textureIDs (scene w1)) = length (m_textureIDs (scene w)))
      as Hlen1 by (by rewrite <- (length_fmap tex_tag), Htags, length_fmap).
    destruct (lookup_lt_is_Some_2 (m_textureIDs (scene w1)) (Z.to_nat i))
      as [e He]; [lia|].
    unfold bind_M, glGenTextures_1, update_slot, emit, get_scene, put_scene,
      lift. cbn.
    rewrite (array_get_Some _ _ e) by (done || lia). cbn.
    unfold array_set.
    destruct (Z.leb_spec 0 i); [|lia].
    destruct (Z.ltb_spec i (Z.of_nat (length (m_textureIDs (scene w1)))));
      [|lia].
    cbn. eexists. split; [done|]. cbn. split; [done|]. split.
    + rewrite list_fmap_insert. cbn. rewrite list_insert_id; [done|].
      by rewrite list_lookup_fmap, He.
    + exists (names ++ [to_GLuint (driver_name env (calls w1))]).
      rewrite length_app, fmap_app, Hcalls, <- app_assoc. cbn.
      split; [lia|]. split; [done|].
      replace (Z.to_nat (i + 1)) with (S (Z.to_nat i)) by lia.
      rewrite (take_S_r _ _ {| tex_ID := to_GLuint (driver_name env
                 (calls w ++ (glGenTextures 1 <$> names))); tex_tag := tex_tag e |})
        by (rewrite <- Hcalls; apply list_lookup_insert_eq; lia).
      by rewrite take_insert_ge, fmap_app, Hids by lia.
  - exists w', names. unfold registered. rewrite Hcount.
    split_and!; [done..|]. by rewrite !fmap_take, Htags.
Qed.

End BindAndTeardown.

(** * The claims *)

(** ** Teardown *)

(** Whatever the registry holds, teardown issues no [glDeleteTextures]. *)
Lemma DestroyGLTextures_never_deletes `{GLM} (env : Env) (w : World) :
  wf_scene (scene w) →
  ∃ w' added,
    DestroyGLTextures env w = Done (tt, w') ∧
    calls w' = calls w ++ added ∧
    length added = Z.to_nat (m_loadedTextures (scene w)) ∧
    ∀ e, e ∈ added → ∃ name, e = glGenTextures 1 name.
Proof.
  intros Hwf.
  destruct (DestroyGLTextures_calls env w Hwf)
    as (w' & names & Hrun & Hcalls & Hlen & _).
  exists w', (glGenTextures 1 <$> names).
  split_and!; [done | done | by rewrite length_fmap |].
  intros e (name & -> & _)%list_elem_of_fmap. eauto.
Qed.

(** C1 (the code departs from the claim).  With the single texture "wood"
    registered under handle 1, [DestroyGLTextures] issues
    [glGenTextures(1, &m_textureIDs[0].ID)]: the driver creates the new name
    2, which overwrites the stored handle; handle 1 is never passed to
    [glDeleteTextures], the release operation the claim asks for. *)
Theorem DestroyGLTextures_generates_instead_of_deleting :
  registered (scene world_wood) = [{| tex_ID := 1; tex_tag := "wood" |}] ∧
  ∃ w',
    DestroyGLTextures env_demo world_wood = Done (tt, w') ∧
    calls w' = calls world_wood ++ [glGenTextures 1 2] ∧
    registered (scene w') = [{| tex_ID := 2; tex_tag := "wood" |}] ∧
    ∀ n name, glDeleteTextures n name ∉ calls w'.
Proof.
  split; [by vm_compute|].
  eexists. split; [by vm_compute|]. split; [by vm_compute|].
  split; [by vm_compute|].
  intros n name Hin. vm_compute in Hin.
  repeat (apply elem_of_cons in Hin as [Hin|Hin]; [discriminate|]).
  by apply elem_of_nil in Hin.
Qed.

(** ** Material lookup *)

(** C2 (the code departs from the claim).  The registry holds the single
    material "clay"; the lookup of "glass" finds no record and still answers
    [true]. *)
Theorem FindMaterial_true_without_match :
  first_material (scene world_clay) "glass" = None ∧
  FindMaterial (scene world_clay) "glass" stale = Done (true, stale).
Proof. split; by vm_compute. Qed.

(** C3 (the code departs from the claim, through the answer of
    [FindMaterial] shown above).  With the single material "clay"
    registered, [SetShaderMaterial] for the unknown tag "glass" pushes the
    three material uniforms, taken from its uninitialised local record. *)
Theorem SetShaderMaterial_pushes_without_match :
  first_material (scene world_clay) "glass" = None ∧
  ∃ w',
    SetShaderMaterial stale "glass" world_clay = Done (tt, w') ∧
    m_pShaderManager (scene w') =
      Some (<["material.shininess" := FloatValue (shininess stale)]>
           (<["material.specularColor" := Vec3Value (specularColor stale)]>
           (<["material.diffuseColor" := Vec3Value (diffuseColor stale)]> ∅))) ∧
    m_pShaderManager (scene w') ≠ m_pShaderManager (scene world_clay).
Proof.
  split; [by vm_compute|].
  eexists. split; [by vm_compute|]. split; [by vm_compute|].
  by vm_compute.
Qed.

(** C9.  On a registry that is not empty and holds no record with the
    queried tag, [FindMaterial] answers [true] and hands [material] back as
    it received it; whenever it hands back a changed [material], a record
    with the tag is registered. *)
Theorem FindMaterial_no_match_keeps_material `{GLM}
    (sm : SceneManager) (tag : string) (material : OBJECT_MATERIAL) :
  Z.of_nat (length (m_objectMaterials sm)) ≤ INT_MAX →
  (m_objectMaterials sm ≠ [] →
   (∀ e, e ∈ m_objectMaterials sm → mat_tag e ≠ tag) →
   FindMaterial sm tag material = Done (true, material)) ∧
  (∀ found material',
     FindMaterial sm tag material = Done (found, material') →
     material' ≠ material →
     ∃ e, e ∈ m_objectMaterials sm ∧ mat_tag e = tag).
Proof.
  intros Hmax. split.
  - intros Hne Hnone. rewrite FindMaterial_nonempty by done.
    unfold first_material.
    assert (list_find (λ e, mat_tag e = tag) (m_objectMaterials sm) = None)
      as ->; [|done].
    apply list_find_None, Forall_forall. exact Hnone.
  - intros found material' Hrun Hchanged.
    destruct (m_objectMaterials sm) as [|e0 l] eqn:Hl.
    { rewrite FindMaterial_empty in Hrun by done. congruence. }
    rewrite FindMaterial_nonempty in Hrun by (rewrite Hl; done || lia).
    unfold first_material in Hrun. rewrite Hl in Hrun.
    destruct (list_find _ _) as [[k e]|] eqn:Hfind; [|congruence].
    apply list_find_Some in Hfind as (Hk & Htag & _).
    exists e. split; [|done]. by eapply list_elem_of_lookup_2.
Qed.

Lemma FindMaterial_no_match_keeps_material_witness :
  FindMaterial (scene world_clay) "glass" stale = Done (true, stale).
Proof.
  apply (FindMaterial_no_match_keeps_material (scene world_clay) "glass" stale).
  - by vm_compute.
  - by vm_compute.
  - intros e ->%list_elem_of_singleton. by vm_compute.
Defined.

(** ** Loading *)

(** A file that is accepted never makes [CreateGLTexture] answer [false]. *)
Lemma CreateGLTexture_loadable_not_false `{GLM} (env : Env)
    (filename tag : string) (w w' : World) :
  loadable env filename = true →
  CreateGLTexture env filename tag w ≠ Done (false, w').
Proof.
  unfold loadable. intros Hok.
  destruct (decode env filename) as [img|] eqn:Hdec; [|done].
  assert (colorChannels img = 3 ∨ colorChannels img = 4) as Hch.
  { apply orb_true_iff in Hok as [?%Z.eqb_eq | ?%Z.eqb_eq]; auto. }
  destruct (decide (0 ≤ m_loadedTextures (scene w)
                    < Z.of_nat (length (m_textureIDs (scene w))))) as [Hin|Hout].
  - destruct (decide (m_loadedTextures (scene w) < INT_MAX)) as [Hlt|Hge].
    + destruct (CreateGLTexture_supported env filename tag w img)
        as [cs ->]; done.
    + unfold CreateGLTexture, stbi_load_call, glGenTextures_1, update_slot,
        get_scene, put_scene, lift, bind_M, emit, ret_M.
      cbn. rewrite Hdec. cbn.
      assert (int_incr (m_loadedTextures (scene w)) = Undefined) as Hinc.
      { unfold int_incr.
        by destruct (Z.ltb_spec (m_loadedTextures (scene w)) INT_MAX). }
      destruct Hch as [Hch|Hch]; rewrite Hch; cbn;
        repeat (match goal with
                | |- context [array_get ?a ?i] =>
                    destruct (array_get_cases a i) as [[? ->]| ->]; cbn
                | |- context [array_set ?a ?i ?x] =>
                    destruct (array_set a i x); cbn
                end; try done);
        by rewrite ?Hinc.
  - by rewrite (CreateGLTexture_overflow env filename tag w img).
Qed.

(** C7.  When the file cannot be decoded, or decodes to a channel count
    other than 3 and 4, [CreateGLTexture] returns [false] and leaves the
    object as it was (the array, the count, everything); and it returns
    [false] in no other case. *)
Theorem CreateGLTexture_failure_leaves_registry `{GLM} (env : Env)
    (filename tag : string) (w : World) :
  (decode env filename = None ∨
   (∃ img, decode env filename = Some img ∧
           colorChannels img ≠ 3 ∧ colorChannels img ≠ 4) →
   ∃ w', CreateGLTexture env filename tag w = Done (false, w') ∧
         scene w' = scene w) ∧
  (∀ w', CreateGLTexture env filename tag w = Done (false, w') →
         scene w' = scene w ∧
         (decode env filename = None ∨
          ∃ img, decode env filename = Some img ∧
                 colorChannels img ≠ 3 ∧ colorChannels img ≠ 4)).
Proof.
  assert (decode env filename = None ∨
          (∃ img, decode env filename = Some img ∧
                  colorChannels img ≠ 3 ∧ colorChannels img ≠ 4) →
          ∃ w', CreateGLTexture env filename tag w = Done (false, w') ∧
                scene w' = scene w) as Hfail.
  { intros [Hdec | (img & Hdec & H3 & H4)].
    - rewrite CreateGLTexture_unreadable by done. eauto.
    - rewrite (CreateGLTexture_unsupported _ _ _ _ img) by done. eauto. }
  split; [done|]. intros w' Hrun.
  assert (decode env filename = None ∨
          ∃ img, decode env filename = Some img ∧
                 colorChannels img ≠ 3 ∧ colorChannels img ≠ 4) as Hwhy.
  { destruct (loadable env filename) eqn:Hok.
    { by destruct (CreateGLTexture_loadable_not_false env filename tag w w'). }
    unfold loadable in Hok.
    destruct (decode env filename) as [img|]; [right | by left].
    apply orb_false_iff in Hok as [?%Z.eqb_neq ?%Z.eqb_neq]. eauto. }
  split; [|done].
  destruct (Hfail Hwhy) as (w'' & Hrun' & Hsame). congruence.
Qed.

Lemma CreateGLTexture_failure_leaves_registry_witness :
  ∃ w', CreateGLTexture env_demo "textures/gray.png" "gray" world_wood
        = Done (false, w') ∧
        scene w' = scene world_wood.
Proof.
  apply (CreateGLTexture_failure_leaves_registry env_demo
           "textures/gray.png" "gray" world_wood).
  right. exists (image_of 1). by vm_compute.
Defined.

(** ** What a run of loads on a new scene manager leaves behind *)

Section AfterLoads.
Context `{GLM}.
Implicit Types (env : Env) (w : World) (loads : list (string * string)).

(** The registry after the loads: one entry per accepted file, in call
    order, each with the handle [glGenTextures] produced for it. *)
Lemma loads_on_new_world env loads pShaderManager garbage bs w :
  load_all env loads (new_world pShaderManager garbage) = Done (bs, w) →
  wf_scene (scene w) ∧
  ∃ ids,
    length ids = length (loaded_tags env loads) ∧
    Forall (λ id, 0 ≤ id < GLuint_modulus) ids ∧
    registered (scene w) =
      zip_with Build_TEXTURE_INFO ids (loaded_tags env loads).
Proof.
  intros Hrun.
  pose proof (load_all_from env loads (new_world pShaderManager garbage)
                (new_world_wf _ _)) as Hall.
  case_decide; [|congruence].
  destruct Hall as (w' & ids & Hrun' & Hwf & Hlen & Hids & Hreg & _).
  rewrite Hrun in Hrun'. injection Hrun' as _ <-.
  split; [done|]. by exists ids.
Qed.

Lemma int_of_GLuint_sentinel (id : Z) :
  0 ≤ id < GLuint_modulus →
  int_of_GLuint id = -1 ↔ id = GLuint_modulus - 1.
Proof.
  unfold int_of_GLuint, GLuint_modulus, INT_MAX. intros Hid.
  destruct (Z.leb_spec id (2 ^ 31 - 1)); lia.
Qed.

End AfterLoads.

(** C5.  After any run of loads on a new scene manager, the i-th accepted
    load (counting from 0) sits in slot i of the registry with its tag and
    its handle, and [BindGLTextures] binds that handle while texture unit
    [GL_TEXTURE0 + i] is the active one: it issues, for i = 0, 1, ... in
    turn, [glActiveTexture(GL_TEXTURE0 + i)] and then
    [glBindTexture(GL_TEXTURE_2D, handle i)], and nothing else. *)
Theorem bind_unit_is_load_slot `{GLM} (env : Env)
    (loads : list (string * string)) (pShaderManager : option ShaderManager)
    (garbage : Z → Z) (bs : list bool) (w : World) :
  load_all env loads (new_world pShaderManager garbage) = Done (bs, w) →
  ∃ ids,
    length ids = length (loaded_tags env loads) ∧
    (∀ (i : nat) tag,
       loaded_tags env loads !! i = Some tag →
       ∃ id, ids !! i = Some id ∧
             m_loadedTextures (scene w) > Z.of_nat i ∧
             m_textureIDs (scene w) !! i
               = Some {| tex_ID := id; tex_tag := tag |}) ∧
    BindGLTextures w =
      Done (tt, {| scene := scene w; calls := calls w ++ bind_calls ids |}) ∧
    (∀ (i : nat) id,
       ids !! i = Some id →
       bind_calls ids !! (2 * i)%nat
         = Some (glActiveTexture (GL_TEXTURE0 + Z.of_nat i)) ∧
       bind_calls ids !! (2 * i + 1)%nat
         = Some (glBindTexture GL_TEXTURE_2D id)).
Proof.
  intros Hrun.
  destruct (loads_on_new_world _ _ _ _ _ _ Hrun)
    as (Hwf & ids & Hlen & _ & Hreg).
  exists ids. split; [done|]. split; [|split].
  - intros i tag Htag.
    destruct (lookup_lt_is_Some_2 ids i) as [id Hid].
    { rewrite Hlen. by eapply lookup_lt_Some. }
    exists id. split; [done|].
    assert (registered (scene w) !! i
            = Some {| tex_ID := id; tex_tag := tag |}) as Hslot.
    { rewrite Hreg. apply lookup_zip_with_Some. eauto. }
    unfold registered in Hslot. apply lookup_take_Some in Hslot as [Hslot Hi].
    split; [lia | done].
  - rewrite BindGLTextures_calls by done. rewrite Hreg.
    by rewrite fmap_zip_with_l by (done || lia).
  - intros i id Hid. apply bind_calls_lookup. done.
Qed.

Lemma bind_unit_is_load_slot_witness :
  ∃ ids,
    length ids = length (loaded_tags env_demo scene_textures) ∧
    (∀ (i : nat) tag,
       loaded_tags env_demo scene_textures !! i = Some tag →
       ∃ id, ids !! i = Some id ∧
             m_loadedTextures (scene world_scene) > Z.of_nat i ∧
             m_textureIDs (scene world_scene) !! i
               = Some {| tex_ID := id; tex_tag := tag |}) ∧
    BindGLTextures world_scene =
      Done (tt, {| scene := scene world_scene;
                   calls := calls world_scene ++ bind_calls ids |}) ∧
    (∀ (i : nat) id,
       ids !! i = Some id →
       bind_calls ids !! (2 * i)%nat
         = Some (glActiveTexture (GL_TEXTURE0 + Z.of_nat i)) ∧
       bind_calls ids !! (2 * i + 1)%nat
         = Some (glBindTexture GL_TEXTURE_2D id)).
Proof.
  apply (bind_unit_is_load_slot env_demo scene_textures (Some ∅) (λ _, 0)
           (replicate 7 true) world_scene).
  vm_compute. reflexivity.
Defined.

(** ** Lookups after loads *)

(** C6, counterexample.  The driver hands out the name 0xFFFFFFFF for the
    texture "wood"; the load succeeds and registers it in slot 0, and
    [FindTextureID] answers -1 for "wood": the handle, converted to [int],
    is the sentinel. *)
Lemma FindTextureID_sentinel_for_loaded_tag :
  load_all env_last_name [("textures/wood.jpg", "wood")] world_demo
    = Done ([true], world_last_name) ∧
  registered (scene world_last_name)
    = [{| tex_ID := 0xFFFFFFFF; tex_tag := "wood" |}] ∧
  FindTextureSlot (scene world_last_name) "wood" = Done 0 ∧
  FindTextureID (scene world_last_name) "wood" = Done (-1).
Proof. split_and!; by vm_compute. Qed.

(** C6, as amended.  After any run of loads on a new scene manager:
    for a tag that no accepted load carried, [FindTextureSlot] and
    [FindTextureID] answer -1; for a tag that an accepted load carried,
    with k the first such load among the accepted ones, [FindTextureSlot]
    answers k and [FindTextureID] answers the handle of slot k converted to
    [int], which is -1 exactly when that handle is 0xFFFFFFFF. *)
Theorem lookups_after_loads `{GLM} (env : Env)
    (loads : list (string * string)) (pShaderManager : option ShaderManager)
    (garbage : Z → Z) (bs : list bool) (w : World) (tag : string) :
  load_all env loads (new_world pShaderManager garbage) = Done (bs, w) →
  (tag ∉ loaded_tags env loads →
   FindTextureSlot (scene w) tag = Done (-1) ∧
   FindTextureID (scene w) tag = Done (-1)) ∧
  (tag ∈ loaded_tags env loads →
   ∃ (k : nat) (id : Z),
     loaded_tags env loads !! k = Some tag ∧
     (∀ j, (j < k)%nat → loaded_tags env loads !! j ≠ Some tag) ∧
     m_textureIDs (scene w) !! k = Some {| tex_ID := id; tex_tag := tag |} ∧
     FindTextureSlot (scene w) tag = Done (Z.of_nat k) ∧
     FindTextureID (scene w) tag = Done (int_of_GLuint id) ∧
     (int_of_GLuint id = -1 ↔ id = 0xFFFFFFFF)).
Proof.
  intros Hrun.
  destruct (loads_on_new_world _ _ _ _ _ _ Hrun)
    as (Hwf & ids & Hlen & Hids & Hreg).
  assert (tex_tag <$> registered (scene w) = loaded_tags env loads) as Htags.
  { rewrite Hreg. apply fmap_zip_with_r; [done | lia]. }
  rewrite FindTextureSlot_first, FindTextureID_first by done.
  unfold first_texture. split.
  - intros Hnot.
    assert (list_find (λ e, tex_tag e = tag) (registered (scene w)) = None)
      as ->; [|done].
    apply list_find_None, Forall_forall. intros e He Htag.
    apply Hnot. rewrite <- Htags, <- Htag. by apply list_elem_of_fmap_2.
  - intros Hin. rewrite <- Htags in Hin.
    apply list_elem_of_fmap in Hin as (e0 & Htag0 & He0).
    destruct (list_find_elem_of (λ e, tex_tag e = tag) _ e0 He0)
      as [[k e] Hfind]; [done|].
    rewrite Hfind.
    apply list_find_Some in Hfind as (Hk & Htag & Hfirst).
    pose proof Hk as Hzip. rewrite Hreg in Hzip.
    apply lookup_zip_with_Some in Hzip as (id & tag' & -> & Hid & Htag').
    simpl in Htag. subst tag'.
    exists k, id. split_and!; try done.
    + intros j Hj Hjtag. rewrite <- Htags, list_lookup_fmap in Hjtag.
      destruct (registered (scene w) !! j) as [e|] eqn:Hej; [|done].
      injection Hjtag as Hjtag. by apply (Hfirst j e).
    + unfold registered in Hk. by apply lookup_take_Some in Hk as [? _].
    + apply int_of_GLuint_sentinel.
      by apply (Forall_lookup_1 _ _ _ _ Hids Hid).
Qed.

Lemma lookups_after_loads_witness :
  ∃ (k : nat) (id : Z),
    loaded_tags env_demo scene_textures !! k = Some "stone" ∧
    (∀ j, (j < k)%nat → loaded_tags env_demo scene_textures !! j ≠ Some "stone") ∧
    m_textureIDs (scene world_scene) !! k
      = Some {| tex_ID := id; tex_tag := "stone" |} ∧
    FindTextureSlot (scene world_scene) "stone" = Done (Z.of_nat k) ∧
    FindTextureID (scene world_scene) "stone" = Done (int_of_GLuint id) ∧
    (int_of_GLuint id = -1 ↔ id = 0xFFFFFFFF).
Proof.
  apply (lookups_after_loads env_demo scene_textures (Some ∅) (λ _, 0)
           (replicate 7 true) world_scene "stone").
  - vm_compute. reflexivity.
  - vm_compute. apply list_elem_of_lookup. exists 1%nat. reflexivity.
Defined.

(** ** Capacity *)

(** C10.  [CreateGLTexture] tests no capacity.  With an accepted file it
    writes to slot [m_loadedTextures] whatever the count is: the call runs
    into the out-of-bounds write exactly when all [MAX_TEXTURES] = 16 slots
    are taken.  Hence a run of loads on a new scene manager goes wrong
    exactly when more than 16 of its loads are accepted, the seventeenth
    being the one that writes past the end. *)
Theorem CreateGLTexture_no_capacity_check `{GLM} (env : Env) :
  (∀ (filename tag : string) (w : World),
     wf_scene (scene w) → loadable env filename = true →
     (CreateGLTexture env filename tag w = Undefined
      ↔ m_loadedTextures (scene w) = MAX_TEXTURES) ∧
     (array_set (m_textureIDs (scene w)) (m_loadedTextures (scene w))
        {| tex_ID := load_name env filename w; tex_tag := tag |} = Undefined
      ↔ m_loadedTextures (scene w) = MAX_TEXTURES)) ∧
  (∀ (loads : list (string * string)) pShaderManager garbage,
     load_all env loads (new_world pShaderManager garbage) = Undefined
     ↔ MAX_TEXTURES < Z.of_nat (length (loaded_tags env loads))).
Proof.
  split.
  - intros filename tag w Hwf Hok.
    pose proof (CreateGLTexture_cases env filename tag w Hwf) as Hstep.
    rewrite Hok in Hstep. destruct Hwf as [Hn Hlen]. split.
    + case_decide.
      * destruct Hstep as [cs ->]. split; [done | lia].
      * split; [lia | done].
    + unfold array_set. rewrite Hlen.
      destruct (Z.leb_spec 0 (m_loadedTextures (scene w))); [|lia].
      destruct (Z.ltb_spec (m_loadedTextures (scene w)) MAX_TEXTURES);
        simpl; split; (done || lia).
  - intros loads pShaderManager garbage.
    pose proof (load_all_from env loads (new_world pShaderManager garbage)
                  (new_world_wf _ _)) as Hall.
    change (m_loadedTextures (scene (new_world pShaderManager garbage)))
      with 0 in Hall.
    case_decide.
    + destruct Hall as (w' & ids & -> & _). split; [done | lia].
    + split; [lia | done].
Qed.

Lemma CreateGLTexture_no_capacity_check_witness :
  load_all env_demo (replicate 17 ("textures/wood.jpg", "wood")) world_demo
  = Undefined.
Proof.
  apply (CreateGLTexture_no_capacity_check env_demo).
  vm_compute. reflexivity.
Defined.

(** ** State pushes *)

(** Without a shader manager, both pushes leave the world as it is. *)
Lemma pushes_without_shader `{GLM} (w : World) :
  m_pShaderManager (scene w) = None →
  (∀ r g b a, SetShaderColor r g b a w = Done (tt, w)) ∧
  (∀ textureTag, SetShaderTexture textureTag w = Done (tt, w)) ∧
  (∀ s x y z p, SetTransformations s x y z p w = Done (tt, w)).
Proof.
  intros Hnull.
  unfold SetShaderColor, SetShaderTexture, SetTransformations, if_shader,
    bind_M, get_scene, ret_M.
  cbn. by rewrite Hnull.
Qed.

(** C8, counterexample.  A scene manager constructed with a null shader
    manager: [SetShaderColor] and [SetShaderTexture] complete and leave the
    object as it was, without a shader manager, so no texture flag has been
    set to any value. *)
Lemma pushes_set_no_flag_without_shader :
  SetShaderColor (Lit 1000) (Lit 500) (Lit 250) (Lit 1000)
    (new_world None (λ _, 0))
  = Done (tt, new_world None (λ _, 0)) ∧
  SetShaderTexture "wood" (new_world None (λ _, 0))
  = Done (tt, new_world None (λ _, 0)) ∧
  m_pShaderManager (scene (new_world None (λ _, 0))) = None ∧
  ¬ (∃ w' shader',
       SetShaderColor (Lit 1000) (Lit 500) (Lit 250) (Lit 1000)
         (new_world None (λ _, 0)) = Done (tt, w') ∧
       m_pShaderManager (scene w') = Some shader' ∧
       shader' !! g_UseTextureName = Some (IntValue 0)).
Proof.
  assert (SetShaderColor (Lit 1000) (Lit 500) (Lit 250) (Lit 1000)
            (new_world None (λ _, 0))
          = Done (tt, new_world None (λ _, 0))) as Hcolor by reflexivity.
  split_and!; [exact Hcolor | reflexivity | reflexivity |].
  intros (w' & shader' & Hrun & Hshader & _).
  rewrite Hcolor in Hrun. injection Hrun as <-. discriminate Hshader.
Qed.

(** C8, as amended.  What the two pushes do depends on the test of
    [m_pShaderManager] that guards their bodies.  With a shader manager
    attached, [SetShaderColor] ends with the uniform "bUseTexture" set to 0
    (false) and "objectColor" set to the given colour, and
    [SetShaderTexture] ends with "bUseTexture" set to 1 (true) and
    "objectTexture" set to the answer of [FindTextureSlot].  With a null
    shader manager both complete and change nothing. *)
Theorem texture_flag_after_color_and_texture `{GLM} (w : World) :
  wf_scene (scene w) →
  (∀ shader,
     m_pShaderManager (scene w) = Some shader →
     (∀ r g b a, ∃ w' shader',
        SetShaderColor r g b a w = Done (tt, w') ∧
        m_pShaderManager (scene w') = Some shader' ∧
        shader' !! g_UseTextureName = Some (IntValue 0) ∧
        shader' !! g_ColorValueName = Some (Vec4Value (Vec4 r g b a))) ∧
     (∀ textureTag, ∃ w' shader' slot,
        SetShaderTexture textureTag w = Done (tt, w') ∧
        m_pShaderManager (scene w') = Some shader' ∧
        shader' !! g_UseTextureName = Some (IntValue 1) ∧
        FindTextureSlot (scene w) textureTag = Done slot ∧
        shader' !! g_TextureValueName = Some (Sampler2DValue slot))) ∧
  (m_pShaderManager (scene w) = None →
   (∀ r g b a, SetShaderColor r g b a w = Done (tt, w)) ∧
   (∀ textureTag, SetShaderTexture textureTag w = Done (tt, w))).
Proof.
  intros Hwf. split; [|intros Hnull; split; by apply pushes_without_shader].
  intros shader Hshader. split.
  - intros r g b a.
    exists {| scene := {| m_pShaderManager :=
                            Some (<[g_ColorValueName := Vec4Value (Vec4 r g b a)]>
                                 (<[g_UseTextureName := IntValue 0]> shader));
                          m_textureIDs := m_textureIDs (scene w);
                          m_loadedTextures := m_loadedTextures (scene w);
                          m_objectMaterials := m_objectMaterials (scene w) |};
              calls := calls w |}.
    eexists. split; [|split; [reflexivity|]].
    + unfold SetShaderColor, if_shader, setIntValue, setVec4Value,
        set_uniform, bind_M, get_scene, put_scene.
      cbv beta. cbn [mbind outcome_bind].
      do 2 (rewrite Hshader; cbn [mbind outcome_bind scene m_pShaderManager]).
      done.
    + unfold ShaderManager in *.
      split; [by rewrite lookup_insert_ne, lookup_insert_eq|].
      by rewrite lookup_insert_eq.
  - intros textureTag.
    destruct (FindTextureSlot (scene w) textureTag) as [slot| |] eqn:Hslot;
      [|by rewrite FindTextureSlot_first in Hslot..].
    exists {| scene := {| m_pShaderManager :=
                            Some (<[g_TextureValueName := Sampler2DValue slot]>
                                 (<[g_UseTextureName := IntValue 1]> shader));
                          m_textureIDs := m_textureIDs (scene w);
                          m_loadedTextures := m_loadedTextures (scene w);
                          m_objectMaterials := m_objectMaterials (scene w) |};
              calls := calls w |}.
    eexists _, slot. split; [|split; [reflexivity|]].
    + unfold SetShaderTexture, if_shader, setIntValue, setSampler2DValue,
        set_uniform, bind_M, get_scene, put_scene, lift.
      cbv beta. cbn [mbind outcome_bind].
      do 2 (rewrite Hshader; cbn [mbind outcome_bind scene m_pShaderManager]).
      change (FindTextureSlot _ textureTag)
        with (FindTextureSlot (scene w) textureTag).
      rewrite Hslot. cbn [mbind outcome_bind mret outcome_ret scene
                          m_pShaderManager]. done.
    + unfold ShaderManager in *.
      split; [by rewrite lookup_insert_ne, lookup_insert_eq|].
      split; [done|]. by rewrite lookup_insert_eq.
Qed.

Lemma texture_flag_after_color_and_texture_witness :
  (∃ w' shader',
     SetShaderColor (Lit 1000) (Lit 500) (Lit 250) (Lit 1000) world_wood
       = Done (tt, w') ∧
     m_pShaderManager (scene w') = Some shader' ∧
     shader' !! g_UseTextureName = Some (IntValue 0) ∧
     shader' !! g_ColorValueName
       = Some (Vec4Value (Vec4 (Lit 1000) (Lit 500) (Lit 250) (Lit 1000)))) ∧
  SetShaderTexture "wood" (new_world None (λ _, 0))
  = Done (tt, new_world None (λ _, 0)).
Proof.
  assert (wf_scene (scene world_wood)) as Hwf
    by (vm_compute; split; [split|]; (discriminate || reflexivity)).
  assert (m_pShaderManager (scene world_wood) = Some ∅) as Hshader
    by (vm_compute; reflexivity).
  split.
  - exact (proj1 (proj1 (texture_flag_after_color_and_texture world_wood Hwf)
                    ∅ Hshader) _ _ _ _).
  - exact (proj2 (proj2 (texture_flag_after_color_and_texture
                           (new_world None (λ _, 0)) (new_world_wf _ _))
                    eq_refl) "wood").
Defined.

(** ** The model matrix *)

(** The product of exact integer matrices obeys the law of column
    vectors. *)
Lemma imat4_vec_mul : @column_vectors GLM_integers GLMVectors_integers.
Proof.
  intros [[] [] [] []] [[] [] [] []] [x y z t].
  unfold mat4_vec, mat4_mul; cbn -[Z.add Z.mul].
  unfold imat4_mul, imat4_vec, ivec_add, ivec_scale; cbn -[Z.add Z.mul].
  f_equal; ring.
Qed.

(** C4.  The matrix that [SetTransformations] computes, and stores in the
    uniform "model" when a shader manager is attached, is the product
    translation * rotationZ * rotationY * rotationX * scale, multiplied from
    left to right as C++ evaluates it, where the rotations are built from
    the angles converted by [glm::radians] about the axes (1,0,0), (0,1,0)
    and (0,0,1).  Where the product of matrices obeys the law of column
    vectors, the matrix applied to a column vector scales it first, then
    rotates it about x, then about y, then about z, and translates it
    last. *)
Theorem SetTransformations_model_matrix `{GLMVectors} (w : World)
    (scaleXYZ : vec3 float)
    (XrotationDegrees YrotationDegrees ZrotationDegrees : float)
    (positionXYZ : vec3 float) :
  let scale := glm_scale scaleXYZ in
  let rotationX :=
    glm_rotate (glm_radians XrotationDegrees) (Vec3 float_1 float_0 float_0) in
  let rotationY :=
    glm_rotate (glm_radians YrotationDegrees) (Vec3 float_0 float_1 float_0) in
  let rotationZ :=
    glm_rotate (glm_radians ZrotationDegrees) (Vec3 float_0 float_0 float_1) in
  let translation := glm_translate positionXYZ in
  let product :=
    mat4_mul
      (mat4_mul (mat4_mul (mat4_mul translation rotationZ) rotationY)
         rotationX)
      scale in
  modelView scaleXYZ XrotationDegrees YrotationDegrees ZrotationDegrees
    positionXYZ = product ∧
  (column_vectors →
   ∀ v : vec4 float,
     mat4_vec product v
     = mat4_vec translation
         (mat4_vec rotationZ
            (mat4_vec rotationY (mat4_vec rotationX (mat4_vec scale v))))) ∧
  ∃ w',
    SetTransformations scaleXYZ XrotationDegrees YrotationDegrees
      ZrotationDegrees positionXYZ w = Done (tt, w') ∧
    m_pShaderManager (scene w')
      = <[g_ModelName := Mat4Value product]> <$> m_pShaderManager (scene w) ∧
    m_textureIDs (scene w') = m_textureIDs (scene w) ∧
    m_loadedTextures (scene w') = m_loadedTextures (scene w) ∧
    m_objectMaterials (scene w') = m_objectMaterials (scene w) ∧
    calls w' = calls w.
Proof.
  intros scale rotationX rotationY rotationZ translation product.
  split; [done|]. split.
  - intros Hcolumns v. unfold product. by rewrite !Hcolumns.
  - unfold SetTransformations, if_shader, setMat4Value, set_uniform, bind_M,
      get_scene, put_scene, ret_M.
    cbn. destruct (m_pShaderManager (scene w)) as [shader|] eqn:Hshader; cbn.
    + rewrite Hshader. cbn. eexists. split; [done|]. by cbn.
    + exists w. by rewrite Hshader.
Qed.

(** The point (1, 0, 0) under scale 2, a quarter turn about z and the
    translation by (10, 0, 0): scaled to (2, 0, 0), turned to (0, 2, 0),
    moved to (10, 2, 0).  The factors multiplied in the opposite order send
    it to (0, 22, 0) instead. *)
Lemma SetTransformations_model_matrix_witness :
  @column_vectors GLM_integers GLMVectors_integers ∧
  @mat4_vec GLM_integers GLMVectors_integers
    (@modelView GLM_integers (Vec3 2 2 2) 0 0 90 (Vec3 10 0 0))
    (Vec4 1 0 0 1)
  = Vec4 10 2 0 1 ∧
  imat4_vec
    (imat4_mul
       (imat4_mul
          (imat4_mul
             (imat4_mul (iscale (Vec3 2 2 2)) (irotate 0 (Vec3 1 0 0)))
             (irotate 0 (Vec3 0 1 0)))
          (irotate 90 (Vec3 0 0 1)))
       (itranslate (Vec3 10 0 0)))
    (Vec4 1 0 0 1)
  = Vec4 0 22 0 1.
Proof.
  split; [exact imat4_vec_mul|]. split; [|vm_compute; reflexivity].
  pose proof (@SetTransformations_model_matrix GLM_integers
                GLMVectors_integers (@new_world GLM_integers None (λ _, 0))
                (Vec3 2 2 2) 0 0 90 (Vec3 10 0 0)) as Hmodel.
  cbv zeta in Hmodel. destruct Hmodel as (-> & Hvectors & _).
  rewrite (Hvectors imat4_vec_mul). vm_compute. reflexivity.
Defined.

(** * Further properties of the methods *)

(** ** The two texture lookups on any well-formed object *)

(** X1.  The two lookups agree: either no occupied slot carries the tag and
    both answer -1, or [FindTextureSlot] answers an occupied slot, the first
    one that carries the tag, and [FindTextureID] answers the handle stored
    in that very slot (converted to [int]). *)
Theorem FindTextureSlot_FindTextureID_agree `{GLM}
    (sm : SceneManager) (tag : string) :
  wf_scene sm →
  ∃ slot,
    FindTextureSlot sm tag = Done slot ∧
    ((slot = -1 ∧
      FindTextureID sm tag = Done (-1) ∧
      ∀ e, e ∈ registered sm → tex_tag e ≠ tag) ∨
     (0 ≤ slot < m_loadedTextures sm ∧
      ∃ e, m_textureIDs sm !! Z.to_nat slot = Some e ∧
           tex_tag e = tag ∧
           FindTextureID sm tag = Done (int_of_GLuint (tex_ID e)) ∧
           ∀ (j : nat) e', (j < Z.to_nat slot)%nat →
                           m_textureIDs sm !! j = Some e' →
                           tex_tag e' ≠ tag)).
Proof.
  intros Hwf. rewrite FindTextureSlot_first, FindTextureID_first by done.
  unfold first_texture.
  destruct (list_find _ _) as [[k e]|] eqn:Hfind.
  - exists (Z.of_nat k). split; [done|]. right.
    apply list_find_Some in Hfind as (Hk & Htag & Hfirst).
    unfold registered in Hk, Hfirst.
    apply lookup_take_Some in Hk as [Hk Hlt].
    split; [lia|]. exists e. rewrite Nat2Z.id. split_and!; [done..|].
    intros j e' Hj He'. apply (Hfirst j e'); [|done].
    apply lookup_take_Some. split; [done | lia].
  - exists (-1). split; [done|]. left. split_and!; [done..|].
    apply list_find_None in Hfind. by apply Forall_forall.
Qed.

Lemma FindTextureSlot_FindTextureID_agree_witness :
  ∃ slot,
    FindTextureSlot (scene world_scene) "table" = Done slot ∧
    ((slot = -1 ∧
      FindTextureID (scene world_scene) "table" = Done (-1) ∧
      ∀ e, e ∈ registered (scene world_scene) → tex_tag e ≠ "table") ∨
     (0 ≤ slot < m_loadedTextures (scene world_scene) ∧
      ∃ e, m_textureIDs (scene world_scene) !! Z.to_nat slot = Some e ∧
           tex_tag e = "table" ∧
           FindTextureID (scene world_scene) "table"
             = Done (int_of_GLuint (tex_ID e)) ∧
           ∀ (j : nat) e', (j < Z.to_nat slot)%nat →
                           m_textureIDs (scene world_scene) !! j = Some e' →
                           tex_tag e' ≠ "table")).
Proof.
  apply (FindTextureSlot_FindTextureID_agree (scene world_scene) "table").
  vm_compute. split; [split|]; (discriminate || reflexivity).
Defined.

(** ** One load, seen from the lookups *)

Section OneLoad.
Context `{GLM}.
Implicit Types (env : Env) (w : World).

(** What a call that returns has done to the object. *)
Lemma CreateGLTexture_Done env filename tag w b w' :
  wf_scene (scene w) →
  CreateGLTexture env filename tag w = Done (b, w') →
  wf_scene (scene w') ∧
  ((b = false ∧ loadable env filename = false ∧ scene w' = scene w) ∨
   (b = true ∧ loadable env filename = true ∧
    m_loadedTextures (scene w) < MAX_TEXTURES ∧
    scene w' = register (load_name env filename w) tag (scene w))).
Proof.
  intros Hwf Hrun.
  pose proof (CreateGLTexture_cases env filename tag w Hwf) as Hstep.
  destruct (loadable env filename).
  - case_decide; [|congruence].
    destruct Hstep as [cs Hstep]. rewrite Hstep in Hrun.
    injection Hrun as <- <-. split; [by apply register_wf|]. right. done.
  - destruct Hstep as [cs Hstep]. rewrite Hstep in Hrun.
    injection Hrun as <- <-. split; [done|]. by left.
Qed.

(** A supported image with a free slot: the exact calls of the load. *)
Lemma CreateGLTexture_success_calls env filename tag w img :
  decode env filename = Some img →
  colorChannels img = 3 ∨ colorChannels img = 4 →
  wf_scene (scene w) →
  m_loadedTextures (scene w) < MAX_TEXTURES →
  CreateGLTexture env filename tag w =
  Done (true,
        {| scene := register (load_name env filename w) tag (scene w);
           calls := calls w
                    ++ decode_calls filename (load_name env filename w)
                    ++ upload_calls img |}).
Proof.
  intros Hdec Hch [Hn Hlen] Hlt.
  destruct (lookup_lt_is_Some_2 (m_textureIDs (scene w))
              (Z.to_nat (m_loadedTextures (scene w)))) as [e He]; [lia|].
  assert (∀ (a : list TEXTURE_INFO) x,
            length a = length (m_textureIDs (scene w)) →
            array_set a (m_loadedTextures (scene w)) x =
            Done (<[Z.to_nat (m_loadedTextures (scene w)) := x]> a)) as Hset.
  { intros a x Ha. unfold array_set. rewrite Ha.
    destruct (Z.leb_spec 0 (m_loadedTextures (scene w))); [|lia].
    by destruct (Z.ltb_spec (m_loadedTextures (scene w))
                   (Z.of_nat (length (m_textureIDs (scene w))))); [|lia]. }
  unfold CreateGLTexture, stbi_load_call, glGenTextures_1, update_slot,
    get_scene, put_scene, lift, bind_M, emit, ret_M.
  simpl. rewrite Hdec. simpl.
  unfold upload_calls, decode_calls, load_name, register.
  destruct Hch as [Hch|Hch]; rewrite Hch; simpl;
    rewrite (array_get_Some _ _ e) by (done || lia); simpl;
    rewrite Hset by done; simpl;
    rewrite (array_get_Some _ _ {| tex_ID := to_GLuint (driver_name env
               ((calls w ++ [stbi_set_flip_vertically_on_load true])
                ++ [stbi_load filename])); tex_tag := tex_tag e |})
      by (lia || (apply list_lookup_insert_eq; lia));
    simpl; rewrite Hset by (by rewrite length_insert); simpl;
    rewrite int_incr_Done by (unfold INT_MAX, MAX_TEXTURES in *; lia); simpl;
    rewrite list_insert_insert_eq, <- !app_assoc; reflexivity.
Qed.

(** The calls of any load that answers [true]. *)
Lemma CreateGLTexture_true_calls env filename tag w w' :
  wf_scene (scene w) →
  CreateGLTexture env filename tag w = Done (true, w') →
  ∃ img,
    decode env filename = Some img ∧
    (colorChannels img = 3 ∨ colorChannels img = 4) ∧
    calls w' = calls w ++ decode_calls filename (load_name env filename w)
                       ++ upload_calls img.
Proof.
  intros Hwf Hrun.
  destruct (CreateGLTexture_Done _ _ _ _ _ _ Hwf Hrun)
    as (_ & [(? & _) | (_ & Hok & Hlt & _)]); [done|].
  unfold loadable in Hok.
  destruct (decode env filename) as [img|] eqn:Hdec; [|done].
  assert (colorChannels img = 3 ∨ colorChannels img = 4) as Hch.
  { apply orb_true_iff in Hok as [?%Z.eqb_eq | ?%Z.eqb_eq]; auto. }
  rewrite (CreateGLTexture_success_calls _ _ _ _ img) in Hrun by done.
  injection Hrun as <-. by exists img.
Qed.

End OneLoad.

(** X2.  A load never disturbs what the lookups already find: whatever the
    call returns, a tag that [FindTextureSlot] resolved before the call
    resolves to the same slot after it, and [FindTextureID] gives the same
    answer as before.  In particular a second load under a tag already
    registered is shadowed by the first. *)
Theorem CreateGLTexture_keeps_lookups `{GLM} (env : Env)
    (filename tag : string) (w w' : World) (b : bool)
    (tag' : string) (slot : Z) :
  wf_scene (scene w) →
  CreateGLTexture env filename tag w = Done (b, w') →
  FindTextureSlot (scene w) tag' = Done slot →
  slot ≠ -1 →
  FindTextureSlot (scene w') tag' = Done slot ∧
  FindTextureID (scene w') tag' = FindTextureID (scene w) tag'.
Proof.
  intros Hwf Hrun Hslot Hfound.
  destruct (CreateGLTexture_Done _ _ _ _ _ _ Hwf Hrun)
    as (Hwf' & [(_ & _ & Hsame) | (_ & _ & Hlt & Hreg)]).
  { rewrite Hsame. done. }
  rewrite FindTextureSlot_first in Hslot by done.
  rewrite !FindTextureSlot_first, !FindTextureID_first by done.
  unfold first_texture in *.
  rewrite Hreg, registered_register by done.
  destruct (list_find _ (registered (scene w))) as [[k e]|] eqn:Hfind;
    [|congruence].
  by rewrite (list_find_app_l _ _ _ _ _ Hfind).
Qed.

Lemma CreateGLTexture_keeps_lookups_witness :
  FindTextureSlot (scene world_wood_twice) "wood" = Done 0 ∧
  FindTextureID (scene world_wood_twice) "wood"
    = FindTextureID (scene world_wood) "wood".
Proof.
  apply (CreateGLTexture_keeps_lookups env_demo "textures/alpha.png" "wood"
           world_wood world_wood_twice true "wood" 0).
  - vm_compute. split; [split|]; (discriminate || reflexivity).
  - vm_compute. reflexivity.
  - vm_compute. reflexivity.
  - discriminate.
Defined.

(** X3.  Load, then look up: after a successful load under a tag that was
    not registered before, [FindTextureSlot] answers the slot the load
    filled, which is the count before the call, and [FindTextureID] answers
    the handle [glGenTextures] produced in the call. *)
Theorem CreateGLTexture_then_lookup `{GLM} (env : Env)
    (filename tag : string) (w w' : World) :
  wf_scene (scene w) →
  CreateGLTexture env filename tag w = Done (true, w') →
  (∀ e, e ∈ registered (scene w) → tex_tag e ≠ tag) →
  m_loadedTextures (scene w') = m_loadedTextures (scene w) + 1 ∧
  FindTextureSlot (scene w') tag = Done (m_loadedTextures (scene w)) ∧
  FindTextureID (scene w') tag
    = Done (int_of_GLuint (load_name env filename w)) ∧
  glGenTextures 1 (load_name env filename w) ∈ calls w'.
Proof.
  intros Hwf Hrun Hfresh.
  destruct (CreateGLTexture_Done _ _ _ _ _ _ Hwf Hrun)
    as (Hwf' & [(? & _) | (_ & Hok & Hlt & Hreg)]); [done|].
  split; [by rewrite Hreg|].
  rewrite FindTextureSlot_first, FindTextureID_first by done.
  unfold first_texture. rewrite Hreg, registered_register by done.
  assert (list_find (λ e, tex_tag e = tag) (registered (scene w)) = None)
    as Hnone by (by apply list_find_None, Forall_forall).
  rewrite list_find_app_r by done. cbn.
  rewrite decide_True by done. cbn.
  assert (length (registered (scene w)) = Z.to_nat (m_loadedTextures (scene w)))
    as Hlen.
  { unfold registered. rewrite length_take. destruct Hwf. lia. }
  rewrite Hlen. split; [f_equal; destruct Hwf; lia|]. split; [done|].
  destruct (CreateGLTexture_true_calls _ _ _ _ _ Hwf Hrun)
    as (img & _ & _ & ->).
  rewrite !elem_of_app. right. left.
  unfold decode_calls. rewrite !elem_of_cons. auto.
Qed.

Lemma CreateGLTexture_then_lookup_witness :
  m_loadedTextures (scene world_wood_stone)
    = m_loadedTextures (scene world_wood) + 1 ∧
  FindTextureSlot (scene world_wood_stone) "stone"
    = Done (m_loadedTextures (scene world_wood)) ∧
  FindTextureID (scene world_wood_stone) "stone"
    = Done (int_of_GLuint (load_name env_demo "textures/stone.jpg" world_wood)) ∧
  glGenTextures 1 (load_name env_demo "textures/stone.jpg" world_wood)
    ∈ calls world_wood_stone.
Proof.
  apply (CreateGLTexture_then_lookup env_demo "textures/stone.jpg" "stone"
           world_wood world_wood_stone).
  - vm_compute. split; [split|]; (discriminate || reflexivity).
  - vm_compute. reflexivity.
  - intros e He. vm_compute in He.
    apply list_elem_of_singleton in He as ->. discriminate.
Defined.

(** X4.  What a load does to its resources.  A load that answers [true]
    has issued the set-up calls followed by the upload in the format of the
    channel count, the mipmap generation, [stbi_image_free] of the decoded
    image and the unbinding.  A load that fails on the channel count has
    generated, bound and configured a texture and ends there: the image is
    not released and the texture stays bound.  A load that fails to decode
    has issued no OpenGL call at all. *)
Theorem CreateGLTexture_resources `{GLM} (env : Env)
    (filename tag : string) (w w' : World) (b : bool) :
  wf_scene (scene w) →
  CreateGLTexture env filename tag w = Done (b, w') →
  match decode env filename with
  | None =>
      b = false ∧
      calls w' = calls w ++ [stbi_set_flip_vertically_on_load true;
                             stbi_load filename]
  | Some img =>
      if (colorChannels img =? 3) || (colorChannels img =? 4) then
        b = true ∧
        calls w' = calls w
                   ++ decode_calls filename (load_name env filename w)
                   ++ upload_calls img
      else
        b = false ∧
        calls w' = calls w
                   ++ decode_calls filename (load_name env filename w) ∧
        (stbi_image_free img
           ∉ (decode_calls filename (load_name env filename w))) ∧
        last (calls w')
          = Some (glTexParameteri GL_TEXTURE_2D GL_TEXTURE_MAG_FILTER GL_LINEAR)
  end.
Proof.
  intros Hwf Hrun.
  destruct (decode env filename) as [img|] eqn:Hdec.
  - destruct ((colorChannels img =? 3) || (colorChannels img =? 4)) eqn:Hok.
    + assert (loadable env filename = true) as Hload
        by (unfold loadable; by rewrite Hdec).
      destruct b;
        [|by destruct (CreateGLTexture_loadable_not_false env filename tag w w')].
      split; [done|].
      destruct (CreateGLTexture_true_calls _ _ _ _ _ Hwf Hrun)
        as (img' & Hdec' & _ & ->).
      rewrite Hdec in Hdec'. by injection Hdec' as <-.
    + apply orb_false_iff in Hok as [H3%Z.eqb_neq H4%Z.eqb_neq].
      rewrite (CreateGLTexture_unsupported _ _ _ _ img) in Hrun by done.
      injection Hrun as <- <-. cbn [calls]. split_and!; [done..| |].
      * unfold decode_calls. intros Hin.
        repeat (apply elem_of_cons in Hin as [Hin|Hin]; [discriminate|]).
        by apply elem_of_nil in Hin.
      * unfold decode_calls.
        rewrite last_app. reflexivity.
  - rewrite CreateGLTexture_unreadable in Hrun by done.
    by injection Hrun as <- <-.
Qed.

Lemma CreateGLTexture_resources_witness :
  false = false ∧
  calls world_gray_tried
    = calls world_wood
      ++ decode_calls "textures/gray.png"
           (load_name env_demo "textures/gray.png" world_wood) ∧
  (stbi_image_free (image_of 1)
     ∉ (decode_calls "textures/gray.png"
          (load_name env_demo "textures/gray.png" world_wood))) ∧
  last (calls world_gray_tried)
    = Some (glTexParameteri GL_TEXTURE_2D GL_TEXTURE_MAG_FILTER GL_LINEAR).
Proof.
  apply (CreateGLTexture_resources env_demo "textures/gray.png" "gray"
           world_wood world_gray_tried false).
  - vm_compute. split; [split|]; (discriminate || reflexivity).
  - vm_compute. reflexivity.
Defined.

(** ** Teardown, seen from the lookups *)

Section TeardownObject.
Context `{GLM}.
Implicit Types (env : Env) (w : World) (sm : SceneManager).

(** [FindTextureSlot] reads the tags of the occupied slots and nothing
    else. *)
Lemma FindTextureSlot_by_tags sm sm' tag :
  wf_scene sm → wf_scene sm' →
  tex_tag <$> registered sm = tex_tag <$> registered sm' →
  FindTextureSlot sm tag = FindTextureSlot sm' tag.
Proof.
  intros Hwf Hwf' Htags. rewrite !FindTextureSlot_first by done.
  unfold first_texture.
  pose proof (list_find_fmap tex_tag (λ t, t = tag) (registered sm)) as Hl.
  pose proof (list_find_fmap tex_tag (λ t, t = tag) (registered sm')) as Hr.
  rewrite Htags, Hr in Hl.
  change ((λ t, t = tag) ∘ tex_tag) with (λ e, tex_tag e = tag) in Hl.
  destruct (list_find (λ e, tex_tag e = tag) (registered sm)) as [[k e]|],
    (list_find (λ e, tex_tag e = tag) (registered sm')) as [[k' e']|];
    simpl in Hl; congruence.
Qed.

(** Teardown, in full: every member but the handles is kept. *)
Lemma DestroyGLTextures_object env w :
  wf_scene (scene w) →
  ∃ w' names,
    DestroyGLTextures env w = Done (tt, w') ∧
    calls w' = calls w ++ (glGenTextures 1 <$> names) ∧
    length names = Z.to_nat (m_loadedTextures (scene w)) ∧
    m_pShaderManager (scene w') = m_pShaderManager (scene w) ∧
    m_objectMaterials (scene w') = m_objectMaterials (scene w) ∧
    m_loadedTextures (scene w') = m_loadedTextures (scene w) ∧
    tex_tag <$> m_textureIDs (scene w') = tex_tag <$> m_textureIDs (scene w) ∧
    tex_ID <$> registered (scene w') = names.
Proof.
  intros [Hn Hlen]. unfold DestroyGLTextures.
  destruct (for_int_rule
    (λ i w',
       m_pShaderManager (scene w') = m_pShaderManager (scene w) ∧
       m_objectMaterials (scene w') = m_objectMaterials (scene w) ∧
       m_loadedTextures (scene w') = m_loadedTextures (scene w) ∧
       tex_tag <$> m_textureIDs (scene w') = tex_tag <$> m_textureIDs (scene w) ∧
       ∃ names,
         length names = Z.to_nat i ∧
         calls w' = calls w ++ (glGenTextures 1 <$> names) ∧
         tex_ID <$> take (Z.to_nat i) (m_textureIDs (scene w')) = names)
    (m_loadedTextures (scene w))
    (Z.to_nat (m_loadedTextures (scene w)))
    (λ w, m_loadedTextures (scene w))
    (λ i, bind_M (glGenTextures_1 env) (λ name,
          update_slot i (λ e, {| tex_ID := name; tex_tag := tex_tag e |}))) w)
    as (w' & -> & Hsh & Hmat & Hcount & Htags & names & Hnames & Hcalls & Hids).
  - unfold INT_MAX, MAX_TEXTURES in *. lia.
  - done.
  - split_and!; [done..|]. exists []. simpl. by rewrite app_nil_r.
  - by intros i w1 (_ & _ & -> & _).
  - intros i w1 Hi (Hsh & Hmat & Hcount & Htags & names & Hnames & Hcalls & Hids).
    assert (length (m_textureIDs (scene w1)) = length (m_textureIDs (scene w)))
      as Hlen1 by (by rewrite <- (length_fmap tex_tag), Htags, length_fmap).
    destruct (lookup_lt_is_Some_2 (m_textureIDs (scene w1)) (Z.to_nat i))
      as [e He]; [lia|].
    unfold bind_M, glGenTextures_1, update_slot, emit, get_scene, put_scene,
      lift. cbn.
    rewrite (array_get_Some _ _ e) by (done || lia). cbn.
    unfold array_set.
    destruct (Z.leb_spec 0 i); [|lia].
    destruct (Z.ltb_spec i (Z.of_nat (length (m_textureIDs (scene w1)))));
      [|lia].
    cbn. eexists. split; [done|]. cbn. split_and!; [done..| |].
    + rewrite list_fmap_insert. cbn. rewrite list_insert_id; [done|].
      by rewrite list_lookup_fmap, He.
    + exists (names ++ [to_GLuint (driver_name env (calls w1))]).
      rewrite length_app, fmap_app, Hcalls, <- app_assoc. cbn.
      split; [lia|]. split; [done|].
      replace (Z.to_nat (i + 1)) with (S (Z.to_nat i)) by lia.
      rewrite (take_S_r _ _ {| tex_ID := to_GLuint (driver_name env
                 (calls w ++ (glGenTextures 1 <$> names))); tex_tag := tex_tag e |})
        by (rewrite <- Hcalls; apply list_lookup_insert_eq; lia).
      by rewrite take_insert_ge, fmap_app, Hids by lia.
  - exists w', names. unfold registered. rewrite Hcount. by split_and!.
Qed.

End TeardownObject.

(** X5.  [DestroyGLTextures] empties nothing.  It completes on every
    well-formed object; the count, the tags, the materials and the shader
    manager are as before, so [FindTextureSlot] answers every tag as it did
    before teardown; only the handles have changed, each to a name that
    [glGenTextures] produced during teardown. *)
Theorem DestroyGLTextures_keeps_slots `{GLM} (env : Env) (w : World) :
  wf_scene (scene w) →
  ∃ w',
    DestroyGLTextures env w = Done (tt, w') ∧
    wf_scene (scene w') ∧
    m_loadedTextures (scene w') = m_loadedTextures (scene w) ∧
    m_pShaderManager (scene w') = m_pShaderManager (scene w) ∧
    m_objectMaterials (scene w') = m_objectMaterials (scene w) ∧
    (∀ tag, FindTextureSlot (scene w') tag = FindTextureSlot (scene w) tag) ∧
    (∀ e, e ∈ registered (scene w') →
          glGenTextures 1 (tex_ID e) ∈ drop (length (calls w)) (calls w')).
Proof.
  intros Hwf.
  destruct (DestroyGLTextures_object env w Hwf)
    as (w' & names & Hrun & Hcalls & Hlen & Hsh & Hmat & Hcount & Htags & Hids).
  assert (wf_scene (scene w')) as Hwf'.
  { destruct Hwf as [Hn Hl]. split; [by rewrite Hcount|].
    by rewrite <- (length_fmap tex_tag), Htags, length_fmap. }
  exists w'. split_and!; [done..| |].
  - intros tag. apply FindTextureSlot_by_tags; [done..|].
    unfold registered. by rewrite Hcount, !fmap_take, Htags.
  - intros e He. rewrite Hcalls, drop_app_length.
    apply list_elem_of_fmap. exists (tex_ID e). split; [done|].
    rewrite <- Hids. by apply list_elem_of_fmap_2.
Qed.

Lemma DestroyGLTextures_keeps_slots_witness :
  ∃ w',
    DestroyGLTextures env_demo world_scene = Done (tt, w') ∧
    wf_scene (scene w') ∧
    m_loadedTextures (scene w') = m_loadedTextures (scene world_scene) ∧
    m_pShaderManager (scene w') = m_pShaderManager (scene world_scene) ∧
    m_objectMaterials (scene w') = m_objectMaterials (scene world_scene) ∧
    (∀ tag, FindTextureSlot (scene w') tag
            = FindTextureSlot (scene world_scene) tag) ∧
    (∀ e, e ∈ registered (scene w') →
          glGenTextures 1 (tex_ID e)
            ∈ drop (length (calls world_scene)) (calls w')).
Proof.
  apply (DestroyGLTextures_keeps_slots env_demo world_scene).
  vm_compute. split; [split|]; (discriminate || reflexivity).
Defined.

(** ** The state pushes, as updates of the uniforms *)

Section Pushes.
Context `{GLM}.
Implicit Types (w : World) (shader : ShaderManager).

Lemma set_uniform_run name v w shader :
  m_pShaderManager (scene w) = Some shader →
  set_uniform name v w = Done (tt, set_shader (<[name := v]> shader) w).
Proof.
  intros Hsh. unfold set_uniform, bind_M, get_scene, put_scene.
  cbn [mbind outcome_bind]. by rewrite Hsh.
Qed.

Lemma if_shader_run (body : M unit) w shader :
  m_pShaderManager (scene w) = Some shader →
  if_shader body w = body w.
Proof.
  intros Hsh. unfold if_shader, bind_M, get_scene.
  cbn [mbind outcome_bind]. by rewrite Hsh.
Qed.

Lemma if_shader_null (body : M unit) w :
  m_pShaderManager (scene w) = None →
  if_shader body w = Done (tt, w).
Proof.
  intros Hsh. unfold if_shader, bind_M, get_scene, ret_M.
  cbn [mbind outcome_bind]. by rewrite Hsh.
Qed.

Lemma set_shader_shader shader w :
  m_pShaderManager (scene (set_shader shader w)) = Some shader.
Proof. done. Qed.

Lemma set_shader_set_shader shader shader' w :
  set_shader shader' (set_shader shader w) = set_shader shader' w.
Proof. done. Qed.

Lemma set_shader_wf shader w :
  wf_scene (scene w) → wf_scene (scene (set_shader shader w)).
Proof. done. Qed.

Lemma slot_of_set_shader shader w tag :
  slot_of (scene (set_shader shader w)) tag = slot_of (scene w) tag.
Proof. done. Qed.

Lemma FindTextureSlot_slot_of (sm : SceneManager) tag :
  wf_scene sm → FindTextureSlot sm tag = Done (slot_of sm tag).
Proof.
  intros Hwf. rewrite FindTextureSlot_first by done. unfold slot_of.
  by destruct (first_texture sm tag) as [[k e]|].
Qed.

Lemma SetShaderColor_run r g b a w shader :
  m_pShaderManager (scene w) = Some shader →
  SetShaderColor r g b a w
  = Done (tt, set_shader (<[g_ColorValueName := Vec4Value (Vec4 r g b a)]>
                         (<[g_UseTextureName := IntValue 0]> shader)) w).
Proof.
  intros Hsh. unfold SetShaderColor.
  rewrite (if_shader_run _ _ _ Hsh). unfold bind_M, setIntValue, setVec4Value.
  rewrite (set_uniform_run _ _ _ _ Hsh). cbn [mbind outcome_bind].
  by rewrite (set_uniform_run _ _ _ _ (set_shader_shader _ _)).
Qed.

Lemma SetShaderTexture_run textureTag w shader :
  m_pShaderManager (scene w) = Some shader →
  wf_scene (scene w) →
  SetShaderTexture textureTag w
  = Done (tt, set_shader
                (<[g_TextureValueName :=
                     Sampler2DValue (slot_of (scene w) textureTag)]>
                (<[g_UseTextureName := IntValue 1]> shader)) w).
Proof.
  intros Hsh Hwf. unfold SetShaderTexture.
  rewrite (if_shader_run _ _ _ Hsh).
  unfold bind_M, setIntValue, setSampler2DValue, get_scene, lift.
  rewrite (set_uniform_run _ _ _ _ Hsh). cbn [mbind outcome_bind].
  rewrite FindTextureSlot_slot_of by by apply set_shader_wf.
  cbn [mbind outcome_bind mret outcome_ret].
  by rewrite (set_uniform_run _ _ _ _ (set_shader_shader _ _)).
Qed.

Lemma SetTextureUVScale_run u v w shader :
  m_pShaderManager (scene w) = Some shader →
  SetTextureUVScale u v w
  = Done (tt, set_shader (<["UVscale" := Vec2Value (Vec2 u v)]> shader) w).
Proof.
  intros Hsh. unfold SetTextureUVScale.
  rewrite (if_shader_run _ _ _ Hsh). unfold setVec2Value.
  by rewrite (set_uniform_run _ _ _ _ Hsh).
Qed.

Lemma SetTransformations_run s x y z p w shader :
  m_pShaderManager (scene w) = Some shader →
  SetTransformations s x y z p w
  = Done (tt, set_shader
                (<[g_ModelName := Mat4Value (modelView s x y z p)]> shader) w).
Proof.
  intros Hsh. unfold SetTransformations.
  rewrite (if_shader_run _ _ _ Hsh). unfold setMat4Value.
  by rewrite (set_uniform_run _ _ _ _ Hsh).
Qed.

End Pushes.

(** X6.  [SetShaderTexture] with a shader manager attached always switches
    texturing on and pushes what the registry gives for the tag: the slot
    of the first entry that carries it, which lies below the count, or -1
    when no occupied slot carries the tag (an unknown tag is not reported;
    the invalid sampler index is pushed). *)
Theorem SetShaderTexture_pushes_slot_or_sentinel `{GLM}
    (w : World) (shader : ShaderManager) (textureTag : string) :
  m_pShaderManager (scene w) = Some shader →
  wf_scene (scene w) →
  ∃ shader' slot,
    SetShaderTexture textureTag w = Done (tt, set_shader shader' w) ∧
    shader' !! g_UseTextureName = Some (IntValue 1) ∧
    shader' !! g_TextureValueName = Some (Sampler2DValue slot) ∧
    ((slot = -1 ∧ ∀ e, e ∈ registered (scene w) → tex_tag e ≠ textureTag) ∨
     (0 ≤ slot < m_loadedTextures (scene w) ∧
      ∃ e, m_textureIDs (scene w) !! Z.to_nat slot = Some e ∧
           tex_tag e = textureTag)).
Proof.
  intros Hsh Hwf. rewrite (SetShaderTexture_run _ _ _ Hsh Hwf).
  eexists _, _. split; [done|]. unfold ShaderManager in *.
  split; [by rewrite lookup_insert_ne, lookup_insert_eq|].
  split; [by rewrite lookup_insert_eq|].
  unfold slot_of, first_texture.
  destruct (list_find _ _) as [[k e]|] eqn:Hfind.
  - right. apply list_find_Some in Hfind as (Hk & Htag & _).
    unfold registered in Hk. apply lookup_take_Some in Hk as [Hk Hlt].
    split; [lia|]. exists e. by rewrite Nat2Z.id.
  - left. split; [done|]. apply list_find_None in Hfind.
    by apply Forall_forall.
Qed.

Lemma SetShaderTexture_pushes_slot_or_sentinel_witness :
  ∃ shader' slot,
    SetShaderTexture "marble" world_scene = Done (tt, set_shader shader' world_scene) ∧
    shader' !! g_UseTextureName = Some (IntValue 1) ∧
    shader' !! g_TextureValueName = Some (Sampler2DValue slot) ∧
    ((slot = -1 ∧
      ∀ e, e ∈ registered (scene world_scene) → tex_tag e ≠ "marble") ∨
     (0 ≤ slot < m_loadedTextures (scene world_scene) ∧
      ∃ e, m_textureIDs (scene world_scene) !! Z.to_nat slot = Some e ∧
           tex_tag e = "marble")).
Proof.
  apply (SetShaderTexture_pushes_slot_or_sentinel world_scene ∅ "marble").
  - vm_compute. reflexivity.
  - vm_compute. split; [split|]; (discriminate || reflexivity).
Defined.

(** X7.  Each state push writes its own uniforms and nothing else: with a
    shader manager attached, [SetShaderColor] changes only "bUseTexture"
    and "objectColor", [SetShaderTexture] only "bUseTexture" and
    "objectTexture", [SetTextureUVScale] only "UVscale" and
    [SetTransformations] only "model"; every other uniform keeps its value,
    and the registry, the materials and the call log are untouched. *)
Theorem state_pushes_frame `{GLM} (w : World) (shader : ShaderManager) :
  m_pShaderManager (scene w) = Some shader →
  wf_scene (scene w) →
  (∀ r g b a, ∃ shader',
     SetShaderColor r g b a w = Done (tt, set_shader shader' w) ∧
     ∀ name, name ≠ g_UseTextureName → name ≠ g_ColorValueName →
             shader' !! name = shader !! name) ∧
  (∀ textureTag, ∃ shader',
     SetShaderTexture textureTag w = Done (tt, set_shader shader' w) ∧
     ∀ name, name ≠ g_UseTextureName → name ≠ g_TextureValueName →
             shader' !! name = shader !! name) ∧
  (∀ u v, ∃ shader',
     SetTextureUVScale u v w = Done (tt, set_shader shader' w) ∧
     shader' !! "UVscale" = Some (Vec2Value (Vec2 u v)) ∧
     ∀ name, name ≠ "UVscale" → shader' !! name = shader !! name) ∧
  (∀ s x y z p, ∃ shader',
     SetTransformations s x y z p w = Done (tt, set_shader shader' w) ∧
     ∀ name, name ≠ g_ModelName → shader' !! name = shader !! name).
Proof.
  intros Hsh Hwf. split_and!.
  - intros r g b a. rewrite (SetShaderColor_run _ _ _ _ _ _ Hsh).
    eexists. split; [done|]. unfold ShaderManager in *. intros name H1 H2.
    by rewrite !lookup_insert_ne.
  - intros textureTag. rewrite (SetShaderTexture_run _ _ _ Hsh Hwf).
    eexists. split; [done|]. unfold ShaderManager in *. intros name H1 H2.
    by rewrite !lookup_insert_ne.
  - intros u v. rewrite (SetTextureUVScale_run _ _ _ _ Hsh).
    eexists. split; [done|]. unfold ShaderManager in *. split; [by rewrite lookup_insert_eq|].
    intros name H1. by rewrite lookup_insert_ne.
  - intros s x y z p. rewrite (SetTransformations_run _ _ _ _ _ _ _ Hsh).
    eexists. split; [done|]. unfold ShaderManager in *. intros name H1. by rewrite lookup_insert_ne.
Qed.

Lemma state_pushes_frame_witness :
  ∃ shader',
    SetTextureUVScale (Lit 4000) (Lit 4000) world_scene
      = Done (tt, set_shader shader' world_scene) ∧
    shader' !! "UVscale" = Some (Vec2Value (Vec2 (Lit 4000) (Lit 4000))) ∧
    ∀ name, name ≠ "UVscale" → shader' !! name = (∅ : ShaderManager) !! name.
Proof.
  apply (state_pushes_frame world_scene ∅).
  - vm_compute. reflexivity.
  - vm_compute. split; [split|]; (discriminate || reflexivity).
Defined.

(** X8.  Colour and texture exclude each other through the flag alone, and
    the later push wins: after [SetShaderColor] then [SetShaderTexture] the
    flag is 1 and the colour is still stored; after [SetShaderTexture] then
    [SetShaderColor] the flag is 0 and the sampler index of the texture is
    still stored. *)
Theorem color_texture_last_push_wins `{GLM}
    (w : World) (shader : ShaderManager)
    (r g b a : float) (textureTag : string) :
  m_pShaderManager (scene w) = Some shader →
  wf_scene (scene w) →
  (∃ shader',
     bind_M (SetShaderColor r g b a) (λ _, SetShaderTexture textureTag) w
       = Done (tt, set_shader shader' w) ∧
     shader' !! g_UseTextureName = Some (IntValue 1) ∧
     shader' !! g_ColorValueName = Some (Vec4Value (Vec4 r g b a)) ∧
     shader' !! g_TextureValueName
       = Some (Sampler2DValue (slot_of (scene w) textureTag))) ∧
  (∃ shader',
     bind_M (SetShaderTexture textureTag) (λ _, SetShaderColor r g b a) w
       = Done (tt, set_shader shader' w) ∧
     shader' !! g_UseTextureName = Some (IntValue 0) ∧
     shader' !! g_ColorValueName = Some (Vec4Value (Vec4 r g b a)) ∧
     shader' !! g_TextureValueName
       = Some (Sampler2DValue (slot_of (scene w) textureTag))).
Proof.
  intros Hsh Hwf. split.
  - unfold bind_M. rewrite (SetShaderColor_run _ _ _ _ _ _ Hsh).
    cbn [mbind outcome_bind].
    rewrite (SetShaderTexture_run _ _ _ (set_shader_shader _ _)
               (set_shader_wf _ _ Hwf)).
    rewrite set_shader_set_shader, slot_of_set_shader.
    eexists. split; [done|]. unfold ShaderManager in *.
    split_and!.
    + by rewrite lookup_insert_ne, lookup_insert_eq.
    + by rewrite !lookup_insert_ne, lookup_insert_eq by done.
    + by rewrite lookup_insert_eq.
  - unfold bind_M. rewrite (SetShaderTexture_run _ _ _ Hsh Hwf).
    cbn [mbind outcome_bind].
    rewrite (SetShaderColor_run _ _ _ _ _ _ (set_shader_shader _ _)).
    rewrite set_shader_set_shader.
    eexists. split; [done|]. unfold ShaderManager in *.
    split_and!.
    + by rewrite lookup_insert_ne, lookup_insert_eq.
    + by rewrite lookup_insert_eq.
    + by rewrite !lookup_insert_ne, lookup_insert_eq by done.
Qed.

Lemma color_texture_last_push_wins_witness :
  ∃ shader',
    bind_M (SetShaderTexture "stone")
      (λ _, SetShaderColor (Lit 1000) (Lit 0) (Lit 0) (Lit 1000)) world_scene
      = Done (tt, set_shader shader' world_scene) ∧
    shader' !! g_UseTextureName = Some (IntValue 0) ∧
    shader' !! g_ColorValueName
      = Some (Vec4Value (Vec4 (Lit 1000) (Lit 0) (Lit 0) (Lit 1000))) ∧
    shader' !! g_TextureValueName
      = Some (Sampler2DValue (slot_of (scene world_scene) "stone")).
Proof.
  apply (color_texture_last_push_wins world_scene ∅
           (Lit 1000) (Lit 0) (Lit 0) (Lit 1000) "stone").
  - vm_compute. reflexivity.
  - vm_compute. split; [split|]; (discriminate || reflexivity).
Defined.

(** ** Materials *)

Section Materials.
Context `{GLM}.
Implicit Types (w : World) (sm : SceneManager).

Lemma first_material_Some sm tag (k : nat) (e : OBJECT_MATERIAL) :
  m_objectMaterials sm !! k = Some e →
  mat_tag e = tag →
  (∀ (j : nat) e', (j < k)%nat → m_objectMaterials sm !! j = Some e' →
                   mat_tag e' ≠ tag) →
  first_material sm tag = Some (k, e).
Proof.
  intros Hk Htag Hfirst. unfold first_material. apply list_find_Some.
  split_and!; [done..|]. intros j y Hy Hj. by apply (Hfirst j).
Qed.

End Materials.

(** X9.  [FindMaterial] copies from the first record that carries the tag:
    its diffuse colour, specular colour and shininess go to the output
    record, whose own tag field is left as the caller passed it; records
    with the same tag further on are never reached. *)
Theorem FindMaterial_copies_first_match `{GLM} (sm : SceneManager)
    (tag : string) (material : OBJECT_MATERIAL)
    (k : nat) (e : OBJECT_MATERIAL) :
  Z.of_nat (length (m_objectMaterials sm)) ≤ INT_MAX →
  m_objectMaterials sm !! k = Some e →
  mat_tag e = tag →
  (∀ (j : nat) e', (j < k)%nat → m_objectMaterials sm !! j = Some e' →
                   mat_tag e' ≠ tag) →
  FindMaterial sm tag material =
  Done (true, {| diffuseColor := diffuseColor e;
                 specularColor := specularColor e;
                 shininess := shininess e;
                 mat_tag := mat_tag material |}).
Proof.
  intros Hmax Hk Htag Hfirst.
  rewrite FindMaterial_nonempty; [|by intros Hnil; rewrite Hnil in Hk|done].
  by rewrite (first_material_Some sm tag k e).
Qed.

Lemma FindMaterial_copies_first_match_witness :
  FindMaterial (scene world_two_clays) "clay" stale =
  Done (true, {| diffuseColor := diffuseColor clay;
                 specularColor := specularColor clay;
                 shininess := shininess clay;
                 mat_tag := mat_tag stale |}).
Proof.
  apply (FindMaterial_copies_first_match (scene world_two_clays) "clay" stale
           1%nat clay).
  - vm_compute. discriminate.
  - reflexivity.
  - reflexivity.
  - intros j e' Hj He'. destruct j as [|j]; [|lia].
    vm_compute in He'. injection He' as <-. discriminate.
Defined.

(** X10.  [SetShaderMaterial] with a shader manager attached and a record
    with the tag registered sets "material.diffuseColor",
    "material.specularColor" and "material.shininess" to the values of the
    first such record, and leaves every other uniform and the rest of the
    world as it was. *)
Theorem SetShaderMaterial_pushes_first_match `{GLM} (w : World)
    (shader : ShaderManager) (indeterminate : OBJECT_MATERIAL)
    (materialTag : string) (k : nat) (e : OBJECT_MATERIAL) :
  m_pShaderManager (scene w) = Some shader →
  Z.of_nat (length (m_objectMaterials (scene w))) ≤ INT_MAX →
  m_objectMaterials (scene w) !! k = Some e →
  mat_tag e = materialTag →
  (∀ (j : nat) e', (j < k)%nat →
                   m_objectMaterials (scene w) !! j = Some e' →
                   mat_tag e' ≠ materialTag) →
  ∃ shader',
    SetShaderMaterial indeterminate materialTag w
      = Done (tt, set_shader shader' w) ∧
    shader' !! "material.diffuseColor" = Some (Vec3Value (diffuseColor e)) ∧
    shader' !! "material.specularColor" = Some (Vec3Value (specularColor e)) ∧
    shader' !! "material.shininess" = Some (FloatValue (shininess e)) ∧
    ∀ name, name ≠ "material.diffuseColor" →
            name ≠ "material.specularColor" →
            name ≠ "material.shininess" →
            shader' !! name = shader !! name.
Proof.
  intros Hsh Hmax Hk Htag Hfirst.
  unfold SetShaderMaterial, bind_M, get_scene, lift.
  cbn [mbind outcome_bind].
  destruct (Z.gtb_spec (Z.of_nat (length (m_objectMaterials (scene w)))) 0)
    as [_|Hempty].
  2:{ apply lookup_lt_Some in Hk. lia. }
  rewrite FindMaterial_nonempty; [|by intros Hnil; rewrite Hnil in Hk|done].
  rewrite (first_material_Some _ materialTag k e) by done.
  cbn [mbind outcome_bind mret outcome_ret fst snd diffuseColor specularColor
       shininess].
  unfold setVec3Value, setFloatValue.
  rewrite (set_uniform_run _ _ _ _ Hsh). cbn [mbind outcome_bind].
  rewrite (set_uniform_run _ _ _ _ (set_shader_shader _ _)).
  cbn [mbind outcome_bind].
  rewrite (set_uniform_run _ _ _ _ (set_shader_shader _ _)).
  rewrite !set_shader_set_shader.
  eexists. split; [done|]. unfold ShaderManager in *. split_and!.
  - by rewrite !lookup_insert_ne, lookup_insert_eq by done.
  - by rewrite lookup_insert_ne, lookup_insert_eq.
  - by rewrite lookup_insert_eq.
  - intros name H1 H2 H3. by rewrite !lookup_insert_ne.
Qed.

Lemma SetShaderMaterial_pushes_first_match_witness :
  ∃ shader',
    SetShaderMaterial stale "clay" world_two_clays
      = Done (tt, set_shader shader' world_two_clays) ∧
    shader' !! "material.diffuseColor" = Some (Vec3Value (diffuseColor clay)) ∧
    shader' !! "material.specularColor" = Some (Vec3Value (specularColor clay)) ∧
    shader' !! "material.shininess" = Some (FloatValue (shininess clay)) ∧
    ∀ name, name ≠ "material.diffuseColor" →
            name ≠ "material.specularColor" →
            name ≠ "material.shininess" →
            shader' !! name = (∅ : ShaderManager) !! name.
Proof.
  apply (SetShaderMaterial_pushes_first_match world_two_clays ∅ stale "clay"
           1%nat clay).
  - reflexivity.
  - vm_compute. discriminate.
  - reflexivity.
  - reflexivity.
  - intros j e' Hj He'. destruct j as [|j]; [|lia].
    vm_compute in He'. injection He' as <-. discriminate.
Defined.

(** X11.  [SetShaderMaterial] has no test of [m_pShaderManager], unlike the
    other pushes: with a null shader manager and a material registry that
    is not empty, it dereferences the null pointer, whether or not a record
    carries the tag.  With an empty material registry it does nothing at
    all, shader manager or not. *)
Theorem SetShaderMaterial_null_shader `{GLM} (w : World)
    (indeterminate : OBJECT_MATERIAL) (materialTag : string) :
  Z.of_nat (length (m_objectMaterials (scene w))) ≤ INT_MAX →
  (m_objectMaterials (scene w) = [] →
   SetShaderMaterial indeterminate materialTag w = Done (tt, w)) ∧
  (m_objectMaterials (scene w) ≠ [] →
   m_pShaderManager (scene w) = None →
   SetShaderMaterial indeterminate materialTag w = Undefined).
Proof.
  intros Hmax. split.
  - intros Hnil. unfold SetShaderMaterial, bind_M, get_scene, ret_M.
    cbn [mbind outcome_bind]. by rewrite Hnil.
  - intros Hne Hnull.
    unfold SetShaderMaterial, bind_M, get_scene, lift.
    cbn [mbind outcome_bind].
    destruct (Z.gtb_spec (Z.of_nat (length (m_objectMaterials (scene w)))) 0)
      as [_|Hempty].
    2:{ destruct (m_objectMaterials (scene w)); [done | simpl in Hempty; lia]. }
    rewrite FindMaterial_nonempty by done.
    cbn [mbind outcome_bind mret outcome_ret fst snd].
    unfold setVec3Value, set_uniform, bind_M, get_scene, lift.
    cbn [mbind outcome_bind]. by rewrite Hnull.
Qed.

Lemma SetShaderMaterial_null_shader_witness :
  SetShaderMaterial stale "clay" world_clay_no_shader = Undefined.
Proof.
  apply (SetShaderMaterial_null_shader world_clay_no_shader stale "clay").
  - vm_compute. discriminate.
  - discriminate.
  - reflexivity.
Defined.

(** ** Runs of the scene director *)

Section PushLists.
Context `{FloatLiterals}.
Implicit Types (shader : ShaderManager) (pushes : list (string * uniform)).

Lemma push_all_app pushes pushes' shader :
  push_all (pushes ++ pushes') shader = push_all pushes' (push_all pushes shader).
Proof. unfold push_all. by rewrite foldl_app. Qed.

Lemma push_all_snoc pushes name v shader :
  push_all (pushes ++ [(name, v)]) shader = <[name := v]> (push_all pushes shader).
Proof. by rewrite push_all_app. Qed.

(** What a uniform holds after a list of pushes. *)
Lemma lookup_push_all pushes shader name :
  push_all pushes shader !! name =
  match last_push name pushes with
  | Some v => Some v
  | None => shader !! name
  end.
Proof.
  unfold ShaderManager in *. revert shader.
  induction pushes as [|[n v] pushes IH]; intros shader; [done|].
  change (push_all ((n, v) :: pushes) shader)
    with (push_all pushes (<[n := v]> shader)).
  rewrite IH. cbn [last_push].
  destruct (last_push name pushes); [done|].
  destruct (String.eqb_spec n name) as [->|Hne].
  - by rewrite lookup_insert_eq.
  - by rewrite lookup_insert_ne.
Qed.

Lemma last_push_None pushes name :
  last_push name pushes = None ↔ name ∉ pushes.*1.
Proof.
  induction pushes as [|[n v] pushes IH]; cbn [last_push fmap list_fmap fst].
  - split; [intros _; apply not_elem_of_nil | done].
  - rewrite not_elem_of_cons, <- IH.
    destruct (last_push name pushes); [by split; [|intros [_ ?]]|].
    destruct (String.eqb_spec n name) as [->|Hne].
    + by split; [|intros [? _]].
    + split; [split; [congruence | done] | done].
Qed.

Lemma names_within_elem (names names' : list string) :
  names_within names names' = true → ∀ n, n ∈ names → n ∈ names'.
Proof.
  unfold names_within. rewrite forallb_forall. intros Hall n Hn.
  apply list_elem_of_In in Hn. specialize (Hall n Hn).
  apply existsb_exists in Hall as (n' & Hn' & ->%String.eqb_eq).
  by apply list_elem_of_In.
Qed.

(** Pushes whose names are all pushed again afterwards leave no trace. *)
Lemma push_all_absorb pushes pushes' shader :
  (∀ n, n ∈ pushes.*1 → n ∈ pushes'.*1) →
  push_all pushes' (push_all pushes shader) = push_all pushes' shader.
Proof.
  intros Hsub. apply (map_eq (M := gmap string)). intros name.
  rewrite !lookup_push_all.
  destruct (last_push name pushes') eqn:Hlast; [done|].
  apply last_push_None in Hlast.
  assert (last_push name pushes = None) as ->; [|done].
  apply last_push_None. intros Hin. by apply Hlast, Hsub.
Qed.

End PushLists.

Section Staging.
Context `{FloatLiterals}.
Implicit Types (w : World) (shader : ShaderManager).

Lemma for_int_from_step (fuel : nat) (start : Z) (bound : World → Z)
    (body : Z → M unit) w :
  (start <? bound w) = true →
  for_int_from (S fuel) start bound body w =
  '(_, w') ← body start w;
  i' ← int_incr start;
  for_int_from fuel i' bound body w'.
Proof.
  intros Hc. unfold for_int_from. cbn [while]. rewrite Hc.
  destruct (body start w) as [[[] w']| |]; [|done..].
  cbn [mbind outcome_bind]. by destruct (int_incr start).
Qed.

Lemma for_int_from_exit (fuel : nat) (start : Z) (bound : World → Z)
    (body : Z → M unit) w :
  (start <? bound w) = false →
  for_int_from fuel start bound body w = Done (tt, w).
Proof. intros Hc. unfold for_int_from. destruct fuel; cbn [while]; by rewrite Hc. Qed.

Lemma pushes_set_uniform w0 name v :
  pushes_on w0 (set_uniform name v) [(name, v)].
Proof. intros shader. by rewrite (set_uniform_run _ _ _ shader). Qed.

Lemma pushes_bind w0 (m : M unit) (k : unit → M unit) new new' :
  pushes_on w0 m new → pushes_on w0 (k tt) new' →
  pushes_on w0 (bind_M m k) (new ++ new').
Proof.
  intros Hm Hk shader. unfold bind_M. rewrite Hm. cbn [mbind outcome_bind].
  by rewrite Hk, push_all_app.
Qed.

Lemma pushes_if_shader w0 (body : M unit) new :
  pushes_on w0 body new → pushes_on w0 (if_shader body) new.
Proof. intros Hb shader. by rewrite (if_shader_run _ _ shader). Qed.

Lemma pushes_SetTransformations w0 s x y z p :
  pushes_on w0 (SetTransformations s x y z p)
    [(g_ModelName, Mat4Value (modelView s x y z p))].
Proof. intros shader. by rewrite (SetTransformations_run _ _ _ _ _ _ shader). Qed.

Lemma pushes_SetTextureUVScale w0 u v :
  pushes_on w0 (SetTextureUVScale u v) [("UVscale", Vec2Value (Vec2 u v))].
Proof. intros shader. by rewrite (SetTextureUVScale_run _ _ _ shader). Qed.

Lemma pushes_SetShaderTexture w0 (slot : string → Z) textureTag :
  wf_scene (scene w0) →
  (∀ tag, slot_of (scene w0) tag = slot tag) →
  pushes_on w0 (SetShaderTexture textureTag)
    [(g_UseTextureName, IntValue 1);
     (g_TextureValueName, Sampler2DValue (slot textureTag))].
Proof.
  intros Hwf Hslot shader.
  rewrite (SetShaderTexture_run _ _ shader)
    by (done || by apply set_shader_wf).
  rewrite set_shader_set_shader. by rewrite slot_of_set_shader, Hslot.
Qed.

(** The loop that switches four point lights off. *)
Lemma pushes_for_1_to_4 w0 (name : Z → string) :
  pushes_on w0 (for_int_from 4 1 (λ _, 5) (λ i, setIntValue (name i) 0))
    [(name 1, IntValue 0); (name 2, IntValue 0);
     (name 3, IntValue 0); (name 4, IntValue 0)].
Proof.
  intros shader. unfold setIntValue.
  rewrite (for_int_from_step 3 1) by done.
  rewrite (set_uniform_run _ _ _ _ (set_shader_shader _ _)).
  rewrite (int_incr_Done 1) by done. cbn [mbind outcome_bind].
  rewrite (for_int_from_step 2 (1 + 1)) by done.
  rewrite (set_uniform_run _ _ _ _ (set_shader_shader _ _)).
  rewrite (int_incr_Done (1 + 1)) by done. cbn [mbind outcome_bind].
  rewrite (for_int_from_step 1 (1 + 1 + 1)) by done.
  rewrite (set_uniform_run _ _ _ _ (set_shader_shader _ _)).
  rewrite (int_incr_Done (1 + 1 + 1)) by done. cbn [mbind outcome_bind].
  rewrite (for_int_from_step 0 (1 + 1 + 1 + 1)) by done.
  rewrite (set_uniform_run _ _ _ _ (set_shader_shader _ _)).
  rewrite (int_incr_Done (1 + 1 + 1 + 1)) by done. cbn [mbind outcome_bind].
  by rewrite for_int_from_exit.
Qed.

Lemma staged_nil shader (st : Stage) :
  m_pShaderManager (scene (world st)) = Some shader →
  staged shader st [] [] = st.
Proof.
  destruct st as [[[sh a n ms] cs] log]. cbn. intros ->.
  unfold staged, set_shader. cbn. by rewrite app_nil_r.
Qed.

Lemma runs_on_world shader (st : Stage) (m : M unit) new pushes draws :
  pushes_on (world st) m new →
  runs_on shader st (on_world m) pushes draws (pushes ++ new) draws.
Proof.
  intros Hm. unfold runs_on, on_world, staged. cbn [world m_basicMeshes].
  rewrite Hm. cbn [mbind outcome_bind mret outcome_ret].
  by rewrite push_all_app.
Qed.

Lemma runs_mesh shader (st : Stage) (call : mesh_call) pushes draws :
  runs_on shader st (mesh call) pushes draws pushes (draws ++ [(call, pushes)]).
Proof.
  unfold runs_on, mesh, staged. cbn [world m_basicMeshes scene set_shader
                                     m_pShaderManager].
  by rewrite fmap_app, app_assoc.
Qed.

Lemma runs_bind shader (st : Stage) (m : MS unit) (k : unit → MS unit)
    pushes draws pushes1 draws1 pushes2 draws2 :
  runs_on shader st m pushes draws pushes1 draws1 →
  runs_on shader st (k tt) pushes1 draws1 pushes2 draws2 →
  runs_on shader st (bind_MS m k) pushes draws pushes2 draws2.
Proof.
  unfold runs_on, bind_MS. intros -> Hk. by cbn [mbind outcome_bind].
Qed.

End Staging.

Ltac solve_pushes :=
  lazymatch goal with
  | |- pushes_on _ (if_shader _) _ => eapply pushes_if_shader; solve_pushes
  | |- pushes_on _ (bind_M _ _) _ =>
      eapply pushes_bind; [solve_pushes | cbv beta; solve_pushes]
  | |- pushes_on _ (SetTransformations _ _ _ _ _) _ =>
      apply pushes_SetTransformations
  | |- pushes_on _ (SetTextureUVScale _ _) _ => apply pushes_SetTextureUVScale
  | |- pushes_on _ (SetShaderTexture _) _ =>
      eapply pushes_SetShaderTexture; eassumption
  | |- pushes_on _ (for_int_from _ _ _ _) _ =>
      apply (pushes_for_1_to_4 _
               (λ i, "pointLights[" +:+ to_string i +:+ "].bActive"))
  | |- pushes_on _ (setIntValue _ _) _ => apply pushes_set_uniform
  | |- pushes_on _ (setFloatValue _ _) _ => apply pushes_set_uniform
  | |- pushes_on _ (setVec3Value _ _) _ => apply pushes_set_uniform
  end.

Ltac solve_runs :=
  lazymatch goal with
  | |- runs_on _ _ (bind_MS _ _) _ _ _ _ =>
      eapply runs_bind; [solve_runs | cbv beta; solve_runs]
  | |- runs_on _ _ (on_world _) _ _ _ _ => eapply runs_on_world; solve_pushes
  | |- runs_on _ _ (mesh _) _ _ _ _ => apply runs_mesh
  end.

(** [RenderScene] with a shader manager attached, as a list of pushes and a
    list of draws that depend on the registry through the slots of the
    tags only. *)
Lemma RenderScene_script `{FloatLiterals} (slot : string → Z) :
  ∃ pushes draws,
    (∀ shader st,
       wf_scene (scene (world st)) →
       (∀ tag, slot_of (scene (world st)) tag = slot tag) →
       runs_on shader st RenderScene [] [] pushes draws) ∧
    Forall2 (λ obj d,
               d.1 = obj.1 ∧
               last_push g_UseTextureName d.2 = Some (IntValue 1) ∧
               last_push g_TextureValueName d.2
                 = Some (Sampler2DValue (slot obj.2)) ∧
               last_push g_UseLightingName d.2 = Some (IntValue 1))
      scene_objects draws ∧
    Forall (λ d, names_within pushes.*1 d.2.*1 = true) draws.
Proof.
  eexists _, _. split.
  { intros shader st Hwf Hslot. unfold RenderScene. cbv zeta. solve_runs. }
  split.
  - vm_compute. repeat constructor.
  - repeat (constructor; [by vm_compute|]). constructor.
Qed.

Section NullShader.
Context `{FloatLiterals}.

Lemma on_world_idle (m : M unit) (st : Stage) :
  m (world st) = Done (tt, world st) →
  on_world m st = Done (tt, st).
Proof. intros Hm. unfold on_world. rewrite Hm. by destruct st. Qed.

Lemma mesh_without_shader (call : mesh_call) (st : Stage) :
  m_pShaderManager (scene (world st)) = None →
  mesh call st =
  Done (tt, {| world := world st;
               m_basicMeshes := m_basicMeshes st ++ [(call, None)] |}).
Proof. intros Hnull. unfold mesh. by rewrite Hnull. Qed.

Lemma SetTextureUVScale_null u v (w : World) :
  m_pShaderManager (scene w) = None →
  SetTextureUVScale u v w = Done (tt, w).
Proof. intros Hnull. unfold SetTextureUVScale. by apply if_shader_null. Qed.

End NullShader.

(** [RenderScene] without a shader manager: every push is skipped and the
    thirteen draws are issued all the same. *)
Lemma RenderScene_null `{FloatLiterals} (st : Stage) :
  m_pShaderManager (scene (world st)) = None →
  RenderScene st =
  Done (tt, {| world := world st;
               m_basicMeshes :=
                 m_basicMeshes st ++ ((λ obj, (obj.1, None)) <$> scene_objects) |}).
Proof.
  intros Hnull.
  destruct (pushes_without_shader (world st) Hnull) as (_ & Htex & Htrans).
  unfold RenderScene. cbv zeta. unfold bind_MS.
  repeat (first
    [ rewrite on_world_idle
        by first [ by apply if_shader_null | by apply Htrans | by apply Htex
                 | by apply SetTextureUVScale_null ]
    | rewrite mesh_without_shader by done ];
    cbn [mbind outcome_bind world m_basicMeshes]).
  by rewrite <- !app_assoc.
Qed.

Lemma Forall2_fmap_eq {A B C} (f : B → C) (g : A → C) (P : A → B → Prop)
    (l : list A) (k : list B) :
  (∀ x y, P x y → f y = g x) → Forall2 P l k → f <$> k = g <$> l.
Proof.
  intros HP Hall. induction Hall as [|x y l k Hxy _ IH]; [done|].
  cbn. by rewrite (HP x y Hxy), IH.
Qed.

Section RenderRuns.
Context `{FloatLiterals}.

(** The run of [RenderScene] on a stage with a shader manager, with the
    registry read through [slot_of]. *)
Lemma RenderScene_staged (st : Stage) (shader : ShaderManager) :
  m_pShaderManager (scene (world st)) = Some shader →
  wf_scene (scene (world st)) →
  ∃ pushes draws,
    RenderScene st = Done (tt, staged shader st pushes draws) ∧
    (∀ shader' st',
       m_pShaderManager (scene (world st')) = Some shader' →
       wf_scene (scene (world st')) →
       (∀ tag, slot_of (scene (world st')) tag
               = slot_of (scene (world st)) tag) →
       RenderScene st' = Done (tt, staged shader' st' pushes draws)) ∧
    Forall2 (λ obj d,
               d.1 = obj.1 ∧
               last_push g_UseTextureName d.2 = Some (IntValue 1) ∧
               last_push g_TextureValueName d.2
                 = Some (Sampler2DValue (slot_of (scene (world st)) obj.2)) ∧
               last_push g_UseLightingName d.2 = Some (IntValue 1))
      scene_objects draws ∧
    Forall (λ d, ∀ n, n ∈ pushes.*1 → n ∈ d.2.*1) draws.
Proof.
  intros Hsh Hwf.
  destruct (RenderScene_script (slot_of (scene (world st))))
    as (pushes & draws & Hrun & Hdraws & Hnames).
  exists pushes, draws.
  assert (∀ shader' st',
            m_pShaderManager (scene (world st')) = Some shader' →
            wf_scene (scene (world st')) →
            (∀ tag, slot_of (scene (world st')) tag
                    = slot_of (scene (world st)) tag) →
            RenderScene st' = Done (tt, staged shader' st' pushes draws))
    as Hany.
  { intros shader' st' Hsh' Hwf' Hslot.
    specialize (Hrun shader' st' Hwf' Hslot). unfold runs_on in Hrun.
    by rewrite (staged_nil _ _ Hsh') in Hrun. }
  split_and!; [by apply Hany | done | done |].
  eapply Forall_impl; [exact Hnames|].
  intros d Hd. by apply names_within_elem.
Qed.

End RenderRuns.

(** X12.  [RenderScene] completes on every well-formed stage, with or
    without a shader manager and whatever the texture and material
    registries hold.  It issues its thirteen draw calls in the fixed order
    and leaves the texture registry, the materials and the log of OpenGL
    calls untouched; only uniforms change, and only if there is a shader
    manager. *)
Theorem RenderScene_completes `{FloatLiterals} (st : Stage) :
  wf_scene (scene (world st)) →
  ∃ st',
    RenderScene st = Done (tt, st') ∧
    m_textureIDs (scene (world st')) = m_textureIDs (scene (world st)) ∧
    m_loadedTextures (scene (world st'))
      = m_loadedTextures (scene (world st)) ∧
    m_objectMaterials (scene (world st'))
      = m_objectMaterials (scene (world st)) ∧
    calls (world st') = calls (world st) ∧
    (m_pShaderManager (scene (world st)) = None → world st' = world st) ∧
    (is_Some (m_pShaderManager (scene (world st)))
       → is_Some (m_pShaderManager (scene (world st')))) ∧
    (m_basicMeshes st').*1 = (m_basicMeshes st).*1 ++ scene_objects.*1.
Proof.
  intros Hwf.
  destruct (m_pShaderManager (scene (world st))) as [shader|] eqn:Hsh.
  - destruct (RenderScene_staged st shader Hsh Hwf)
      as (pushes & draws & -> & _ & Hdraws & _).
    eexists. split; [done|]. cbn. split_and!; try done.
    + rewrite fmap_app. f_equal. rewrite <- list_fmap_compose.
      apply (Forall2_fmap_eq _ _ _ _ _ (λ obj d Hd, proj1 Hd) Hdraws).
  - rewrite (RenderScene_null st Hsh).
    eexists. split; [done|]. cbn. split_and!; try done.
    by rewrite fmap_app.
Qed.

Lemma RenderScene_completes_witness :
  ∃ st',
    RenderScene stage_scene = Done (tt, st') ∧
    m_textureIDs (scene (world st')) = m_textureIDs (scene (world stage_scene)) ∧
    m_loadedTextures (scene (world st'))
      = m_loadedTextures (scene (world stage_scene)) ∧
    m_objectMaterials (scene (world st'))
      = m_objectMaterials (scene (world stage_scene)) ∧
    calls (world st') = calls (world stage_scene) ∧
    (m_pShaderManager (scene (world stage_scene)) = None
       → world st' = world stage_scene) ∧
    (is_Some (m_pShaderManager (scene (world stage_scene)))
       → is_Some (m_pShaderManager (scene (world st')))) ∧
    (m_basicMeshes st').*1
      = (m_basicMeshes stage_scene).*1 ++ scene_objects.*1.
Proof.
  apply (RenderScene_completes stage_scene).
  vm_compute. split; [split|]; (discriminate || reflexivity).
Defined.

(** X13.  Every draw of [RenderScene] is made with texturing and lighting
    switched on and with the sampler index that the registry gives for the
    tag of its texture at that moment: the slot of the first entry with the
    tag, or -1 when no texture was registered under it. *)
Theorem RenderScene_draws_sample_registry_slots `{FloatLiterals}
    (st : Stage) (shader : ShaderManager) :
  m_pShaderManager (scene (world st)) = Some shader →
  wf_scene (scene (world st)) →
  ∃ st' new,
    RenderScene st = Done (tt, st') ∧
    m_basicMeshes st' = m_basicMeshes st ++ new ∧
    Forall2 (λ obj d,
               d.1 = obj.1 ∧
               ∃ uniforms,
                 d.2 = Some uniforms ∧
                 uniforms !! g_UseTextureName = Some (IntValue 1) ∧
                 uniforms !! g_TextureValueName
                   = Some (Sampler2DValue (slot_of (scene (world st)) obj.2)) ∧
                 uniforms !! g_UseLightingName = Some (IntValue 1))
      scene_objects new.
Proof.
  intros Hsh Hwf.
  destruct (RenderScene_staged st shader Hsh Hwf)
    as (pushes & draws & -> & _ & Hdraws & _).
  eexists _, _. split; [done|]. split; [done|].
  apply Forall2_fmap_r. eapply Forall2_impl; [exact Hdraws|].
  intros obj d (Hcall & Hflag & Hslot & Hlight). cbn. split; [done|].
  eexists. split; [done|].
  by rewrite !lookup_push_all, Hflag, Hslot, Hlight.
Qed.

Lemma RenderScene_draws_sample_registry_slots_witness :
  ∃ st' new,
    RenderScene stage_scene = Done (tt, st') ∧
    m_basicMeshes st' = m_basicMeshes stage_scene ++ new ∧
    Forall2 (λ obj d,
               d.1 = obj.1 ∧
               ∃ uniforms,
                 d.2 = Some uniforms ∧
                 uniforms !! g_UseTextureName = Some (IntValue 1) ∧
                 uniforms !! g_TextureValueName
                   = Some (Sampler2DValue
                             (slot_of (scene (world stage_scene)) obj.2)) ∧
                 uniforms !! g_UseLightingName = Some (IntValue 1))
      scene_objects new.
Proof.
  apply (RenderScene_draws_sample_registry_slots stage_scene ∅).
  - vm_compute. reflexivity.
  - vm_compute. split; [split|]; (discriminate || reflexivity).
Defined.

(** X14.  [RenderScene] is idempotent: a second call right after the first
    issues the same thirteen draws, each with exactly the uniforms it had
    in the first call, and leaves the world as the first call left it.
    Every uniform that [RenderScene] ever sets is set before its first
    draw, so nothing of the state before a call shows in its draws. *)
Theorem RenderScene_idempotent `{FloatLiterals} (st st1 : Stage) :
  wf_scene (scene (world st)) →
  RenderScene st = Done (tt, st1) →
  ∃ new,
    m_basicMeshes st1 = m_basicMeshes st ++ new ∧
    RenderScene st1 =
    Done (tt, {| world := world st1;
                 m_basicMeshes := m_basicMeshes st1 ++ new |}).
Proof.
  intros Hwf Hrun.
  destruct (m_pShaderManager (scene (world st))) as [shader|] eqn:Hsh.
  - destruct (RenderScene_staged st shader Hsh Hwf)
      as (pushes & draws & Hrun' & Hany & _ & Hnames).
    rewrite Hrun' in Hrun. injection Hrun as <-.
    eexists. split; [done|].
    rewrite (Hany (push_all pushes shader) (staged shader st pushes draws))
      by done.
    unfold staged at 1. cbn [world m_basicMeshes staged].
    rewrite set_shader_set_shader.
    rewrite (push_all_absorb pushes pushes shader) by done.
    assert ((λ d : mesh_call * list (string * uniform),
               (d.1, Some (push_all d.2 (push_all pushes shader)))) <$> draws
            = (λ d, (d.1, Some (push_all d.2 shader))) <$> draws) as ->; [|done].
    apply list_fmap_ext. intros i d Hd. cbn. do 2 f_equal.
    apply push_all_absorb.
    by apply (Forall_lookup_1 _ _ _ _ Hnames Hd).
  - rewrite (RenderScene_null st Hsh) in Hrun. injection Hrun as <-.
    eexists. split; [done|]. by rewrite RenderScene_null by exact Hsh.
Qed.

Lemma RenderScene_idempotent_witness :
  ∃ new,
    m_basicMeshes stage_rendered = m_basicMeshes stage_scene ++ new ∧
    RenderScene stage_rendered =
    Done (tt, {| world := world stage_rendered;
                 m_basicMeshes := m_basicMeshes stage_rendered ++ new |}).
Proof.
  assert (wf_scene (scene (world stage_scene))) as Hwf.
  { vm_compute. split; [split|]; (discriminate || reflexivity). }
  apply (RenderScene_idempotent stage_scene stage_rendered Hwf).
  unfold stage_rendered.
  assert (m_pShaderManager (scene (world stage_scene)) = Some ∅) as Hsh.
  { vm_compute. reflexivity. }
  destruct (RenderScene_staged stage_scene ∅ Hsh Hwf)
    as (pushes & draws & Hrun & _).
  rewrite Hrun. reflexivity.
Defined.

(** ** [PrepareScene] *)

Section Prepare.
Context `{FloatLiterals}.
Implicit Types (env : Env) (st : Stage).

(** [PrepareScene] is its eight mesh loads, then the loads of
    [scene_textures] in order, then [BindGLTextures]. *)
Lemma PrepareScene_as_load_all env st :
  PrepareScene env st =
  '(_, w) ← load_all env scene_textures (world st);
  '(_, w') ← BindGLTextures w;
  mret (tt, {| world := w';
               m_basicMeshes :=
                 m_basicMeshes st
                 ++ ((λ c, (c, m_pShaderManager (scene (world st))))
                       <$> mesh_loads) |}).
Proof.
  unfold PrepareScene, bind_MS, mesh. cbn [mbind outcome_bind world m_basicMeshes].
  unfold on_world, scene_textures, load_all, bind_M, ret_M.
  cbn [world m_basicMeshes].
  repeat (match goal with
          | |- context [CreateGLTexture ?e ?f ?t ?w] =>
              destruct (CreateGLTexture e f t w) as [[? ?]| |];
              cbn [mbind outcome_bind mret outcome_ret world m_basicMeshes];
              try done
          end).
  destruct (BindGLTextures _) as [[[] w']| |];
    cbn [mbind outcome_bind mret outcome_ret]; [|done..].
  by rewrite <- !app_assoc.
Qed.

End Prepare.

(** X15.  [PrepareScene] on a well-formed stage with [n] occupied slots,
    when [k] of its seven texture files are accepted ([k] ≤ 7): if
    [n + k] ≤ 16 it completes, has made its eight mesh loads, has appended
    the accepted textures to the registry in the order of the source and
    has ended by binding every occupied slot; if [n + k] > 16 it writes
    past the end of the array.  So it always completes on a new scene
    manager, and a run with all seven files accepted can be repeated once
    but not twice. *)
Theorem PrepareScene_outcome `{FloatLiterals} (env : Env) (st : Stage) :
  wf_scene (scene (world st)) →
  (length (loaded_tags env scene_textures) ≤ 7)%nat ∧
  (m_loadedTextures (scene (world st))
   + Z.of_nat (length (loaded_tags env scene_textures)) ≤ MAX_TEXTURES →
   ∃ st',
     PrepareScene env st = Done (tt, st') ∧
     wf_scene (scene (world st')) ∧
     tex_tag <$> registered (scene (world st'))
       = (tex_tag <$> registered (scene (world st)))
         ++ loaded_tags env scene_textures ∧
     m_pShaderManager (scene (world st'))
       = m_pShaderManager (scene (world st)) ∧
     m_objectMaterials (scene (world st'))
       = m_objectMaterials (scene (world st)) ∧
     (m_basicMeshes st').*1 = (m_basicMeshes st).*1 ++ mesh_loads ∧
     ∃ cs, calls (world st')
           = cs ++ bind_calls (tex_ID <$> registered (scene (world st')))) ∧
  (MAX_TEXTURES < m_loadedTextures (scene (world st))
                  + Z.of_nat (length (loaded_tags env scene_textures)) →
   PrepareScene env st = Undefined).
Proof.
  intros Hwf. split_and!.
  - unfold loaded_tags. rewrite length_fmap.
    etrans; [apply length_filter|done].
  - intros Hfit. rewrite PrepareScene_as_load_all.
    pose proof (load_all_from env scene_textures (world st) Hwf) as Hall.
    rewrite decide_True in Hall by done.
    destruct Hall as (w' & ids & -> & Hwf' & Hlen & _ & Hreg & Hsh & Hmat).
    cbn [mbind outcome_bind]. rewrite BindGLTextures_calls by done.
    cbn [mbind outcome_bind mret outcome_ret].
    eexists. split; [done|]. cbn [world scene calls m_basicMeshes].
    split_and!; [done| |done|done| |by eexists].
    + rewrite Hreg, fmap_app. f_equal.
      apply fmap_zip_with_r; [done | lia].
    + rewrite fmap_app. by f_equal.
  - intros Hover. rewrite PrepareScene_as_load_all.
    pose proof (load_all_from env scene_textures (world st) Hwf) as Hall.
    rewrite decide_False in Hall by lia. by rewrite Hall.
Qed.

Lemma PrepareScene_outcome_witness :
  PrepareScene env_demo stage_prepared_twice = Undefined.
Proof.
  apply (PrepareScene_outcome env_demo stage_prepared_twice).
  - vm_compute. split; [split|]; (discriminate || reflexivity).
  - vm_compute. reflexivity.
Defined.

Section SlotsAndTags.
Context `{GLM}.

(** [slot_of], read off the list of the registered tags. *)
Lemma slot_of_tags (sm : SceneManager) (tag : string) :
  (slot_of sm tag = -1 ↔ tag ∉ tex_tag <$> registered sm) ∧
  (slot_of sm tag ≠ -1 →
   0 ≤ slot_of sm tag ∧
   (tex_tag <$> registered sm) !! Z.to_nat (slot_of sm tag) = Some tag).
Proof.
  unfold slot_of, first_texture.
  destruct (list_find _ _) as [[k e]|] eqn:Hfind.
  - apply list_find_Some in Hfind as (Hk & Htag & _). split.
    + split; [lia|]. intros Hnot. exfalso. apply Hnot.
      rewrite <- Htag. apply list_elem_of_fmap_2.
      by eapply list_elem_of_lookup_2.
    + intros _. split; [lia|].
      by rewrite Nat2Z.id, list_lookup_fmap, Hk; cbn; rewrite Htag.
  - apply list_find_None in Hfind. split; [|done]. split; [|done].
    intros _ (e & -> & He)%list_elem_of_fmap.
    by apply (proj1 (Forall_forall _ _) Hfind e He).
Qed.

End SlotsAndTags.

(** X16.  [PrepareScene] on a new scene manager, then [RenderScene]: an
    object is drawn with the invalid sampler index -1 exactly when the file
    of its texture was not accepted by [PrepareScene]; otherwise it is
    drawn with the position of its tag among the accepted textures, which
    is the texture unit that [PrepareScene] bound the texture to. *)
Theorem PrepareScene_then_RenderScene `{FloatLiterals} (env : Env)
    (shader : ShaderManager) (garbage : Z → Z) (st : Stage) :
  PrepareScene env (new_stage (Some shader) garbage) = Done (tt, st) →
  ∃ st' new,
    RenderScene st = Done (tt, st') ∧
    m_basicMeshes st' = m_basicMeshes st ++ new ∧
    Forall2 (λ obj d,
               d.1 = obj.1 ∧
               ∃ uniforms slot,
                 d.2 = Some uniforms ∧
                 uniforms !! g_TextureValueName = Some (Sampler2DValue slot) ∧
                 (slot = -1 ↔ obj.2 ∉ loaded_tags env scene_textures) ∧
                 (slot ≠ -1 →
                  0 ≤ slot ∧
                  loaded_tags env scene_textures !! Z.to_nat slot
                    = Some obj.2))
      scene_objects new.
Proof.
  intros Hprep. rewrite PrepareScene_as_load_all in Hprep.
  pose proof (load_all_from env scene_textures
                (world (new_stage (Some shader) garbage))
                (new_world_wf _ _)) as Hall.
  destruct (decide _) as [_|_] in Hall; [|by rewrite Hall in Hprep].
  destruct Hall as (w' & ids & Hrun & Hwf' & Hlen & _ & Hreg & Hsh & _).
  rewrite Hrun in Hprep. cbn [mbind outcome_bind] in Hprep.
  rewrite BindGLTextures_calls in Hprep by done.
  injection Hprep as <-. cbn [world m_basicMeshes].
  assert (tex_tag <$> registered (scene w') = loaded_tags env scene_textures)
    as Htags.
  { rewrite Hreg. apply fmap_zip_with_r; [done | lia]. }
  set (st := {| world := {| scene := scene w'; calls := _ |};
                m_basicMeshes := _ |}).
  destruct (RenderScene_staged st shader Hsh Hwf')
    as (pushes & draws & -> & _ & Hdraws & _).
  eexists _, _. split; [done|]. split; [done|].
  apply Forall2_fmap_r. eapply Forall2_impl; [exact Hdraws|].
  intros obj d (Hcall & _ & Hslot & _). cbn [fst snd]. split; [done|].
  eexists _, _. split; [done|].
  split; [by rewrite lookup_push_all, Hslot|].
  rewrite <- Htags. apply slot_of_tags.
Qed.

Lemma PrepareScene_then_RenderScene_witness :
  ∃ st' new,
    RenderScene stage_prepared = Done (tt, st') ∧
    m_basicMeshes st' = m_basicMeshes stage_prepared ++ new ∧
    Forall2 (λ obj d,
               d.1 = obj.1 ∧
               ∃ uniforms slot,
                 d.2 = Some uniforms ∧
                 uniforms !! g_TextureValueName = Some (Sampler2DValue slot) ∧
                 (slot = -1 ↔ obj.2 ∉ loaded_tags env_demo scene_textures) ∧
                 (slot ≠ -1 →
                  0 ≤ slot ∧
                  loaded_tags env_demo scene_textures !! Z.to_nat slot
                    = Some obj.2))
      scene_objects new.
Proof.
  apply (PrepareScene_then_RenderScene env_demo ∅ (λ _, 0) stage_prepared).
  vm_compute. reflexivity.
Defined.

(** ** Sequences of method calls *)

Section Sequences.
Context `{FloatLiterals}.
Implicit Types (env : Env) (st : Stage) (w : World).

Lemma kept_refl st : wf_scene (scene (world st)) → kept st st.
Proof. intros Hwf. by split_and!. Qed.

Lemma kept_trans st st1 st2 : kept st st1 → kept st1 st2 → kept st st2.
Proof.
  intros (_ & Hm & Hs & Hp) (Hwf & Hm' & Hs' & Hp').
  split_and!; [done | congruence | by rewrite Hs' | by etrans].
Qed.

(** A method of the world that keeps the object up to its uniforms. *)
Lemma kept_on_world_uniforms (m : M unit) st st' :
  wf_scene (scene (world st)) →
  (∀ w', m (world st) = Done (tt, w') →
         w' = world st ∨ ∃ shader shader',
           m_pShaderManager (scene (world st)) = Some shader ∧
           w' = set_shader shader' (world st)) →
  on_world m st = Done (tt, st') →
  kept st st'.
Proof.
  intros Hwf Hm. unfold on_world.
  destruct (m (world st)) as [[[] w']| |] eqn:Hrun; [|done..].
  cbn [mbind outcome_bind mret outcome_ret]. intros [= <-].
  destruct (Hm w' eq_refl) as [->|(shader & shader' & Hsh & ->)];
    unfold kept; cbn [world]; [by split_and!|].
  split_and!; [done | done | | done].
  cbn. by rewrite Hsh.
Qed.

Lemma SetShaderMaterial_Done indeterminate materialTag w w' :
  SetShaderMaterial indeterminate materialTag w = Done (tt, w') →
  w' = w ∨ ∃ shader shader',
    m_pShaderManager (scene w) = Some shader ∧ w' = set_shader shader' w.
Proof.
  unfold SetShaderMaterial, bind_M, get_scene, lift, ret_M.
  cbn [mbind outcome_bind].
  destruct (_ >? 0); [|intros [= <-]; by left].
  destruct (FindMaterial _ _ _) as [[b material]| |];
    cbn [mbind outcome_bind mret outcome_ret fst snd]; [|done..].
  destruct b; [|intros [= <-]; by left].
  destruct (m_pShaderManager (scene w)) as [shader|] eqn:Hsh.
  - unfold setVec3Value, setFloatValue.
    rewrite (set_uniform_run _ _ _ _ Hsh). cbn [mbind outcome_bind].
    rewrite (set_uniform_run _ _ _ _ (set_shader_shader _ _)).
    cbn [mbind outcome_bind].
    rewrite (set_uniform_run _ _ _ _ (set_shader_shader _ _)).
    rewrite !set_shader_set_shader. intros [= <-]. right. eauto.
  - unfold setVec3Value, set_uniform, bind_M, get_scene, lift.
    cbn [mbind outcome_bind]. by rewrite Hsh.
Qed.

(** Every method keeps what [kept] lists. *)
Lemma call_kept env (c : method) st st' :
  wf_scene (scene (world st)) →
  call env c st = Done (tt, st') →
  kept st st'.
Proof.
  intros Hwf. destruct c; cbn [call]; unfold kept.
  - (* CreateGLTexture *)
    unfold on_world, bind_M, ret_M.
    destruct (CreateGLTexture env filename tag (world st))
      as [[b w']| |] eqn:Hrun; [|done..].
    cbn [mbind outcome_bind mret outcome_ret]. intros [= <-].
    destruct (CreateGLTexture_Done _ _ _ _ _ _ Hwf Hrun)
      as (Hwf' & [(_ & _ & Hsame) | (_ & _ & Hlt & Hreg)]).
    + cbn [world]. rewrite Hsame. by split_and!.
    + cbn [world]. split_and!; [done | by rewrite Hreg | by rewrite Hreg |].
      rewrite Hreg, registered_register, fmap_app by done.
      by apply prefix_app_r.
  - (* BindGLTextures *)
    unfold on_world. rewrite BindGLTextures_calls by done.
    cbn [mbind outcome_bind mret outcome_ret]. intros [= <-].
    by split_and!.
  - (* DestroyGLTextures *)
    unfold on_world.
    destruct (DestroyGLTextures_object env (world st) Hwf)
      as (w' & names & -> & _ & _ & Hsh & Hmat & Hcount & Htags & _).
    cbn [mbind outcome_bind mret outcome_ret]. intros [= <-]. cbn [world].
    split_and!; [|done|by rewrite Hsh|].
    + destruct Hwf as [Hn Hl]. split; [by rewrite Hcount|].
      by rewrite <- (length_fmap tex_tag), Htags, length_fmap.
    + unfold registered. by rewrite Hcount, !fmap_take, Htags.
  - (* SetTransformations *)
    apply (kept_on_world_uniforms _ _ _ Hwf). intros w' Hrun.
    destruct (m_pShaderManager (scene (world st))) as [shader|] eqn:Hsh.
    + rewrite (SetTransformations_run _ _ _ _ _ _ _ Hsh) in Hrun.
      injection Hrun as <-. right. eauto.
    + unfold SetTransformations in Hrun.
      rewrite if_shader_null in Hrun by done. injection Hrun as <-. by left.
  - (* SetShaderColor *)
    apply (kept_on_world_uniforms _ _ _ Hwf). intros w' Hrun.
    destruct (m_pShaderManager (scene (world st))) as [shader|] eqn:Hsh.
    + rewrite (SetShaderColor_run _ _ _ _ _ _ Hsh) in Hrun.
      injection Hrun as <-. right. eauto.
    + unfold SetShaderColor in Hrun.
      rewrite if_shader_null in Hrun by done. injection Hrun as <-. by left.
  - (* SetShaderTexture *)
    apply (kept_on_world_uniforms _ _ _ Hwf). intros w' Hrun.
    destruct (m_pShaderManager (scene (world st))) as [shader|] eqn:Hsh.
    + rewrite (SetShaderTexture_run _ _ _ Hsh Hwf) in Hrun.
      injection Hrun as <-. right. eauto.
    + unfold SetShaderTexture in Hrun.
      rewrite if_shader_null in Hrun by done. injection Hrun as <-. by left.
  - (* SetTextureUVScale *)
    apply (kept_on_world_uniforms _ _ _ Hwf). intros w' Hrun.
    destruct (m_pShaderManager (scene (world st))) as [shader|] eqn:Hsh.
    + rewrite (SetTextureUVScale_run _ _ _ _ Hsh) in Hrun.
      injection Hrun as <-. right. eauto.
    + rewrite SetTextureUVScale_null in Hrun by done.
      injection Hrun as <-. by left.
  - (* SetShaderMaterial *)
    apply (kept_on_world_uniforms _ _ _ Hwf). intros w' Hrun.
    by apply (SetShaderMaterial_Done indeterminate materialTag).
  - (* PrepareScene *)
    rewrite PrepareScene_as_load_all.
    pose proof (load_all_from env scene_textures (world st) Hwf) as Hall.
    destruct (decide _) as [_|_] in Hall; [|by rewrite Hall].
    destruct Hall as (w' & ids & -> & Hwf' & Hlen & _ & Hreg & Hsh & Hmat).
    cbn [mbind outcome_bind]. rewrite BindGLTextures_calls by done.
    cbn [mbind outcome_bind mret outcome_ret]. intros [= <-].
    cbn [world scene]. split_and!; [done | done | by rewrite Hsh |].
    rewrite Hreg, fmap_app. by apply prefix_app_r.
  - (* RenderScene *)
    intros Hrun.
    destruct (m_pShaderManager (scene (world st))) as [shader|] eqn:Hsh.
    + destruct (RenderScene_staged st shader Hsh Hwf)
        as (pushes & draws & Hrun' & _).
      rewrite Hrun' in Hrun. injection Hrun as <-.
      split_and!; [done | done | by cbn | done].
    + rewrite (RenderScene_null st Hsh) in Hrun. injection Hrun as <-.
      cbn [world]. by split_and!.
Qed.

Lemma call_all_kept env (cs : list method) st st' :
  wf_scene (scene (world st)) →
  call_all env cs st = Done (tt, st') →
  kept st st'.
Proof.
  revert st. induction cs as [|c cs IH]; intros st Hwf; cbn [call_all].
  - intros [= <-]. by apply kept_refl.
  - unfold bind_MS.
    destruct (call env c st) as [[[] st1]| |] eqn:Hc; [|done..].
    cbn [mbind outcome_bind]. intros Hrest.
    pose proof (call_kept env c st st1 Hwf Hc) as Hk.
    eapply kept_trans; [exact Hk|]. apply IH; [apply Hk | done].
Qed.

End Sequences.

Section Outcomes.
Context `{FloatLiterals}.
Implicit Types (env : Env) (st : Stage) (w : World).

Lemma loads_of_nonneg env (c : method) : 0 ≤ loads_of env c.
Proof. destruct c; cbn [loads_of]; try lia. by destruct (loadable _ _). Qed.

Lemma loads_of_all_nonneg env (cs : list method) : 0 ≤ loads_of_all env cs.
Proof.
  induction cs as [|c cs IH]; cbn; [done|].
  pose proof (loads_of_nonneg env c). unfold loads_of_all in IH. lia.
Qed.

Lemma SetShaderMaterial_no_materials indeterminate materialTag w :
  m_objectMaterials (scene w) = [] →
  SetShaderMaterial indeterminate materialTag w = Done (tt, w).
Proof.
  intros Hnil. unfold SetShaderMaterial, bind_M, get_scene, lift, ret_M.
  cbn [mbind outcome_bind]. by rewrite Hnil.
Qed.

(** A method that leaves the registry alone completes. *)
Lemma on_world_completes (m : M unit) st w' :
  m (world st) = Done (tt, w') →
  m_loadedTextures (scene w') = m_loadedTextures (scene (world st)) →
  ∃ st', on_world m st = Done (tt, st') ∧
         m_loadedTextures (scene (world st'))
         = m_loadedTextures (scene (world st)) + 0.
Proof.
  intros Hrun Hcount. unfold on_world. rewrite Hrun.
  cbn [mbind outcome_bind mret outcome_ret]. eexists. split; [done|].
  cbn [world]. lia.
Qed.

Lemma call_outcome env (c : method) st :
  wf_scene (scene (world st)) →
  m_objectMaterials (scene (world st)) = [] →
  if decide (m_loadedTextures (scene (world st)) + loads_of env c
             ≤ MAX_TEXTURES)
  then ∃ st', call env c st = Done (tt, st') ∧
              m_loadedTextures (scene (world st'))
              = m_loadedTextures (scene (world st)) + loads_of env c
  else call env c st = Undefined.
Proof.
  intros Hwf Hnil. pose proof Hwf as [Hn Hlen].
  destruct c; cbn [call loads_of];
    try (rewrite decide_True by lia).
  - (* CreateGLTexture *)
    pose proof (CreateGLTexture_cases env filename tag (world st) Hwf) as Hc.
    unfold on_world, bind_M, ret_M.
    destruct (loadable env filename).
    + destruct (decide (m_loadedTextures _ < _)) as [Hlt|Hge] in Hc.
      * rewrite decide_True by lia. destruct Hc as [cs ->].
        cbn [mbind outcome_bind mret outcome_ret]. eexists. split; [done|].
        done.
      * rewrite decide_False by lia. by rewrite Hc.
    + rewrite decide_True by lia. destruct Hc as [cs ->].
      cbn [mbind outcome_bind mret outcome_ret]. eexists. split; [done|].
      cbn [world scene]. lia.
  - eapply on_world_completes; [by apply BindGLTextures_calls|done].
  - destruct (DestroyGLTextures_object env (world st) Hwf)
      as (w' & names & Hrun & _ & _ & _ & _ & Hcount & _).
    by eapply on_world_completes.
  - destruct (m_pShaderManager (scene (world st))) as [shader|] eqn:Hsh.
    + eapply on_world_completes; [by apply SetTransformations_run|done].
    + eapply on_world_completes; [by apply if_shader_null|done].
  - destruct (m_pShaderManager (scene (world st))) as [shader|] eqn:Hsh.
    + eapply on_world_completes; [by apply SetShaderColor_run|done].
    + eapply on_world_completes; [by apply if_shader_null|done].
  - destruct (m_pShaderManager (scene (world st))) as [shader|] eqn:Hsh.
    + eapply on_world_completes; [by apply SetShaderTexture_run|done].
    + eapply on_world_completes; [by apply if_shader_null|done].
  - destruct (m_pShaderManager (scene (world st))) as [shader|] eqn:Hsh.
    + eapply on_world_completes; [by apply SetTextureUVScale_run|done].
    + eapply on_world_completes; [by apply SetTextureUVScale_null|done].
  - eapply on_world_completes;
      [by apply SetShaderMaterial_no_materials|done].
  - (* PrepareScene *)
    rewrite PrepareScene_as_load_all.
    pose proof (load_all_from env scene_textures (world st) Hwf) as Hall.
    destruct (decide _) as [Hle|Hgt] in Hall.
    + rewrite decide_True by done.
      destruct Hall as (w' & ids & -> & Hwf' & Hlen' & _ & Hreg & _).
      cbn [mbind outcome_bind]. rewrite BindGLTextures_calls by done.
      cbn [mbind outcome_bind mret outcome_ret]. eexists. split; [done|].
      cbn [world scene].
      apply (f_equal length) in Hreg.
      rewrite length_app, length_zip_with, Hlen', Nat.min_id in Hreg.
      unfold registered in Hreg. rewrite !length_take in Hreg.
      destruct Hwf' as [Hn' Hlen2]. lia.
    + rewrite decide_False by done. by rewrite Hall.
  - (* RenderScene *)
    destruct (m_pShaderManager (scene (world st))) as [shader|] eqn:Hsh.
    + destruct (RenderScene_staged st shader Hsh Hwf)
        as (pushes & draws & -> & _).
      eexists. split; [done|]. cbn. lia.
    + rewrite (RenderScene_null st Hsh). eexists. split; [done|].
      cbn [world]. lia.
Qed.

Lemma slot_of_prefix (sm sm' : SceneManager) tag :
  (tex_tag <$> registered sm) `prefix_of` (tex_tag <$> registered sm') →
  slot_of sm tag ≠ -1 →
  slot_of sm' tag = slot_of sm tag.
Proof.
  intros [more Hmore]. unfold slot_of, first_texture.
  pose proof (list_find_fmap tex_tag (λ t, t = tag) (registered sm)) as Hl.
  pose proof (list_find_fmap tex_tag (λ t, t = tag) (registered sm')) as Hr.
  rewrite Hmore in Hr.
  change ((λ t, t = tag) ∘ tex_tag) with (λ e, tex_tag e = tag) in Hl, Hr.
  destruct (list_find (λ e, tex_tag e = tag) (registered sm))
    as [[k e]|]; [intros _|done].
  cbn in Hl. rewrite (list_find_app_l _ _ _ _ _ Hl) in Hr.
  destruct (list_find (λ e, tex_tag e = tag) (registered sm'))
    as [[k' e']|]; [|done].
  cbn in Hr. by injection Hr as ->.
Qed.

End Outcomes.

(** X17.  No method of the class defines a material.  In whatever state a
    newly constructed scene manager is after a sequence of calls of its
    methods, [FindMaterial] answers false for every tag and leaves its
    output parameter alone, and [SetShaderMaterial] does nothing. *)
Theorem no_method_defines_a_material `{FloatLiterals} (env : Env)
    (cs : list method) (pShaderManager : option ShaderManager)
    (garbage : Z → Z) (st : Stage)
    (material : OBJECT_MATERIAL) (tag : string) :
  call_all env cs (new_stage pShaderManager garbage) = Done (tt, st) →
  m_objectMaterials (scene (world st)) = [] ∧
  FindMaterial (scene (world st)) tag material = Done (false, material) ∧
  SetShaderMaterial material tag (world st) = Done (tt, world st).
Proof.
  intros Hrun.
  destruct (call_all_kept env cs (new_stage pShaderManager garbage) st
              (new_world_wf _ _) Hrun) as (_ & Hmat & _).
  split_and!; [done | by apply FindMaterial_empty
              | by apply SetShaderMaterial_no_materials].
Qed.

Lemma no_method_defines_a_material_witness :
  call_all env_demo client_demo (new_stage (Some ∅) (λ _, 0))
  = Done (tt, stage_client) ∧
  m_objectMaterials (scene (world stage_client)) = [] ∧
  FindMaterial (scene (world stage_client)) "clay" stale
  = Done (false, stale) ∧
  SetShaderMaterial stale "clay" (world stage_client)
  = Done (tt, world stage_client).
Proof.
  assert (call_all env_demo client_demo (new_stage (Some ∅) (λ _, 0))
          = Done (tt, stage_client)) as Hrun by (vm_compute; reflexivity).
  split; [exact Hrun|].
  exact (no_method_defines_a_material env_demo client_demo (Some ∅) (λ _, 0)
           stage_client stale "clay" Hrun).
Defined.

(** X18.  The registry only grows at its end.  Over any sequence of calls
    of the methods that completes, a tag that [FindTextureSlot] finds
    beforehand is found in the same slot afterwards: no method, not even
    [DestroyGLTextures], frees or moves a slot. *)
Theorem slots_survive_every_method `{FloatLiterals} (env : Env)
    (cs : list method) (st st' : Stage) (tag : string) :
  wf_scene (scene (world st)) →
  call_all env cs st = Done (tt, st') →
  FindTextureSlot (scene (world st)) tag ≠ Done (-1) →
  FindTextureSlot (scene (world st')) tag
  = FindTextureSlot (scene (world st)) tag.
Proof.
  intros Hwf Hrun.
  destruct (call_all_kept env cs st st' Hwf Hrun) as (Hwf' & _ & _ & Hpre).
  rewrite !FindTextureSlot_slot_of by done. intros Hfound.
  f_equal. apply slot_of_prefix; [done|]. congruence.
Qed.

Lemma slots_survive_every_method_witness :
  FindTextureSlot (scene (world stage_prepared)) "stone" = Done 1 ∧
  FindTextureSlot (scene (world stage_client)) "stone" = Done 1.
Proof.
  assert (FindTextureSlot (scene (world stage_prepared)) "stone" = Done 1)
    as Hslot by (vm_compute; reflexivity).
  split; [exact Hslot|]. rewrite <- Hslot.
  apply (slots_survive_every_method env_demo
           [CallDestroyGLTextures;
            CallCreateGLTexture "textures/wood.jpg" "wood";
            CallBindGLTextures]).
  - split; vm_compute; [split; discriminate | reflexivity].
  - vm_compute; reflexivity.
  - rewrite Hslot. discriminate.
Defined.

(** X19.  Only the capacity of the registry stops a client.  From a state
    without materials, a sequence of calls of the methods completes when
    the images it loads fit into the free slots of the registry, and then
    each accepted image has taken one slot; otherwise it runs into the
    undefined write past the end of the registry.  No call frees a slot
    and no call fails to terminate. *)
Theorem call_all_outcome `{FloatLiterals} (env : Env) (cs : list method)
    (st : Stage) :
  wf_scene (scene (world st)) →
  m_objectMaterials (scene (world st)) = [] →
  if decide (m_loadedTextures (scene (world st)) + loads_of_all env cs
             ≤ MAX_TEXTURES)
  then ∃ st', call_all env cs st = Done (tt, st') ∧
              m_loadedTextures (scene (world st'))
              = m_loadedTextures (scene (world st)) + loads_of_all env cs
  else call_all env cs st = Undefined.
Proof.
  revert st. induction cs as [|c cs IH]; intros st Hwf Hnil.
  - cbn [loads_of_all foldr call_all]. destruct Hwf as [Hn _].
    rewrite decide_True by lia. exists st. split; [done|lia].
  - change (loads_of_all env (c :: cs))
      with (loads_of env c + loads_of_all env cs).
    cbn [call_all]. unfold bind_MS.
    pose proof (call_outcome env c st Hwf Hnil) as Hc.
    pose proof (loads_of_nonneg env c).
    pose proof (loads_of_all_nonneg env cs).
    destruct (decide _) as [Hle|Hgt] in Hc.
    + destruct Hc as (st1 & Hrun & Hcount). rewrite Hrun.
      cbn [mbind outcome_bind].
      destruct (call_kept env c st st1 Hwf Hrun) as (Hwf1 & Hmat & _).
      pose proof (IH st1 Hwf1 ltac:(congruence)) as Hrest.
      rewrite Hcount in Hrest.
      destruct (decide _) as [Hle'|Hgt'] in Hrest.
      * rewrite decide_True by lia.
        destruct Hrest as (st' & -> & Hcount'). exists st'. split; [done|lia].
      * rewrite decide_False by lia. done.
    + rewrite decide_False by lia. by rewrite Hc.
Qed.

Lemma call_all_outcome_witness :
  (∃ st', call_all env_demo client_demo (new_stage (Some ∅) (λ _, 0))
          = Done (tt, st') ∧
          m_loadedTextures (scene (world st')) = 8) ∧
  call_all env_demo client_greedy (new_stage (Some ∅) (λ _, 0)) = Undefined.
Proof.
  split.
  - pose proof (call_all_outcome env_demo client_demo
                  (new_stage (Some ∅) (λ _, 0))
                  (new_world_wf _ _) eq_refl) as Hfit.
    rewrite decide_True in Hfit by (vm_compute; discriminate).
    exact Hfit.
  - pose proof (call_all_outcome env_demo client_greedy
                  (new_stage (Some ∅) (λ _, 0))
                  (new_world_wf _ _) eq_refl) as Hover.
    rewrite decide_False in Hover by (vm_compute; intros Hle; by apply Hle).
    exact Hover.
Defined.

(** X20.  A newly constructed scene manager has nothing registered: both
    texture lookups answer -1 for every tag, the empty tag of the unused
    slots included, [FindMaterial] answers false, and [BindGLTextures] and
    [DestroyGLTextures] issue no OpenGL call. *)
Theorem new_scene_manager_is_empty `{GLM} (env : Env)
    (pShaderManager : option ShaderManager) (garbage : Z → Z)
    (tag : string) (material : OBJECT_MATERIAL) :
  let w := new_world pShaderManager garbage in
  FindTextureID (scene w) tag = Done (-1) ∧
  FindTextureSlot (scene w) tag = Done (-1) ∧
  FindMaterial (scene w) tag material = Done (false, material) ∧
  BindGLTextures w = Done (tt, w) ∧
  DestroyGLTextures env w = Done (tt, w).
Proof.
  intros w. pose proof (new_world_wf pShaderManager garbage) as Hwf.
  split_and!.
  - by rewrite FindTextureID_first.
  - by rewrite FindTextureSlot_first.
  - by apply FindMaterial_empty.
  - reflexivity.
  - reflexivity.
Qed.
